(** * The e-commerce pipeline: generator, loader and reporter

    A shallow embedding of the three scripts
    - [script/generate_ecommerce_data.py] (module [Generator]),
    - [script/load_csv_to_sqlite.py]      (module [Loader]),
    - [script/order_summary_report.py]    (module [Reporter]),
    together with the parts of the Python runtime they call: text and number
    formatting, [datetime] arithmetic, the Mersenne Twister behind
    [random.Random], the [csv] module and the fragment of SQLite the scripts
    exercise. *)

From Stdlib Require Import ZArith List String Ascii Lia Bool.
From Stdlib Require Import Floats.SpecFloat DecimalString.
From Stdlib Require Import DecimalZ DecimalPos.
From Stdlib Require Import Sorting.Sorted Sorting.Permutation.
From stdpp Require Import gmap strings list.

Local Open Scope string_scope.
Local Open Scope Z_scope.

(** ** Python values, exceptions and builtins *)
Module Py.

(** A Python [float] is an IEEE 754 binary64 number. *)
Abbreviation float := spec_float.
Definition prec : Z := 53.
Definition emax : Z := 1024.

(** The values the scripts keep in the cells of their rows: [None], [int],
    [float] and [str]. *)
Inductive value : Type :=
| PNone
| PInt (z : Z)
| PFloat (f : float)
| PStr (s : string).

(** [v is None]. *)
Definition is_none (v : value) : bool :=
  match v with
  | PNone => true
  | _ => false
  end.

(** The exceptions the scripts and the libraries under them raise. *)
Inductive exn : Type :=
| FileNotFoundError (msg : string)
| ValueError (msg : string)
| TypeError (msg : string)
| KeyError (key : value)
| IndexError
| OverflowError
| CsvError (msg : string)
| IntegrityError (msg : string)
| OperationalError (msg : string)
| InterfaceError (msg : string).

(** A computation returns or raises; [Timeout] is the third outcome of the
    model only: a loop of unknown length was cut off by its fuel. *)
Inductive result (A : Type) : Type :=
| Ok (a : A)
| Raise (e : exn)
| Timeout.
Arguments Ok {A} a.
Arguments Raise {A} e.
Arguments Timeout {A}.

Definition bind {A B : Type} (r : result A) (k : A -> result B) : result B :=
  match r with
  | Ok a => k a
  | Raise e => Raise e
  | Timeout => Timeout
  end.

Notation "'do' x <- r ; k" := (bind r (fun x => k))
  (at level 10, x pattern, r at level 100, k at level 200).

(** [[f(x) for x in l]] where [f] may raise: the first exception wins. *)
Fixpoint mapM {A B : Type} (f : A -> result B) (l : list A) : result (list B) :=
  match l with
  | [] => Ok []
  | x :: l' => do y <- f x; do ys <- mapM f l'; Ok (y :: ys)
  end.

(** A step that reads and changes a state [S] and returns or raises: the
    state it leaves is the state at the return or at the raise. *)
Definition action (S A : Type) : Type := S -> result A * S.

Definition ret {S A : Type} (a : A) : action S A := fun s => (Ok a, s).

Definition lift {S A : Type} (r : result A) : action S A := fun s => (r, s).

(** A change of the state that cannot fail. *)
Definition update {S : Type} (f : S -> S) : action S unit := fun s => (Ok tt, f s).

Definition and_then {S A B : Type} (m : action S A) (k : A -> action S B) : action S B :=
  fun s =>
    match m s with
    | (Ok a, s') => k a s'
    | (Raise e, s') => (Raise e, s')
    | (Timeout, s') => (Timeout, s')
    end.

Notation "'run' x <- m ; k" := (and_then m (fun x => k))
  (at level 10, x pattern, m at level 100, k at level 200).
Notation "'exec' m ; k" := (and_then m (fun _ => k))
  (at level 10, m at level 100, k at level 200).

(** [for x in l: body(x)]. *)
Fixpoint for_each {S A : Type} (l : list A) (body : A -> action S unit) : action S unit :=
  match l with
  | [] => ret tt
  | x :: l' => exec body x; for_each l' body
  end.

(** *** Text

    A [str] is the sequence of its characters, a file opened with an
    encoding the text it decodes to. A character is kept with its code
    point, and the code points kept are those below 256: a text with any
    other character is outside of what is modelled. *)

Definition chars (s : string) : list ascii := list_ascii_of_string s.
Definition text (cs : list ascii) : string := string_of_list_ascii cs.

Definition quote_char : ascii := ascii_of_nat 34.
Definition cr : ascii := ascii_of_nat 13.
Definition lf : ascii := ascii_of_nat 10.
Definition crlf : string := text [cr; lf].

(** [str.lower] on the ASCII letters. *)
Definition lower_char (c : ascii) : ascii :=
  let n := nat_of_ascii c in
  if (Nat.leb 65 n && Nat.leb n 90)%bool then ascii_of_nat (n + 32) else c.

Definition lower (s : string) : string := text (map lower_char (chars s)).

(** [s.replace(old, new)] for one-character [old] and [new]. *)
Definition replace (old new : ascii) (s : string) : string :=
  text (map (fun c => if Ascii.eqb c old then new else c) (chars s)).

(** [sep.join(parts)]. *)
Definition join (sep : string) (parts : list string) : string :=
  String.concat sep parts.

(** [str(z)] for an [int] of at most 4300 digits, which Python 3.11 and
    later write. *)
Definition str_int (z : Z) : string := NilZero.string_of_int (Z.to_int z).

Definition zeros (n : nat) : string := text (repeat "0"%char n).

(** [format(z, "0wd")]: sign-aware zero padding to width [w]. *)
Definition format_0d (w : nat) (z : Z) : string :=
  if z <? 0 then
    let d := str_int (- z) in
    "-" ++ zeros (w - 1 - String.length d) ++ d
  else
    let d := str_int z in
    zeros (w - String.length d) ++ d.

(** *** Numbers from text *)

(** The value of a decimal digit. Of the characters below 256, the decimal
    digits are the ten ASCII digits. *)
Definition digit_val (c : ascii) : option Z :=
  let n := nat_of_ascii c in
  if (Nat.leb 48 n && Nat.leb n 57)%bool then Some (Z.of_nat (n - 48)) else None.

(** The white space [float] and [int] skip around a number: the six ASCII
    characters tab, line feed, vertical tab, form feed, carriage return and
    space, and, of the characters that are not ASCII, those that
    [str.isspace] accepts, here U+0085 and U+00A0. The separators U+001C to
    U+001F are not skipped. *)
Definition is_space (c : ascii) : bool :=
  let n := nat_of_ascii c in
  (Nat.leb 9 n && Nat.leb n 13)%bool || Nat.eqb n 32 || Nat.eqb n 133 || Nat.eqb n 160.

Fixpoint lstrip (cs : list ascii) : list ascii :=
  match cs with
  | c :: cs' => if is_space c then lstrip cs' else cs
  | [] => []
  end.

Definition strip (cs : list ascii) : list ascii :=
  rev (lstrip (rev (lstrip cs))).

(** A [digitpart]: digits, single underscores allowed between two digits.
    Returns the number read so far, how many digits it has, and the rest. *)
Fixpoint digitpart (acc : Z) (n : nat) (cs : list ascii) : Z * nat * list ascii :=
  match cs with
  | c :: cs' =>
      match digit_val c with
      | Some d => digitpart (10 * acc + d) (S n) cs'
      | None =>
          match n, cs' with
          | S _, c' :: _ =>
              if (Ascii.eqb c "_" && bool_decide (is_Some (digit_val c')))%bool
              then digitpart acc n cs'
              else (acc, n, cs)
          | _, _ => (acc, n, cs)
          end
      end
  | [] => (acc, n, [])
  end.

(** An optional sign: [true] for minus. *)
Definition sign_of (cs : list ascii) : bool * list ascii :=
  match cs with
  | "-"%char :: cs' => (true, cs')
  | "+"%char :: cs' => (false, cs')
  | _ => (false, cs)
  end.

(** [sys.get_int_max_str_digits()]: the most digits [int] reads (Python 3.11
    and later). *)
Definition int_max_str_digits : nat := 4300.

(** [int(s)] for a [str] in base ten: white space, a sign, then digits. The
    digits are counted, leading zeros too, once they are known to be well
    separated and before what follows them is looked at. *)
Definition parse_int (s : string) : result Z :=
  let '(neg, cs) := sign_of (strip (chars s)) in
  let '(n, digits, rest) := digitpart 0 0 cs in
  match rest with
  | "_"%char :: _ => Raise (ValueError "invalid literal for int() with base 10")
  | _ =>
      if Nat.ltb int_max_str_digits digits then
        Raise (ValueError "Exceeds the limit (4300 digits) for integer string conversion")
      else
        match digits, rest with
        | S _, [] => Ok (if neg then - n else n)
        | _, _ => Raise (ValueError "invalid literal for int() with base 10")
        end
  end.

(** *** Floats *)

(** The binary64 number nearest to [num / den] (ties to even), for positive
    [num] and [den], with sign [neg]: the quotient is taken with at least 64
    bits and a sticky bit, then rounded once. *)
Definition nearest_float (neg : bool) (num den : Z) : float :=
  let k := Z.max 0 (64 + Z.log2 den - Z.log2 num) in
  let n := num * 2 ^ k in
  let m := 2 * (n / den) + (if n mod den =? 0 then 0 else 1) in
  binary_normalize prec emax (if neg then - m else m) (- k - 1) neg.

(** The binary64 number nearest to [(-1)^neg * n * 10^e]. *)
Definition decimal_float (neg : bool) (n e : Z) : float :=
  if n =? 0 then S754_zero neg
  else if 0 <=? e then nearest_float neg (n * 10 ^ e) 1
  else nearest_float neg n (10 ^ (- e)).

(** [float(z)] for an [int]. *)
Definition float_of_int (z : Z) : float :=
  decimal_float (z <? 0) (Z.abs z) 0.

(** [x * y] on floats. *)
Definition fmul (x y : float) : float := SFmul prec emax x y.

Definition exponent_of (cs : list ascii) : option (Z * list ascii) :=
  match cs with
  | c :: cs' =>
      if (Ascii.eqb c "e" || Ascii.eqb c "E")%bool then
        let '(neg, ds) := sign_of cs' in
        match digitpart 0 0 ds with
        | (n, S _, rest) => Some (if neg then - n else n, rest)
        | _ => None
        end
      else Some (0, cs)
  | [] => Some (0, [])
  end.

(** [float(s)] for a [str]: white space, sign, then [inf], [infinity], [nan]
    or a decimal number with optional fraction and exponent. *)
Definition parse_float (s : string) : option float :=
  let '(neg, cs) := sign_of (strip (chars s)) in
  let word := text (map lower_char cs) in
  if (String.eqb word "inf" || String.eqb word "infinity")%bool then Some (S754_infinity neg)
  else if String.eqb word "nan" then Some S754_nan
  else
    let '(ip, ni, rest) := digitpart 0 0 cs in
    let '(fp, nf, rest') :=
      match rest with
      | "."%char :: fs => digitpart ip 0 fs
      | _ => (ip, 0%nat, rest)
      end in
    match (ni + nf)%nat with
    | O => None
    | S _ =>
        match exponent_of rest' with
        | Some (e, []) => Some (decimal_float neg fp (e - Z.of_nat nf))
        | _ => None
        end
    end.

(** [n * 2^e] rounded to the nearest integer, ties to even. *)
Definition round_half_even (n e : Z) : Z :=
  if 0 <=? e then n * 2 ^ e
  else
    let d := 2 ^ (- e) in
    let q := n / d in
    let r := n mod d in
    if 2 * r <? d then q
    else if d <? 2 * r then q + 1
    else if Z.even q then q else q + 1.

Definition sign_text (neg : bool) : string := if neg then "-" else "".

(** A non-negative number of hundredths as [units.hh]. *)
Definition hundredths (c : Z) : string :=
  str_int (c / 100) ++ "." ++ format_0d 2 (c mod 100).

(** [format(x, ".2f")]: the exact value of [x] rounded to two decimals. *)
Definition format_2f (x : float) : string :=
  match x with
  | S754_nan => "nan"
  | S754_infinity neg => sign_text neg ++ "inf"
  | S754_zero neg => sign_text neg ++ "0.00"
  | S754_finite neg m e => sign_text neg ++ hundredths (round_half_even (Z.pos m * 100) e)
  end.

(** *** Comparing numbers *)

Inductive number : Type :=
| MinusInf
| Finite (m e : Z)
| PlusInf.

(** An [int] or a [float] that is not a NaN, as [m * 2^e]. *)
Definition number_of (v : value) : number :=
  match v with
  | PInt z => Finite z 0
  | PFloat (S754_finite neg m e) => Finite (if neg then Z.neg m else Z.pos m) e
  | PFloat (S754_infinity false) => PlusInf
  | PFloat (S754_infinity true) => MinusInf
  | PFloat (S754_zero _) => Finite 0 0
  | _ => MinusInf
  end.

Definition number_compare (a b : number) : comparison :=
  match a, b with
  | MinusInf, MinusInf => Eq
  | MinusInf, _ => Lt
  | _, MinusInf => Gt
  | PlusInf, PlusInf => Eq
  | PlusInf, _ => Gt
  | _, PlusInf => Lt
  | Finite m1 e1, Finite m2 e2 =>
      let e := Z.min e1 e2 in
      (m1 * 2 ^ (e1 - e) ?= m2 * 2 ^ (e2 - e))
  end.

Definition is_nan (v : value) : bool :=
  match v with
  | PFloat S754_nan => true
  | _ => false
  end.

(** [a == b]: text with text, numbers by their exact values, a NaN equal to
    nothing. *)
Definition value_eqb (a b : value) : bool :=
  match a, b with
  | PNone, PNone => true
  | PStr s, PStr t => String.eqb s t
  | (PInt _ | PFloat _), (PInt _ | PFloat _) =>
      negb (is_nan a) && negb (is_nan b) &&
      match number_compare (number_of a) (number_of b) with Eq => true | _ => false end
  | _, _ => false
  end.

(** [float(v)], as the machine number. *)
Definition to_float (v : value) : result float :=
  match v with
  | PStr s =>
      match parse_float s with
      | Some f => Ok f
      | None => Raise (ValueError "could not convert string to float")
      end
  | PFloat f => Ok f
  | PInt z =>
      match float_of_int z with
      | S754_infinity _ => Raise OverflowError
      | f => Ok f
      end
  | PNone => Raise (TypeError "float() argument must be a string or a real number")
  end.

(** [int(v)], as the integer. *)
Definition to_int (v : value) : result Z :=
  match v with
  | PStr s => parse_int s
  | PInt z => Ok z
  | PFloat (S754_finite neg m e) =>
      let a := if 0 <=? e then Z.pos m * 2 ^ e else Z.pos m / 2 ^ (- e) in
      Ok (if neg then - a else a)
  | PFloat (S754_zero _) => Ok 0
  | PFloat (S754_infinity _) => Raise OverflowError
  | PFloat S754_nan => Raise (ValueError "cannot convert float NaN to integer")
  | PNone => Raise (TypeError "int() argument must be a string or a real number")
  end.

(** The builtins [float] and [int] as functions from values to values. *)
Definition py_float (v : value) : result value := do f <- to_float v; Ok (PFloat f).
Definition py_int (v : value) : result value := do z <- to_int v; Ok (PInt z).

(** *** Dictionaries

    A [dict] keeps its keys in insertion order; assigning to a key that is
    present replaces its value in place. Keys are compared with [==]. *)
Class Key (K : Type) : Type := {
  key_eqb : K -> K -> bool;
  key_value : K -> value
}.

#[export] Instance string_key : Key string :=
  {| key_eqb := String.eqb; key_value := PStr |}.

#[export] Instance value_key : Key value :=
  {| key_eqb := value_eqb; key_value := fun v => v |}.

Definition dict (K V : Type) : Type := list (K * V).

Fixpoint dict_get {K V : Type} `{Key K} (k : K) (d : dict K V) : option V :=
  match d with
  | [] => None
  | (k', v) :: d' => if key_eqb k k' then Some v else dict_get k d'
  end.

Fixpoint dict_set {K V : Type} `{Key K} (k : K) (v : V) (d : dict K V) : dict K V :=
  match d with
  | [] => [(k, v)]
  | (k', v') :: d' => if key_eqb k k' then (k', v) :: d' else (k', v') :: dict_set k v d'
  end.

(** [d[k]]. *)
Definition dict_item {K V : Type} `{Key K} (k : K) (d : dict K V) : result V :=
  match dict_get k d with
  | Some v => Ok v
  | None => Raise (KeyError (key_value k))
  end.

(** [dict(zip(keys, vals))] added to [d]. *)
Fixpoint dict_zip {K V : Type} `{Key K} (keys : list K) (vals : list V) (d : dict K V) : dict K V :=
  match keys, vals with
  | k :: keys', v :: vals' => dict_zip keys' vals' (dict_set k v d)
  | _, _ => d
  end.

(** [seq[i]] for a list and an index inside [0, len). *)
Definition item {A : Type} (l : list A) (i : nat) : result A :=
  match l !! i with
  | Some x => Ok x
  | None => Raise IndexError
  end.

End Py.

(** ** [datetime]: calendar dates and day offsets *)
Module Datetime.

Record date : Type := Date { year : Z; month : Z; day : Z }.

Definition is_leap (y : Z) : bool :=
  (y mod 4 =? 0) && (negb (y mod 100 =? 0) || (y mod 400 =? 0)).

Definition days_in_month (y m : Z) : Z :=
  if m =? 2 then (if is_leap y then 29 else 28)
  else if (m =? 4) || (m =? 6) || (m =? 9) || (m =? 11) then 30
  else 31.

Definition tomorrow (d : date) : date :=
  if day d <? days_in_month (year d) (month d) then Date (year d) (month d) (day d + 1)
  else if month d <? 12 then Date (year d) (month d + 1) 1
  else Date (year d + 1) 1 1.

Definition yesterday (d : date) : date :=
  if 1 <? day d then Date (year d) (month d) (day d - 1)
  else if 1 <? month d then Date (year d) (month d - 1) (days_in_month (year d) (month d - 1))
  else Date (year d - 1) 12 31.

(** [d + timedelta(days=n)] (inside the years 1 to 9999, where Python does not
    raise). *)
Definition add_days (d : date) (n : Z) : date :=
  if 0 <=? n then Nat.iter (Z.to_nat n) tomorrow d
  else Nat.iter (Z.to_nat (- n)) yesterday d.

(** [d.isoformat()]. *)
Definition isoformat (d : date) : string :=
  Py.format_0d 4 (year d) ++ "-" ++ Py.format_0d 2 (month d) ++ "-" ++ Py.format_0d 2 (day d).

End Datetime.

(** ** [random.Random]: the Mersenne Twister MT19937 *)
Module Random.
Import Py.

Definition N : nat := 624.
Definition M : nat := 397.
Definition MATRIX_A : Z := 0x9908b0df.
Definition UPPER_MASK : Z := 0x80000000.
Definition LOWER_MASK : Z := 0x7fffffff.

(** Arithmetic on [uint32_t] wraps around. *)
Definition u32 (x : Z) : Z := Z.land x 0xffffffff.

Record rng : Type := Rng { mt : list Z; index : nat }.

(** [mt[i]]: every index the generator uses is below [N]. *)
Definition at_ (v : list Z) (i : nat) : Z := default 0 (v !! i).

Definition init_genrand (s : Z) : rng :=
  let step v i :=
    let p := at_ v (i - 1) in
    <[i := u32 (1812433253 * Z.lxor p (Z.shiftr p 30) + Z.of_nat i)]> v in
  Rng (fold_left step (seq 1 (N - 1)) (<[0%nat := u32 s]> (replicate N 0))) N.

(** When [i] reaches [N]: [mt[0] = mt[N-1]; i = 1]. *)
Definition wrap (vi : list Z * nat) : list Z * nat :=
  let '(v, i) := vi in
  if Nat.leb N i then (<[0%nat := at_ v (N - 1)]> v, 1%nat) else (v, i).

Definition init_by_array (init_key : list Z) : rng :=
  let key_length := length init_key in
  let mix c i v := let p := at_ v (i - 1) in Z.lxor (at_ v i) (Z.lxor p (Z.shiftr p 30) * c) in
  let first (st : list Z * nat * nat) (_ : nat) :=
    let '(v, i, j) := st in
    let v := <[i := u32 (mix 1664525 i v + at_ init_key j + Z.of_nat j)]> v in
    let '(v, i) := wrap (v, S i) in
    (v, i, if Nat.leb key_length (S j) then 0%nat else S j) in
  let second (st : list Z * nat) (_ : nat) :=
    let '(v, i) := st in
    wrap (<[i := u32 (mix 1566083941 i v - Z.of_nat i)]> v, S i) in
  let '(v, i, _) := fold_left first (seq 0 (Nat.max N key_length)) (mt (init_genrand 19650218), 1%nat, 0%nat) in
  let '(v, _) := fold_left second (seq 0 (N - 1)) (v, i) in
  Rng (<[0%nat := 0x80000000]> v) N.

(** The 32-bit words of [|a|], least significant first, at least one. *)
Fixpoint key_words (fuel : nat) (a : Z) : list Z :=
  match fuel with
  | O => []
  | S fuel' => u32 a :: (if Z.shiftr a 32 =? 0 then [] else key_words fuel' (Z.shiftr a 32))
  end.

(** [random.Random(a)] for an [int] seed. *)
Definition Random (a : Z) : rng :=
  init_by_array (key_words (S (Z.to_nat (Z.log2 (Z.abs a)))) (Z.abs a)).

(** Regenerate the [N] words of the state. *)
Definition twist (v : list Z) : list Z :=
  let mag01 y := if Z.testbit y 0 then MATRIX_A else 0 in
  let step v kk :=
    let y := Z.lor (Z.land (at_ v kk) UPPER_MASK) (Z.land (at_ v ((kk + 1) mod N)) LOWER_MASK) in
    <[kk := Z.lxor (Z.lxor (at_ v ((kk + M) mod N)) (Z.shiftr y 1)) (mag01 y)]> v in
  fold_left step (seq 0 N) v.

Definition genrand_uint32 (g : rng) : Z * rng :=
  let g := if Nat.leb N (index g) then Rng (twist (mt g)) 0 else g in
  let y := at_ (mt g) (index g) in
  let y := Z.lxor y (Z.shiftr y 11) in
  let y := Z.lxor y (Z.land (Z.shiftl y 7) 0x9d2c5680) in
  let y := Z.lxor y (Z.land (Z.shiftl y 15) 0xefc60000) in
  let y := Z.lxor y (Z.shiftr y 18) in
  (y, Rng (mt g) (S (index g))).

(** [k - 32 * i] bits of the [i]-th of [words] words, least significant first. *)
Fixpoint getrandbits_words (words : nat) (k : Z) (g : rng) : Z * rng :=
  match words with
  | O => (0, g)
  | S words' =>
      let '(r, g) := genrand_uint32 g in
      let r := if k <? 32 then Z.shiftr r (32 - k) else r in
      let '(hi, g) := getrandbits_words words' (k - 32) g in
      (Z.lor r (Z.shiftl hi 32), g)
  end.

Definition getrandbits (k : Z) (g : rng) : result (Z * rng) :=
  if k <? 0 then Raise (ValueError "number of bits must be non-negative")
  else if k =? 0 then Ok (0, g)
  else if k <=? 32 then let '(r, g) := genrand_uint32 g in Ok (Z.shiftr r (32 - k), g)
  else Ok (getrandbits_words (Z.to_nat ((k - 1) / 32 + 1)) k g).

(** [n.bit_length()]. *)
Definition bit_length (n : Z) : Z := if n =? 0 then 0 else Z.log2 (Z.abs n) + 1.

(** [_randbelow_with_getrandbits]: draw [k] bits until the draw is below [n]. *)
Fixpoint randbelow_loop (fuel : nat) (n k : Z) (g : rng) : result (Z * rng) :=
  match fuel with
  | O => Timeout
  | S fuel' =>
      do (r, g) <- getrandbits k g;
      if n <=? r then randbelow_loop fuel' n k g else Ok (r, g)
  end.

Definition randbelow (fuel : nat) (n : Z) (g : rng) : result (Z * rng) :=
  randbelow_loop fuel n (bit_length n) g.

(** [rng.randint(a, b)], that is [randrange(a, b + 1)]. *)
Definition randint (fuel : nat) (a b : Z) (g : rng) : result (Z * rng) :=
  let width := b + 1 - a in
  if 0 <? width then do (r, g) <- randbelow fuel width g; Ok (a + r, g)
  else Raise (ValueError "empty range for randrange()").

End Random.

(** ** The [csv] module with its default dialect

    Delimiter comma, the double quote as quote character (doubled inside a
    quoted field), minimal quoting, line terminator CR LF, not strict; the
    reader refuses a field of more than [field_size_limit] characters. *)
Module Csv.
Import Py.

Section Writer.

(** [repr] of a [float], which [csv.writer] applies to a float cell. It is
    left open: no script writes a float cell. *)
Variable float_repr : float -> string.

(** The text [csv.writer] writes for a cell. *)
Definition cell_text (v : value) : string :=
  match v with
  | PNone => ""
  | PStr s => s
  | PInt z => str_int z
  | PFloat f => float_repr f
  end.

Definition needs_quotes (c : ascii) : bool :=
  Ascii.eqb c ","%char || Ascii.eqb c quote_char || Ascii.eqb c cr || Ascii.eqb c lf.

Definition double_quotes (cs : list ascii) : list ascii :=
  flat_map (fun c => if Ascii.eqb c quote_char then [quote_char; quote_char] else [c]) cs.

Definition quoted (cs : list ascii) : list ascii :=
  quote_char :: double_quotes cs ++ [quote_char].

Definition write_field (s : string) : list ascii :=
  let cs := chars s in
  if existsb needs_quotes cs then quoted cs else cs.

Fixpoint join_fields (fields : list string) : list ascii :=
  match fields with
  | [] => []
  | [f] => write_field f
  | f :: fs => write_field f ++ ","%char :: join_fields fs
  end.

(** [writer.writerow(fields)]: the line appended to the file. A record of one
    empty field is written as an empty quoted field. *)
Definition writerow (fields : list value) : string :=
  let line := join_fields (map cell_text fields) in
  let line := match fields, line with
              | _ :: _, [] => quoted []
              | _, _ => line
              end in
  text (line ++ [cr; lf]).

(** [DictWriter._dict_to_list]: a key outside [fieldnames] is refused, a
    missing one is written as the empty [restval]. *)
Definition dict_to_list (fieldnames : list string) (rowdict : dict string value) : result (list value) :=
  if forallb (fun kv => existsb (String.eqb (fst kv)) fieldnames) rowdict
  then Ok (map (fun key => default (PStr "") (dict_get key rowdict)) fieldnames)
  else Raise (ValueError "dict contains fields not in fieldnames").

(** [DictWriter.writeheader()]. *)
Definition writeheader (fieldnames : list string) : string :=
  writerow (map PStr fieldnames).

(** [DictWriter.writerows(rows)] after the text [out] already written: rows
    are written one by one, so the rows before a refused one stay written. *)
Fixpoint writerows (fieldnames : list string) (rows : list (dict string value)) (out : string)
  : string * result unit :=
  match rows with
  | [] => (out, Ok tt)
  | r :: rows' =>
      match dict_to_list fieldnames r with
      | Ok fields => writerows fieldnames rows' (out ++ writerow fields)
      | Raise e => (out, Raise e)
      | Timeout => (out, Timeout)
      end
  end.

End Writer.

(** *** Reading *)

(** The lines of a file opened with [newline=""]: a line ends after LF, CR
    or CR LF, and keeps its ending. *)
Fixpoint lines_from (cur : list ascii) (cs : list ascii) : list (list ascii) :=
  match cs with
  | [] => match cur with [] => [] | _ => [rev cur] end
  | c :: cs' =>
      if Ascii.eqb c lf then rev (c :: cur) :: lines_from [] cs'
      else if Ascii.eqb c cr then
        match cs' with
        | c' :: cs'' =>
            if Ascii.eqb c' lf then rev (c' :: c :: cur) :: lines_from [] cs''
            else rev (c :: cur) :: lines_from [] cs'
        | [] => [rev (c :: cur)]
        end
      else lines_from (c :: cur) cs'
  end.

Definition readlines (content : string) : list (list ascii) := lines_from [] (chars content).

Inductive parser_state : Type :=
| START_RECORD
| START_FIELD
| IN_FIELD
| IN_QUOTED_FIELD
| QUOTE_IN_QUOTED_FIELD
| EAT_CRNL.

(** The reader between two characters: its state, the fields saved for the
    record so far (last first) and the field being read (last character
    first). *)
Record parser : Type := Parser {
  state : parser_state;
  fields : list string;
  field : list ascii
}.

Definition parse_reset : parser := Parser START_RECORD [] [].

Definition parse_save_field (p : parser) (next : parser_state) : parser :=
  Parser next (text (rev (field p)) :: fields p) [].

(** [csv.field_size_limit()]: the most characters a field may hold. *)
Definition field_size_limit : Z := 131072.

(** A character is added to the field being read, unless the field is
    full. *)
Definition parse_add_char (p : parser) (c : ascii) (next : parser_state) : result parser :=
  if field_size_limit <=? Z.of_nat (length (field p))
  then Raise (CsvError "field larger than field limit (131072)")
  else Ok (Parser next (fields p) (c :: field p)).

Definition goto (p : parser) (next : parser_state) : parser :=
  Parser next (fields p) (field p).

Definition is_newline (c : ascii) : bool := Ascii.eqb c lf || Ascii.eqb c cr.

Definition start_field (p : parser) (c : ascii) : result parser :=
  if is_newline c then Ok (parse_save_field p EAT_CRNL)
  else if Ascii.eqb c quote_char then Ok (goto p IN_QUOTED_FIELD)
  else if Ascii.eqb c ","%char then Ok (parse_save_field p START_FIELD)
  else parse_add_char p c IN_FIELD.

(** [parse_process_char] for a character of the line. *)
Definition parse_process_char (p : parser) (c : ascii) : result parser :=
  match state p with
  | START_RECORD =>
      if is_newline c then Ok (goto p EAT_CRNL) else start_field p c
  | START_FIELD => start_field p c
  | IN_FIELD =>
      if is_newline c then Ok (parse_save_field p EAT_CRNL)
      else if Ascii.eqb c ","%char then Ok (parse_save_field p START_FIELD)
      else parse_add_char p c IN_FIELD
  | IN_QUOTED_FIELD =>
      if Ascii.eqb c quote_char then Ok (goto p QUOTE_IN_QUOTED_FIELD)
      else parse_add_char p c IN_QUOTED_FIELD
  | QUOTE_IN_QUOTED_FIELD =>
      if Ascii.eqb c quote_char then parse_add_char p c IN_QUOTED_FIELD
      else if Ascii.eqb c ","%char then Ok (parse_save_field p START_FIELD)
      else if is_newline c then Ok (parse_save_field p EAT_CRNL)
      else parse_add_char p c IN_FIELD
  | EAT_CRNL =>
      if is_newline c then Ok p
      else Raise (CsvError "new-line character seen in unquoted field")
  end.

(** [parse_process_char] at the end of the line. *)
Definition parse_process_eol (p : parser) : parser :=
  match state p with
  | START_RECORD => p
  | START_FIELD | IN_FIELD | QUOTE_IN_QUOTED_FIELD => parse_save_field p START_RECORD
  | IN_QUOTED_FIELD => p
  | EAT_CRNL => goto p START_RECORD
  end.

Fixpoint parse_line (p : parser) (line : list ascii) : result parser :=
  match line with
  | [] => Ok (parse_process_eol p)
  | c :: line' => do p <- parse_process_char p c; parse_line p line'
  end.

(** One call of the reader's [__next__]: lines are consumed until a record is
    complete. [None] is [StopIteration]. *)
Fixpoint next_record (p : parser) (lines : list (list ascii))
  : result (option (list string * list (list ascii))) :=
  match lines with
  | [] =>
      match field p, state p with
      | _ :: _, _ | _, IN_QUOTED_FIELD => Ok (Some (rev (fields (parse_save_field p START_RECORD)), []))
      | _, _ => Ok None
      end
  | line :: lines' =>
      do p <- parse_line p line;
      match state p with
      | START_RECORD => Ok (Some (rev (fields p), lines'))
      | _ => next_record p lines'
      end
  end.

(** All the records of [csv.reader(file)]. Every call consumes a line, so
    the number of lines is fuel enough. *)
Fixpoint records (fuel : nat) (lines : list (list ascii)) : result (list (list string)) :=
  match fuel with
  | O => Ok []
  | S fuel' =>
      do r <- next_record parse_reset lines;
      match r with
      | None => Ok []
      | Some (rec, lines') => do recs <- records fuel' lines'; Ok (rec :: recs)
      end
  end.

Definition reader (content : string) : result (list (list string)) :=
  let lines := readlines content in
  records (length lines) lines.

(** A row of [csv.DictReader]: the cells under the header's names, each a
    [str] or the [restval] [None], and, under the [restkey] [None], the
    fields beyond the header when the record is longer than the header. *)
Record row : Type := Row {
  named : dict string value;
  rest : option (list string)
}.

(** The dictionary [DictReader.__next__] builds from one record. *)
Definition dict_row (fieldnames : list string) (rec : list string) : row :=
  let d := dict_zip fieldnames (map PStr rec) [] in
  let lf := length fieldnames in
  let lr := length rec in
  if Nat.ltb lf lr then Row d (Some (drop lf rec))
  else Row (fold_left (fun d key => dict_set key PNone d) (drop lr fieldnames) d) None.

(** The rows of [csv.DictReader(file)]: the first record is the header, empty
    records are skipped. *)
Definition DictReader (content : string) : result (list row) :=
  do recs <- reader content;
  match recs with
  | [] => Ok []
  | fieldnames :: recs' =>
      Ok (map (dict_row fieldnames)
            (List.filter (fun rec => match rec with [] => false | _ => true end) recs'))
  end.

End Csv.

(** ** The fragment of SQLite (through the [sqlite3] module) the scripts use

    Tables with declared column types, [PRIMARY KEY], [NOT NULL] and
    [FOREIGN KEY] constraints; [PRAGMA foreign_keys], [DROP TABLE IF EXISTS],
    [CREATE TABLE], [INSERT] and transactions. A stored value is written as
    the Python value the [sqlite3] module maps it to: [NULL] is [None],
    [INTEGER] an [int], [REAL] a [float], [TEXT] a [str]. Values are stored as
    bound: the loader binds to every column a value of the column's declared
    type, which column affinity leaves as it is, a minus zero apart, which a
    REAL column gives back as zero. A database file holds tables: views,
    indexes and triggers are outside the fragment, and with them the
    failures of [DROP TABLE] and [CREATE TABLE] on a name one of them
    holds. *)
Module Sqlite.
Import Py.

Inductive affinity : Type := TEXT | INTEGER | REAL.

Record column : Type := Column {
  col_name : string;
  col_type : affinity;
  primary_key : bool;
  not_null : bool
}.

Record foreign_key : Type := ForeignKey {
  fk_column : string;
  ref_table : string;
  ref_column : string
}.

(** A [CREATE TABLE] statement, parsed. *)
Record schema : Type := Schema {
  sch_name : string;
  sch_columns : list column;
  sch_fks : list foreign_key
}.

(** A table: its schema and its rows in insertion order, every row with one
    cell per column of the schema. *)
Record table : Type := Table {
  tbl_schema : schema;
  tbl_rows : list (list value)
}.

Abbreviation database := (gmap string table).

Inductive statement : Type :=
| PRAGMA_foreign_keys (on : bool)
| DROP_TABLE_IF_EXISTS (name : string)
| CREATE_TABLE (s : schema)
| INSERT_INTO (name : string) (columns : list string) (params : list value)
| BEGIN
| COMMIT
| ROLLBACK.

(** A connection: the tables as this connection sees them, the state to
    return to on rollback while a transaction is open, whether foreign keys
    are enforced, and the statements run so far, oldest first, each with the
    enforcement in force when it ran. *)
Record connection : Type := Connection {
  tables : database;
  rollback_to : option database;
  foreign_keys : bool;
  trace : list (statement * bool)
}.

(** [sqlite3.connect(path)]: a file that is absent is created empty; foreign
    keys are not enforced until asked for. *)
Definition connect (file : option database) : connection :=
  Connection (default ∅ file) None false [].

Definition logged (st : statement) (c : connection) : connection :=
  Connection (tables c) (rollback_to c) (foreign_keys c) (trace c ++ [(st, foreign_keys c)]).

Definition with_tables (d : database) (c : connection) : connection :=
  Connection d (rollback_to c) (foreign_keys c) (trace c).

(** [PRAGMA foreign_keys = on]: without effect inside a transaction. *)
Definition pragma_foreign_keys (on : bool) (c : connection) : connection :=
  let c := logged (PRAGMA_foreign_keys on) c in
  match rollback_to c with
  | Some _ => c
  | None => Connection (tables c) None on (trace c)
  end.

(** [conn.commit()]. *)
Definition commit (c : connection) : connection :=
  match rollback_to c with
  | Some _ => Connection (tables c) None (foreign_keys c) (trace c ++ [(COMMIT, foreign_keys c)])
  | None => c
  end.

(** [conn.rollback()]. *)
Definition rollback (c : connection) : connection :=
  match rollback_to c with
  | Some d => Connection d None (foreign_keys c) (trace c ++ [(ROLLBACK, foreign_keys c)])
  | None => c
  end.

(** The implicit [BEGIN] before a data-changing statement. *)
Definition begin (c : connection) : connection :=
  match rollback_to c with
  | Some _ => c
  | None => Connection (tables c) (Some (tables c)) (foreign_keys c) (trace c ++ [(BEGIN, foreign_keys c)])
  end.

(** *** Comparing stored values: [NULL], then numbers, then text

    A NaN is never stored: it is bound as [NULL]. *)

Definition compare_values (a b : value) : comparison :=
  match a, b with
  | PNone, PNone => Eq
  | PNone, _ => Lt
  | _, PNone => Gt
  | PStr s, PStr t => String.compare s t
  | PStr _, _ => Gt
  | _, PStr _ => Lt
  | _, _ => number_compare (number_of a) (number_of b)
  end.

(** [a = b] in SQL: never true when either side is [NULL]. *)
Definition sql_eq (a b : value) : bool :=
  match a, b with
  | PNone, _ | _, PNone => false
  | _, _ => match compare_values a b with Eq => true | _ => false end
  end.

(** *** Rows and columns *)

Fixpoint index_of (name : string) (names : list string) : option nat :=
  match names with
  | [] => None
  | n :: names' => if String.eqb name n then Some O else option_map S (index_of name names')
  end.

Definition column_names (s : schema) : list string := map col_name (sch_columns s).

(** The position of column [name] in the rows of a table. *)
Definition column_index (s : schema) (name : string) : result nat :=
  match index_of name (column_names s) with
  | Some i => Ok i
  | None => Raise (OperationalError ("no such column: " ++ name))
  end.

(** The cell of a row at a column position. *)
Definition cell (i : nat) (row : list value) : value := default PNone (row !! i).

Definition get_table (name : string) (d : database) : result table :=
  match d !! name with
  | Some t => Ok t
  | None => Raise (OperationalError ("no such table: " ++ name))
  end.

(** *** Statements *)

(** Does some row of some table refer, through a foreign key, to a row of
    table [name]? Then dropping [name] under enforcement is refused. *)
Definition referenced_rows (name : string) (pt : table) (d : database) : bool :=
  existsb (fun '(_, ct) =>
    existsb (fun fk =>
      String.eqb (ref_table fk) name &&
      match index_of (fk_column fk) (column_names (tbl_schema ct)),
            index_of (ref_column fk) (column_names (tbl_schema pt)) with
      | Some i, Some j =>
          existsb (fun crow => existsb (fun prow => sql_eq (cell j prow) (cell i crow)) (tbl_rows pt))
                  (tbl_rows ct)
      | _, _ => false
      end) (sch_fks (tbl_schema ct))) (map_to_list d).

Definition drop_table_if_exists (name : string) : action connection unit :=
  exec update (logged (DROP_TABLE_IF_EXISTS name));
  fun c =>
    match tables c !! name with
    | None => (Ok tt, c)
    | Some t =>
        if foreign_keys c && referenced_rows name t (delete name (tables c))
        then (Raise (IntegrityError "FOREIGN KEY constraint failed"), c)
        else (Ok tt, with_tables (delete name (tables c)) c)
    end.

Definition create_table (s : schema) : action connection unit :=
  exec update (logged (CREATE_TABLE s));
  fun c =>
    match tables c !! sch_name s with
    | Some _ => (Raise (OperationalError ("table " ++ sch_name s ++ " already exists")), c)
    | None => (Ok tt, with_tables (<[sch_name s := Table s []]> (tables c)) c)
    end.

(** [cursor.executescript] of a list of [CREATE TABLE] statements: a pending
    transaction is committed first, the statements run in order, and the
    first failure stops the script. *)
Definition executescript (script : list schema) : action connection unit :=
  exec update commit;
  for_each script create_table.

(** Binding a Python value to a parameter: an integer must fit 64 bits, a
    NaN is stored as [NULL]. *)
Definition bind_value (v : value) : result value :=
  match v with
  | PInt z => if (- 2 ^ 63 <=? z) && (z <? 2 ^ 63) then Ok v else Raise OverflowError
  | PFloat S754_nan => Ok PNone
  | _ => Ok v
  end.

(** What must hold of the statement itself, before any row: the table and
    the named columns exist and, under enforcement, so do the tables and
    columns its foreign keys point to. *)
Definition prepare_insert (name : string) (columns : list string) (c : connection) : result table :=
  do t <- get_table name (tables c);
  do _ <- mapM (column_index (tbl_schema t)) columns;
  do _ <- (if foreign_keys c then
             mapM (fun fk => do pt <- get_table (ref_table fk) (tables c);
                             column_index (tbl_schema pt) (ref_column fk))
                  (sch_fks (tbl_schema t))
           else Ok []);
  Ok t.

(** The row an [INSERT] with a column list stores: a column that is not
    listed gets [NULL]. *)
Definition new_row (s : schema) (columns : list string) (params : list value) : list value :=
  map (fun col => match index_of (col_name col) columns with
                  | Some i => cell i params
                  | None => PNone
                  end) (sch_columns s).

Definition not_null_ok (s : schema) (row : list value) : bool :=
  forallb (fun '(col, v) => negb (not_null col) || negb (is_none v))
          (zip (sch_columns s) row).

(** A primary key is unique among the keys that are not [NULL]. *)
Definition primary_key_ok (t : table) (row : list value) : bool :=
  forallb (fun '(i, col) =>
    negb (primary_key col) ||
    negb (existsb (fun old => sql_eq (cell i old) (cell i row)) (tbl_rows t)))
    (imap (fun i col => (i, col)) (sch_columns (tbl_schema t))).

(** Every foreign key of the row that is not [NULL] has its parent row. *)
Definition foreign_keys_ok (d : database) (s : schema) (row : list value) : bool :=
  forallb (fun fk =>
    match index_of (fk_column fk) (column_names s), d !! ref_table fk with
    | Some i, Some pt =>
        is_none (cell i row) ||
        match index_of (ref_column fk) (column_names (tbl_schema pt)) with
        | Some j => existsb (fun prow => sql_eq (cell j prow) (cell i row)) (tbl_rows pt)
        | None => false
        end
    | None, _ => true
    | _, None => false
    end) (sch_fks s).

(** One [INSERT INTO name (columns) VALUES (?, ...)] with its parameters. *)
Definition insert_row (name : string) (columns : list string) (params : list value)
  : action connection unit :=
  run bound <- lift (mapM bind_value params);
  exec update (logged (INSERT_INTO name columns bound));
  fun c =>
    match tables c !! name with
    | None => (Raise (OperationalError ("no such table: " ++ name)), c)
    | Some t =>
        let row := new_row (tbl_schema t) columns bound in
        if negb (not_null_ok (tbl_schema t) row) then
          (Raise (IntegrityError "NOT NULL constraint failed"), c)
        else if negb (primary_key_ok t row) then
          (Raise (IntegrityError "UNIQUE constraint failed"), c)
        else if foreign_keys c && negb (foreign_keys_ok (tables c) (tbl_schema t) row) then
          (Raise (IntegrityError "FOREIGN KEY constraint failed"), c)
        else
          (Ok tt, with_tables (<[name := Table (tbl_schema t) (tbl_rows t ++ [row])]> (tables c)) c)
    end.

(** [conn.executemany] of an [INSERT] over a list of parameter rows: the
    statement is prepared, a transaction is opened unless one is open, and
    the rows are inserted in order up to the first that fails. *)
Definition executemany_insert (name : string) (columns : list string) (data : list (list value))
  : action connection unit :=
  run _ <- (fun c => (prepare_insert name columns c, c));
  exec update begin;
  for_each data (insert_row name columns).

End Sqlite.

(** ** What the three scripts share: the repository's directory *)
Module Os.

(** The files the scripts touch under the repository root [ROOT_DIR]: the
    directory [data] with its files by name, the database file [ecom.db], the
    directory [output] with its files by name, each absent ([None]) or
    present; the lines printed so far; and, as a record of what happened, the
    statements run against the database so far. *)
Record world : Type := World {
  root_dir : string;
  data_dir : option (gmap string string);
  db_file : option Sqlite.database;
  output_dir : option (gmap string string);
  stdout : list string;
  history : list (Sqlite.statement * bool)
}.

(** [str(ROOT_DIR / name)]. *)
Definition path (w : world) (name : string) : string :=
  if String.eqb (root_dir w) "/" then "/" ++ name else root_dir w ++ "/" ++ name.

Definition print (line : string) (w : world) : world :=
  World (root_dir w) (data_dir w) (db_file w) (output_dir w) (stdout w ++ [line]) (history w).

Definition set_data_dir (files : gmap string string) (w : world) : world :=
  World (root_dir w) (Some files) (db_file w) (output_dir w) (stdout w) (history w).

Definition set_output_dir (files : gmap string string) (w : world) : world :=
  World (root_dir w) (data_dir w) (db_file w) (Some files) (stdout w) (history w).

(** A connection is closed: the database file holds its tables, and the
    statements it ran are added to the record. *)
Definition close (c : Sqlite.connection) (w : world) : world :=
  World (root_dir w) (data_dir w) (Some (Sqlite.tables c)) (output_dir w) (stdout w)
        (history w ++ Sqlite.trace c).

(** [dir.mkdir(parents=True, exist_ok=True)]. *)
Definition mkdir (dir : option (gmap string string)) : gmap string string := default ∅ dir.

End Os.

(** ** [script/generate_ecommerce_data.py] *)
Module Generator.
Import Py Os.

Definition row : Type := dict string value.

Definition names : list string :=
  [ "Ava Patel"; "Noah Smith"; "Liam Chen"; "Emma Lopez"; "Mia Davis";
    "Elijah Lee"; "Isabella Brown"; "Sophia Wilson"; "James Garcia";
    "Lucas Nguyen"; "Amelia Clark"; "Harper Miller"; "Ethan Hernandez";
    "Oliver Johnson"; "Charlotte Martinez" ].

Definition tiers : list string := ["Bronze"; "Silver"; "Gold"].

(** [range(n)]. *)
Definition range (n : nat) : list nat := seq 0 n.

(** [f"{prefix}{n:03d}"]. *)
Definition make_id (prefix : string) (n : nat) : string :=
  prefix ++ format_0d 3 (Z.of_nat n).

(** [(base_date + timedelta(days=n)).date().isoformat()]. *)
Definition date_after (base_date : Datetime.date) (n : nat) : string :=
  Datetime.isoformat (Datetime.add_days base_date (Z.of_nat n)).

Definition generate_users : result (list row) :=
  let base_date := Datetime.Date 2024 1 1 in
  mapM (fun idx =>
    do name <- item names idx;
    let user_id := make_id "U" (idx + 1) in
    let email := replace " " "." (lower name) ++ "@shopperhub.com" in
    let join_date := date_after base_date (idx * 3) in
    do tier <- item tiers (idx mod length tiers);
    Ok [ ("user_id", PStr user_id);
         ("name", PStr name);
         ("email", PStr email);
         ("join_date", PStr join_date);
         ("loyalty_tier", PStr tier) ]) (range 15).

(** The product fixtures: name, category and price; the price is the float
    nearest to the decimal written in the source. *)
Definition categories : list (string * string * float) :=
  let price (hundredths : Z) := decimal_float false hundredths (-2) in
  [ ("Smartwatch", "Wearables", price 14999);
    ("Noise Cancelling Headphones", "Audio", price 19950);
    ("4K Monitor", "Displays", price 32900);
    ("Mechanical Keyboard", "Peripherals", price 11900);
    ("Gaming Mouse", "Peripherals", price 5900);
    ("Wireless Charger", "Accessories", price 3999);
    ("Portable SSD", "Storage", price 10950);
    ("Bluetooth Speaker", "Audio", price 8900);
    ("Fitness Tracker", "Wearables", price 9900);
    ("Smart Home Hub", "Smart Home", price 12900);
    ("Action Camera", "Cameras", price 24900);
    ("Drone Mini", "Cameras", price 39900);
    ("E-reader", "Tablets", price 13900);
    ("USB-C Hub", "Accessories", price 4950);
    ("Noise Sensor", "Smart Home", price 7900) ].

Definition generate_products : list row :=
  imap (fun i '(name, category, price) =>
    let idx := S i in
    [ ("product_id", PStr (make_id "P" idx));
      ("name", PStr name);
      ("category", PStr category);
      ("price", PStr (format_2f price));
      ("in_stock", PInt (50 + Z.of_nat idx * 3)) ]) categories.

(** [quantity * price] for an [int] and a [float]. *)
Definition int_times_float (q : Z) (x : float) : result float :=
  match float_of_int q with
  | S754_infinity _ => Raise OverflowError
  | fq => Ok (fmul fq x)
  end.

(** [{p["product_id"]: float(p["price"]) for p in products}]. *)
Fixpoint price_lookup_of (products : list row) (acc : dict value float) : result (dict value float) :=
  match products with
  | [] => Ok acc
  | p :: products' =>
      do product_id <- dict_item "product_id" p;
      do price <- dict_item "price" p;
      do x <- to_float price;
      price_lookup_of products' (dict_set product_id x acc)
  end.

Definition order_statuses : list string := ["Processing"; "Shipped"; "Delivered"].

(** The dictionary appended for [idx] once the quantity is drawn. *)
Definition make_order (idx : nat) (user product : row) (quantity : Z)
    (price_lookup : dict value float) : result row :=
  let order_date := date_after (Datetime.Date 2024 2 1) idx in
  do status <- item order_statuses (idx mod length order_statuses);
  do user_id <- dict_item "user_id" user;
  do product_id <- dict_item "product_id" product;
  do price <- dict_item product_id price_lookup;
  do total <- int_times_float quantity price;
  Ok [ ("order_id", PStr (make_id "O" (idx + 1)));
       ("user_id", user_id);
       ("product_id", product_id);
       ("quantity", PInt quantity);
       ("order_date", PStr order_date);
       ("status", PStr status);
       ("order_total", PStr (format_2f total)) ].

(** The loop of [generate_orders] over the indices [idxs], threading the
    generator's state and the orders appended so far. *)
Fixpoint orders_loop (fuel : nat) (users products : list row) (price_lookup : dict value float)
    (idxs : list nat) (rng : Random.rng) (orders : list row) : result (list row) :=
  match idxs with
  | [] => Ok orders
  | idx :: idxs' =>
      do user <- item users idx;
      do product <- item products idx;
      do (quantity, rng) <- Random.randint fuel 1 4 rng;
      do order <- make_order idx user product quantity price_lookup;
      orders_loop fuel users products price_lookup idxs' rng (orders ++ [order])
  end.

Definition generate_orders (fuel : nat) (users products : list row) : result (list row) :=
  let rng := Random.Random 42 in
  do price_lookup <- price_lookup_of products [];
  orders_loop fuel users products price_lookup (range 15) rng [].

Definition comments : list string :=
  [ "Great value for the price.";
    "Fast shipping and solid quality.";
    "Met my expectations.";
    "Would definitely recommend.";
    "Packaging could be better, product works fine." ].

(** The dictionary appended for the [idx]-th order once the rating is
    drawn. *)
Definition make_review (idx : nat) (order_id : value) (rating : Z) : result row :=
  do comment <- item comments (idx mod length comments);
  Ok [ ("review_id", PStr (make_id "R" (idx + 1)));
       ("order_id", order_id);
       ("rating", PInt rating);
       ("comment", PStr comment);
       ("review_date", PStr (date_after (Datetime.Date 2024 3 1) idx)) ].

(** The loop of [generate_reviews] over [enumerate(orders)] from [idx] on. *)
Fixpoint reviews_loop (fuel : nat) (idx : nat) (orders : list row) (rng : Random.rng)
    (reviews : list row) : result (list row) :=
  match orders with
  | [] => Ok reviews
  | order :: orders' =>
      do order_id <- dict_item "order_id" order;
      do (rating, rng) <- Random.randint fuel 3 5 rng;
      do review <- make_review idx order_id rating;
      reviews_loop fuel (S idx) orders' rng (reviews ++ [review])
  end.

Definition generate_reviews (fuel : nat) (orders : list row) : result (list row) :=
  reviews_loop fuel 0 orders (Random.Random 7) [].

Definition methods : list string := ["Credit Card"; "PayPal"; "Gift Card"].
Definition payment_statuses : list string := ["Completed"; "Completed"; "Pending"].

(** The dictionary appended for the [idx]-th order. *)
Definition make_payment (idx : nat) (order : row) : result row :=
  do order_id <- dict_item "order_id" order;
  do amount <- dict_item "order_total" order;
  do method <- item methods (idx mod length methods);
  do status <- item payment_statuses (idx mod length payment_statuses);
  Ok [ ("payment_id", PStr (make_id "PM" (idx + 1)));
       ("order_id", order_id);
       ("amount", amount);
       ("method", PStr method);
       ("payment_status", PStr status) ].

(** The loop of [generate_payments] over [enumerate(orders)] from [idx] on. *)
Fixpoint payments_loop (idx : nat) (orders : list row) : result (list row) :=
  match orders with
  | [] => Ok []
  | order :: orders' =>
      do payment <- make_payment idx order;
      do payments <- payments_loop (S idx) orders';
      Ok (payment :: payments)
  end.

Definition generate_payments (orders : list row) : result (list row) :=
  payments_loop 0 orders.

Definition users_fields : list string := ["user_id"; "name"; "email"; "join_date"; "loyalty_tier"].
Definition products_fields : list string := ["product_id"; "name"; "category"; "price"; "in_stock"].
Definition orders_fields : list string :=
  ["order_id"; "user_id"; "product_id"; "quantity"; "order_date"; "status"; "order_total"].
Definition reviews_fields : list string := ["review_id"; "order_id"; "rating"; "comment"; "review_date"].
Definition payments_fields : list string := ["payment_id"; "order_id"; "amount"; "method"; "payment_status"].

Section Writing.

Variable float_repr : float -> string.

(** [write_csv]: the file is opened for writing, which empties it, then the
    header and the rows are written. *)
Definition write_csv (filename : string) (fieldnames : list string) (rows : list row)
  : action world unit := fun w =>
  match data_dir w with
  | None => (Raise (FileNotFoundError (path w "data" ++ "/" ++ filename)), w)
  | Some files =>
      let '(out, r) := Csv.writerows float_repr fieldnames rows (Csv.writeheader float_repr fieldnames) in
      (r, set_data_dir (<[filename := out]> files) w)
  end.

Definition main (fuel : nat) : action world unit :=
  run users <- lift generate_users;
  let products := generate_products in
  run orders <- lift (generate_orders fuel users products);
  run reviews <- lift (generate_reviews fuel orders);
  run payments <- lift (generate_payments orders);
  exec write_csv "users.csv" users_fields users;
  exec write_csv "products.csv" products_fields products;
  exec write_csv "orders.csv" orders_fields orders;
  exec write_csv "reviews.csv" reviews_fields reviews;
  exec write_csv "payments.csv" payments_fields payments;
  fun w => (Ok tt, print ("Generated CSV files in " ++ path w "data") w).

(** The script run as a program: the module creates [DATA_DIR] when it is
    absent, then [main] runs. *)
Definition script (fuel : nat) : action world unit :=
  exec update (fun w => set_data_dir (mkdir (data_dir w)) w);
  main fuel.

End Writing.

End Generator.

(** ** [script/load_csv_to_sqlite.py] *)
Module Loader.
Import Py Os Sqlite.

(** An entry of [TABLE_CONFIG]: the table's name, its CSV file, its columns
    and its [CREATE TABLE] statement. *)
Record config : Type := Config {
  name : string;
  csv : string;
  columns : list string;
  schema_of : schema
}.

Definition text_key (n : string) : column := Column n TEXT true false.
Definition text_col (n : string) : column := Column n TEXT false true.
Definition integer_col (n : string) : column := Column n INTEGER false true.
Definition real_col (n : string) : column := Column n REAL false true.

Definition users_schema : schema :=
  Schema "users"
    [ text_key "user_id"; text_col "name"; text_col "email";
      text_col "join_date"; text_col "loyalty_tier" ]
    [].

Definition products_schema : schema :=
  Schema "products"
    [ text_key "product_id"; text_col "name"; text_col "category";
      real_col "price"; integer_col "in_stock" ]
    [].

Definition orders_schema : schema :=
  Schema "orders"
    [ text_key "order_id"; text_col "user_id"; text_col "product_id";
      integer_col "quantity"; text_col "order_date"; text_col "status";
      real_col "order_total" ]
    [ ForeignKey "user_id" "users" "user_id";
      ForeignKey "product_id" "products" "product_id" ].

Definition reviews_schema : schema :=
  Schema "reviews"
    [ text_key "review_id"; text_col "order_id"; integer_col "rating";
      text_col "comment"; text_col "review_date" ]
    [ ForeignKey "order_id" "orders" "order_id" ].

Definition payments_schema : schema :=
  Schema "payments"
    [ text_key "payment_id"; text_col "order_id"; real_col "amount";
      text_col "method"; text_col "payment_status" ]
    [ ForeignKey "order_id" "orders" "order_id" ].

Definition TABLE_CONFIG : list config :=
  [ Config "users" "users.csv"
      ["user_id"; "name"; "email"; "join_date"; "loyalty_tier"]
      users_schema;
    Config "products" "products.csv"
      ["product_id"; "name"; "category"; "price"; "in_stock"]
      products_schema;
    Config "orders" "orders.csv"
      ["order_id"; "user_id"; "product_id"; "quantity"; "order_date"; "status"; "order_total"]
      orders_schema;
    Config "reviews" "reviews.csv"
      ["review_id"; "order_id"; "rating"; "comment"; "review_date"]
      reviews_schema;
    Config "payments" "payments.csv"
      ["payment_id"; "order_id"; "amount"; "method"; "payment_status"]
      payments_schema ].

Definition FIELD_CONVERTERS : gmap string (value -> result value) :=
  list_to_map
    [ ("price", py_float);
      ("in_stock", py_int);
      ("quantity", py_int);
      ("order_total", py_float);
      ("rating", py_int);
      ("amount", py_float) ].

(** [converter(value) if converter else value] for the cell under [key]. *)
Definition convert (key : string) (v : value) : result value :=
  match FIELD_CONVERTERS !! key with
  | Some converter => converter v
  | None => Ok v
  end.

(** The dictionary [processed] built from a row of the reader. The surplus
    fields under the key [None] have no converter and are kept. *)
Definition process (r : Csv.row) : result Csv.row :=
  do cells <- mapM (fun '(key, v) => do v' <- convert key v; Ok (key, v')) (Csv.named r);
  Ok (Csv.Row cells (Csv.rest r)).

Definition load_csv (filename : string) (w : world) : result (list Csv.row) :=
  match data_dir w ≫= (fun files => files !! filename) with
  | None => Raise (FileNotFoundError ("Missing CSV file: " ++ path w "data" ++ "/" ++ filename))
  | Some content =>
      do rows <- Csv.DictReader content;
      mapM process rows
  end.

Definition reset_tables : action connection unit :=
  exec update (pragma_foreign_keys false);
  exec for_each (rev (map name TABLE_CONFIG)) drop_table_if_exists;
  exec update commit;
  exec update (pragma_foreign_keys true);
  exec executescript (map schema_of TABLE_CONFIG);
  update commit.

Definition insert_rows (table : string) (columns : list string) (rows : list Csv.row)
  : action connection unit :=
  run data <- lift (mapM (fun r => mapM (fun col => dict_item col (Csv.named r)) columns) rows);
  exec executemany_insert table columns data;
  update commit.

(** A step on the world, taken while a connection is open. *)
Definition in_world {A : Type} (m : action world A) : action (world * connection) A :=
  fun '(w, c) => let '(r, w') := m w in (r, (w', c)).

(** A step on the open connection. *)
Definition in_conn {A : Type} (m : action connection A) : action (world * connection) A :=
  fun '(w, c) => let '(r, c') := m c in (r, (w, c')).

(** [with sqlite3.connect(DB_PATH) as conn: body]: the connection commits
    when the body returns and rolls back when it raises. *)
Definition with_connection {A : Type} (body : action (world * connection) A) : action world A :=
  fun w =>
    let '(r, (w', c)) := body (w, connect (db_file w)) in
    let c := match r with Ok _ => commit c | _ => rollback c end in
    (r, close c w').

(** The body of the loop of [main] for one entry of [TABLE_CONFIG]. *)
Definition load_table (config : config) : action (world * connection) unit :=
  run rows <- in_world (fun w => (load_csv (csv config) w, w));
  exec in_conn (insert_rows (name config) (columns config) rows);
  in_world (update (print ("Inserted " ++ str_int (Z.of_nat (length rows))
                              ++ " rows into " ++ name config ++ "."))).

Definition main : action world unit :=
  fun w =>
    match data_dir w with
    | None => (Raise (FileNotFoundError ("Data directory not found: " ++ path w "data")), w)
    | Some _ =>
        (exec with_connection
           (exec in_conn reset_tables;
            for_each TABLE_CONFIG load_table);
         fun w => (Ok tt, print ("SQLite database populated at " ++ path w "ecom.db") w)) w
    end.

End Loader.

(** ** [script/order_summary_report.py] *)
Module Reporter.
Import Py Os Sqlite.

(** The rows of [rows] whose cell at [j] equals [key]: the rows an [ON]
    condition keeps. *)
Definition matching (rows : list (list value)) (j : nat) (key : value) : list (list value) :=
  List.filter (fun row => sql_eq (cell j row) key) rows.

(** [JOIN]: one result per matching row. *)
Definition inner (rows : list (list value)) (j : nat) (key : value) : list (option (list value)) :=
  map Some (matching rows j key).

(** [LEFT JOIN]: one result per matching row, and one, all [NULL], when no
    row matches. *)
Definition left (rows : list (list value)) (j : nat) (key : value) : list (option (list value)) :=
  match matching rows j key with
  | [] => [None]
  | ms => map Some ms
  end.

(** A column of a joined row, [NULL] when the row is the missing side of a
    left join. *)
Definition col (i : nat) (row : option (list value)) : value :=
  match row with
  | Some r => cell i r
  | None => PNone
  end.

(** [ORDER BY] two columns ascending: the sort key of a row, and the order
    of two keys. *)
Definition key_le (a b : value * value) : bool :=
  match compare_values (fst a) (fst b) with
  | Lt => true
  | Gt => false
  | Eq => match compare_values (snd a) (snd b) with Gt => false | _ => true end
  end.

Fixpoint insert_sorted {A : Type} (x : (value * value) * A) (l : list ((value * value) * A))
  : list ((value * value) * A) :=
  match l with
  | [] => [x]
  | y :: l' => if key_le (fst x) (fst y) then x :: l else y :: insert_sorted x l'
  end.

(** Rows in the order of their keys. Which of two rows with equal keys comes
    first is not fixed by SQL; here they keep the order of the join. *)
Definition order_by {A : Type} (l : list ((value * value) * A)) : list ((value * value) * A) :=
  fold_right insert_sorted [] l.

(** Where the columns [QUERY] names stand in the rows of their tables. *)
Record positions : Type := Positions {
  u_name : nat;
  pr_name : nat;
  o_order_date : nat;
  r_rating : nat;
  pay_payment_status : nat;
  u_user_id : nat;
  o_user_id : nat;
  pr_product_id : nat;
  o_product_id : nat;
  r_order_id : nat;
  o_order_id : nat;
  pay_order_id : nat
}.

(** The joined rows of one order: its users, its products, its reviews or
    [NULL], its payments or [NULL]; each with the sort key
    [(o.order_date, o.order_id)] and the five selected columns. *)
Definition order_rows (ix : positions) (users products reviews payments : list (list value))
    (orow : list value) : list ((value * value) * list value) :=
  flat_map (fun urow =>
    flat_map (fun prrow =>
      flat_map (fun rrow =>
        map (fun payrow =>
               ((cell (o_order_date ix) orow, cell (o_order_id ix) orow),
                [ col (u_name ix) urow; col (pr_name ix) prrow; cell (o_order_date ix) orow;
                  col (r_rating ix) rrow; col (pay_payment_status ix) payrow ]))
            (left payments (pay_order_id ix) (cell (o_order_id ix) orow)))
        (left reviews (r_order_id ix) (cell (o_order_id ix) orow)))
      (inner products (pr_product_id ix) (cell (o_product_id ix) orow)))
    (inner users (u_user_id ix) (cell (o_user_id ix) orow)).

Definition resolve (o u pr r pay : table) : result positions :=
  do u_name <- column_index (tbl_schema u) "name";
  do pr_name <- column_index (tbl_schema pr) "name";
  do o_order_date <- column_index (tbl_schema o) "order_date";
  do r_rating <- column_index (tbl_schema r) "rating";
  do pay_payment_status <- column_index (tbl_schema pay) "payment_status";
  do u_user_id <- column_index (tbl_schema u) "user_id";
  do o_user_id <- column_index (tbl_schema o) "user_id";
  do pr_product_id <- column_index (tbl_schema pr) "product_id";
  do o_product_id <- column_index (tbl_schema o) "product_id";
  do r_order_id <- column_index (tbl_schema r) "order_id";
  do o_order_id <- column_index (tbl_schema o) "order_id";
  do pay_order_id <- column_index (tbl_schema pay) "order_id";
  Ok (Positions u_name pr_name o_order_date r_rating pay_payment_status u_user_id o_user_id
                pr_product_id o_product_id r_order_id o_order_id pay_order_id).

(** The joined rows of [QUERY] before [ORDER BY], order after order. *)
Definition joined (d : database) : result (list ((value * value) * list value)) :=
  do o <- get_table "orders" d;
  do u <- get_table "users" d;
  do pr <- get_table "products" d;
  do r <- get_table "reviews" d;
  do pay <- get_table "payments" d;
  do ix <- resolve o u pr r pay;
  Ok (flat_map (order_rows ix (tbl_rows u) (tbl_rows pr) (tbl_rows r) (tbl_rows pay)) (tbl_rows o)).

(** The result of [QUERY] on a database. *)
Definition QUERY (d : database) : result (list (list value)) :=
  do rows <- joined d;
  Ok (map snd (order_by rows)).

Definition fetch_order_summary (w : world) : result (list (list value)) :=
  match db_file w with
  | None => Raise (FileNotFoundError ("Database not found: " ++ path w "ecom.db"))
  | Some d => QUERY d
  end.

Definition headers : list string :=
  ["user_name"; "product_name"; "order_date"; "review_rating"; "payment_status"].

Section Writing.

Variable float_repr : float -> string.

(** The text of the report: the header line, then a line per row. *)
Definition summary_text (rows : list (list value)) : string :=
  Csv.writerow float_repr (map PStr headers) ++ String.concat "" (map (Csv.writerow float_repr) rows).

Definition write_summary (rows : list (list value)) : action world unit :=
  update (fun w => set_output_dir (<["order_summary.csv" := summary_text rows]> (mkdir (output_dir w))) w).

Definition main : action world unit :=
  run rows <- (fun w => (fetch_order_summary w, w));
  exec write_summary rows;
  fun w => (Ok tt, print ("Wrote " ++ str_int (Z.of_nat (length rows)) ++ " records to "
                           ++ path w "output" ++ "/order_summary.csv") w).

End Writing.

End Reporter.

(** ** The default fixture set

    The five record sets the generator builds, their CSV texts, and a
    repository in which no script has run yet. *)
Module Default.
Import Py Os.

Definition or_empty {A : Type} (r : result (list A)) : list A :=
  match r with
  | Ok l => l
  | _ => []
  end.

Definition users : list Generator.row :=
  Eval vm_compute in or_empty Generator.generate_users.
Definition products : list Generator.row :=
  Eval vm_compute in Generator.generate_products.
Definition orders : list Generator.row :=
  Eval vm_compute in or_empty (Generator.generate_orders 5 users products).
Definition reviews : list Generator.row :=
  Eval vm_compute in or_empty (Generator.generate_reviews 5 orders).
Definition payments : list Generator.row :=
  Eval vm_compute in or_empty (Generator.generate_payments orders).

(** The text of a CSV file with the given header and rows. None of the rows
    above has a float cell, so how a float would be written plays no part. *)
Definition csv_text (fieldnames : list string) (rows : list Generator.row) : string :=
  fst (Csv.writerows (fun _ => "") fieldnames rows (Csv.writeheader (fun _ => "") fieldnames)).

Definition users_csv : string :=
  Eval vm_compute in csv_text Generator.users_fields users.
Definition products_csv : string :=
  Eval vm_compute in csv_text Generator.products_fields products.
Definition orders_csv : string :=
  Eval vm_compute in csv_text Generator.orders_fields orders.
Definition reviews_csv : string :=
  Eval vm_compute in csv_text Generator.reviews_fields reviews.
Definition payments_csv : string :=
  Eval vm_compute in csv_text Generator.payments_fields payments.

(** The names of the five files. *)
Definition csv_files : list string :=
  ["users.csv"; "products.csv"; "orders.csv"; "reviews.csv"; "payments.csv"].

(** A repository right after checkout: no [data], no [ecom.db], no [output],
    nothing printed. *)
Definition checkout : world := World "/srv/shop" None None None [] [].

(** The files of [data] after the generator ran in a fresh checkout. *)
Definition data : gmap string string :=
  <["payments.csv" := payments_csv]>
    (<["reviews.csv" := reviews_csv]>
      (<["orders.csv" := orders_csv]>
        (<["products.csv" := products_csv]>
          (<["users.csv" := users_csv]> ∅)))).

(** The checkout after the generator ran, and then after the loader ran. *)
Definition generated : world :=
  World "/srv/shop" (Some data) None None ["Generated CSV files in /srv/shop/data"] [].

Definition loaded : world := snd (Loader.main generated).

(** The joined rows of [QUERY] on the database of [loaded], each with its
    sort key. *)
Definition summary : list ((value * value) * list value) :=
  Eval vm_compute in
    match db_file loaded with
    | Some d => or_empty (Reporter.joined d)
    | None => []
    end.

(** The rows the loader reads from [orders.csv] of [generated]. *)
Definition loaded_orders : list Csv.row :=
  Eval vm_compute in or_empty (Loader.load_csv "orders.csv" generated).

(** [loaded] after the reporter ran. *)
Definition reported : world := snd (Reporter.main (fun _ => "") loaded).

(** A checkout whose [reviews.csv] holds a second review of order O001. *)
Definition reviewed_twice : world :=
  World "/srv/shop"
        (Some (<["reviews.csv" := reviews_csv ++ "R016,O001,2,Stopped working after a week.,2024-03-20"
                                    ++ crlf]> data))
        None None [] [].

End Default.

(** ** What the claims speak of

    Notions the statements below use that the scripts do not define. *)
Module Spec.
Import Py Os Sqlite.

(** A three-way comparison that orders its type: swapping the sides swaps
    the answer, equal things compare alike, and smaller is transitive. *)
Record ordering {A : Type} (cmp : A -> A -> comparison) : Prop := {
  cmp_antisym : forall x y, cmp x y = CompOpp (cmp y x);
  cmp_eq_l : forall x y z, cmp x y = Eq -> cmp x z = cmp y z;
  cmp_lt_trans : forall x y z, cmp x y = Lt -> cmp y z = Lt -> cmp x z = Lt
}.

(** Two joined rows as the reporter's comparison of sort keys places them:
    the first is not after the second. *)
Definition in_order {A : Type} (x y : (value * value) * A) : Prop :=
  Reporter.key_le (fst x) (fst y) = true.

(** The words of a generator's state are never negative. *)
Definition wf (g : Random.rng) : Prop := Forall (fun x => 0 <= x) (Random.mt g).

(** The columns the loader turns into floats, and those it turns into
    integers. *)
Definition float_columns : list string := ["price"; "order_total"; "amount"].
Definition integer_columns : list string := ["in_stock"; "quantity"; "rating"].

(** [typed_as key v v']: the loader stores [v'] for the cell [v] read under
    the column [key]. *)
Inductive typed_as : string -> value -> value -> Prop :=
| as_float key v f : In key float_columns -> to_float v = Ok f -> typed_as key v (PFloat f)
| as_integer key v z : In key integer_columns -> to_int v = Ok z -> typed_as key v (PInt z)
| as_it_is key v : ~ In key (float_columns ++ integer_columns) -> typed_as key v v.

(** The tables of a database after the schema reset: the five tables are
    gone, then there again and empty. *)
Definition fresh_tables (d : database) : database :=
  foldl (fun d s => <[sch_name s := Table s []]> d)
        (foldl (fun d n => delete n d) d (rev (map Loader.name Loader.TABLE_CONFIG)))
        (map Loader.schema_of Loader.TABLE_CONFIG).

(** The statements of the schema reset, each with the enforcement of foreign
    keys in force when it runs. *)
Definition reset_trace : list (statement * bool) :=
  [ (PRAGMA_foreign_keys false, false);
    (DROP_TABLE_IF_EXISTS "payments", false);
    (DROP_TABLE_IF_EXISTS "reviews", false);
    (DROP_TABLE_IF_EXISTS "orders", false);
    (DROP_TABLE_IF_EXISTS "products", false);
    (DROP_TABLE_IF_EXISTS "users", false);
    (PRAGMA_foreign_keys true, false);
    (CREATE_TABLE Loader.users_schema, true);
    (CREATE_TABLE Loader.products_schema, true);
    (CREATE_TABLE Loader.orders_schema, true);
    (CREATE_TABLE Loader.reviews_schema, true);
    (CREATE_TABLE Loader.payments_schema, true) ].

(** Reading a trace from a state in which the tables [live] exist: does
    every [CREATE TABLE] find the tables its foreign keys name? *)
Fixpoint references_exist (live : list string) (tr : list (statement * bool)) : bool :=
  match tr with
  | [] => true
  | (CREATE_TABLE s, _) :: tr' =>
      forallb (fun fk => existsb (String.eqb (ref_table fk)) live) (sch_fks s)
      && references_exist (sch_name s :: live) tr'
  | (DROP_TABLE_IF_EXISTS n, _) :: tr' =>
      references_exist (List.filter (fun m => negb (String.eqb m n)) live) tr'
  | _ :: tr' => references_exist live tr'
  end.

(** A price written with two decimals, in hundredths. *)
Definition cents_of_text (s : string) : option Z :=
  match digitpart 0 0 (chars s) with
  | (units, S _, "."%char :: d1 :: d2 :: []) =>
      match digit_val d1, digit_val d2 with
      | Some a, Some b => Some (units * 100 + a * 10 + b)
      | _, _ => None
      end
  | _ => None
  end.

(** The total of an order is its quantity times the price of the product it
    names, computed in hundredths and written with two decimals. *)
Definition total_is_exact (products : list Generator.row) (order : Generator.row) : Prop :=
  exists q product price cents,
    dict_get "quantity" order = Some (PInt q) /\
    In product products /\
    dict_get "product_id" product = dict_get "product_id" order /\
    dict_get "price" product = Some (PStr price) /\
    cents_of_text price = Some cents /\
    dict_get "order_total" order = Some (PStr (hundredths (q * cents))).

(** Writing [rows] under [fieldnames] gives [content], however a float would
    be written. *)
Definition writes (fieldnames : list string) (rows : list Generator.row) (content : string) : Prop :=
  forall float_repr,
    Csv.writerows float_repr fieldnames rows (Csv.writeheader float_repr fieldnames)
    = (content, Ok tt).

(** The files of [data] after the generator ran over the files [files]. *)
Definition written (files : gmap string string) : gmap string string :=
  <["payments.csv" := Default.payments_csv]>
    (<["reviews.csv" := Default.reviews_csv]>
      (<["orders.csv" := Default.orders_csv]>
        (<["products.csv" := Default.products_csv]>
          (<["users.csv" := Default.users_csv]> files)))).

(** The content of the file [name] of [data] in a world, if there is one. *)
Definition data_file (name : string) (w : world) : option string :=
  data_dir w ≫= (fun files => files !! name).

(** The content of the file [name] of [output] in a world, if there is one. *)
Definition output_file (name : string) (w : world) : option string :=
  output_dir w ≫= (fun files => files !! name).

(** The values under [key] in a list of rows. *)
Definition ids (key : string) (rows : list Generator.row) : list (option value) :=
  map (dict_get key) rows.

(** Every row has a value under [key], and no two rows have the same. *)
Definition unique_ids (key : string) (rows : list Generator.row) : Prop :=
  NoDup (ids key rows) /\ ~ In None (ids key rows).

(** Every row of [rows] has under [key] a value some row of [targets] has
    under [key] too. *)
Definition refers_to (key : string) (rows targets : list Generator.row) : Prop :=
  forall r, In r rows -> exists id, dict_get key r = Some id /\ In (Some id) (ids key targets).

(** The rows of table [n], none when there is no such table. *)
Definition rows_of (d : database) (n : string) : list (list value) :=
  match d !! n with
  | Some t => tbl_rows t
  | None => []
  end.

(** At most one row of [rows] has a given key at position [j]. *)
Definition keys_unique (rows : list (list value)) (j : nat) : Prop :=
  forall key, (length (Reporter.matching rows j key) <= 1)%nat.

(** Every row of [rows] finds its key at position [i] among [parents] at
    position [j]. *)
Definition keys_exist (rows : list (list value)) (i : nat) (parents : list (list value)) (j : nat)
  : Prop :=
  forall row, In row rows -> Reporter.matching parents j (cell i row) <> [].

(** The foreign keys of the five tables: the table, the position of its
    column, and the table whose first column it names. *)
Definition links : list (string * nat * string) :=
  [ ("orders", 1%nat, "users"); ("orders", 2%nat, "products");
    ("reviews", 1%nat, "orders"); ("payments", 1%nat, "orders") ].

(** A database that keeps the key constraints of [TABLE_CONFIG]: the five
    tables are there with their schemas, no two rows of a table have the
    same primary key, and every foreign key names a row that exists. *)
Record keyed (d : database) : Prop := {
  keyed_tables : forall cfg, In cfg Loader.TABLE_CONFIG ->
    exists rows, d !! Loader.name cfg = Some (Table (Loader.schema_of cfg) rows);
  keyed_unique : forall cfg, In cfg Loader.TABLE_CONFIG ->
    keys_unique (rows_of d (Loader.name cfg)) 0;
  keyed_exist : forall child i parent, In (child, i, parent) links ->
    keys_exist (rows_of d child) i (rows_of d parent) 0
}.

(** A connection that enforces foreign keys over a database that keeps the
    key constraints. *)
Definition sound (c : connection) : Prop := keyed (tables c) /\ foreign_keys c = true.

(** The connection right after the schema reset on a database file. *)
Definition reset_connection (file : option database) : connection :=
  Connection (fresh_tables (default ∅ file)) None true reset_trace.

(** Where the columns of [QUERY] stand in the five tables of [TABLE_CONFIG]. *)
Definition query_positions : Reporter.positions := Reporter.Positions 1 1 4 2 4 0 1 0 2 1 0 1.

(** The joined rows of one order of a database. *)
Definition rows_for (d : database) (orow : list value) : list ((value * value) * list value) :=
  Reporter.order_rows query_positions (rows_of d "users") (rows_of d "products")
                      (rows_of d "reviews") (rows_of d "payments") orow.

(** [m] run on a state related to one on which it returns, returns the same
    and leaves related states. *)
Definition simulates {S A : Type} (R : S -> S -> Prop) (m : action S A) : Prop :=
  forall s1 s2 a s2', R s1 s2 -> m s2 = (Ok a, s2') -> exists s1', m s1 = (Ok a, s1') /\ R s1' s2'.

(** The names of the five tables. *)
Definition table_names : list string := map Loader.name Loader.TABLE_CONFIG.

(** Two databases hold the same five tables. *)
Definition agree (d1 d2 : database) : Prop :=
  forall n, In n table_names -> d1 !! n = d2 !! n.

Definition in_transaction (c : connection) : bool :=
  match rollback_to c with Some _ => true | None => false end.

(** Two connections that enforce foreign keys over the same five tables,
    both inside or both outside a transaction; the first over tables that
    keep the key constraints. *)
Definition alike (c1 c2 : connection) : Prop :=
  sound c1 /\ agree (tables c1) (tables c2) /\ foreign_keys c2 = true /\
  in_transaction c1 = in_transaction c2.

(** Two runs of the loader under way from the worlds [w1] and [w2]: the same
    five files to read, the same lines printed since the start, the root
    directories of the start, and connections that are alike. *)
Definition alike_runs (w1 w2 : world) (s1 s2 : world * connection) : Prop :=
  (forall cfg, In cfg Loader.TABLE_CONFIG ->
     data_file (Loader.csv cfg) (fst s1) = data_file (Loader.csv cfg) (fst s2)) /\
  (exists lines, stdout (fst s1) = (stdout w1 ++ lines)%list /\
                 stdout (fst s2) = (stdout w2 ++ lines)%list) /\
  root_dir (fst s1) = root_dir w1 /\ root_dir (fst s2) = root_dir w2 /\
  alike (snd s1) (snd s2).

(** The field typing in the words of the specification, to compare with
    [Loader.convert]: price and amount become floats, in_stock, quantity and
    rating become integers, and every other column stays text. *)
Definition claimed_float_columns : list string := ["price"; "amount"].
Definition claimed_integer_columns : list string := ["in_stock"; "quantity"; "rating"].

Definition claimed_convert (key : string) (v : value) : result value :=
  if existsb (String.eqb key) claimed_float_columns then py_float v
  else if existsb (String.eqb key) claimed_integer_columns then py_int v
  else Ok v.

(** What [generate_reviews] appends for the order at position [i]. *)
Definition review_of (i : nat) (order review : Generator.row) : Prop :=
  exists order_id rating,
    dict_get "order_id" order = Some order_id /\
    3 <= rating <= 5 /\
    dict_get "review_id" review = Some (PStr (Generator.make_id "R" (i + 1))) /\
    dict_get "order_id" review = Some order_id /\
    dict_get "rating" review = Some (PInt rating).

(** What [generate_orders] appends at position [i]. *)
Definition order_of (users products : list Generator.row) (i : nat) (order : Generator.row) : Prop :=
  exists user product user_id product_id quantity,
    users !! i = Some user /\ products !! i = Some product /\
    dict_get "user_id" user = Some user_id /\
    dict_get "product_id" product = Some product_id /\
    1 <= quantity <= 4 /\
    dict_get "order_id" order = Some (PStr (Generator.make_id "O" (i + 1))) /\
    dict_get "user_id" order = Some user_id /\
    dict_get "product_id" order = Some product_id /\
    dict_get "quantity" order = Some (PInt quantity).

(** What [generate_payments] appends for the order at position [i]. *)
Definition payment_of (i : nat) (order payment : Generator.row) : Prop :=
  exists order_id total,
    dict_get "order_id" order = Some order_id /\
    dict_get "order_total" order = Some total /\
    dict_get "payment_id" payment = Some (PStr (Generator.make_id "PM" (i + 1))) /\
    dict_get "order_id" payment = Some order_id /\
    dict_get "amount" payment = Some total /\
    dict_get "payment_status" payment
    = Some (PStr (if Nat.eqb (i mod 3) 2 then "Pending" else "Completed")).

(** A computation that did not return. *)
Definition failed {A : Type} (r : result A) : Prop :=
  match r with
  | Ok _ => False
  | _ => True
  end.

(** A sound connection whose state to roll back to, if any, keeps the key
    constraints as well. *)
Definition safe (c : connection) : Prop :=
  sound c /\ forall d, rollback_to c = Some d -> keyed d.

(** The parameters an [INSERT] of the loader binds for a row read from a CSV:
    for each column of [cols], in order, the cell of the row under that
    column, as SQLite stores it. *)
Definition stored_as (cols : list string) (r : Csv.row) (params : list value) : Prop :=
  Forall2 (fun col v => exists x, dict_get col (Csv.named r) = Some x /\ bind_value x = Ok v)
          cols params.

(** [v] is what a left join shows for column [i] of [rows] joined on [key] at
    [j]: the cell of a matching row, or [NULL] when no row matches. *)
Definition left_cell (rows : list (list value)) (j : nat) (key : value) (i : nat) (v : value)
  : Prop :=
  (Reporter.matching rows j key = [] /\ v = PNone) \/
  (exists row, In row rows /\ sql_eq (cell j row) key = true /\ v = cell i row).

(** No two rows the loader reads from [file] have the same text under [key]. *)
Definition csv_unique (w : world) (file key : string) : Prop :=
  forall rows i j ri rj k,
    Loader.load_csv file w = Ok rows ->
    rows !! i = Some ri -> rows !! j = Some rj ->
    dict_get key (Csv.named ri) = Some (PStr k) ->
    dict_get key (Csv.named rj) = Some (PStr k) ->
    i = j.

(** The text a row read from [file] has under [col] is the text some row
    read from [parent] has under [key]. *)
Definition csv_refers (w : world) (file col parent key : string) : Prop :=
  forall rows prows r k,
    Loader.load_csv file w = Ok rows ->
    Loader.load_csv parent w = Ok prows ->
    In r rows -> dict_get col (Csv.named r) = Some (PStr k) ->
    exists p, In p prows /\ dict_get key (Csv.named p) = Some (PStr k).

(** A text that holds no carriage return, no line feed and no NUL. *)
Definition one_line (s : string) : Prop :=
  forall c, In c (chars s) -> Csv.is_newline c = false /\ c <> Ascii.zero.

(** The reader fed the characters of a part of a line. *)
Fixpoint feed (p : Csv.parser) (cs : list ascii) : result Csv.parser :=
  match cs with
  | [] => Ok p
  | c :: cs' => do p <- Csv.parse_process_char p c; feed p cs'
  end.

(** The characters [writerow] writes before the line terminator. *)
Definition row_chars (fields : list string) : list ascii :=
  match fields, Csv.join_fields fields with
  | _ :: _, [] => Csv.quoted []
  | _, line => line
  end.

(** The delimiter. *)
Definition comma : ascii := ","%char.

(** The state after the character that ends a field. *)
Definition after (t : ascii) : Csv.parser_state :=
  if Ascii.eqb t comma then Csv.START_FIELD else Csv.EAT_CRNL.

(** The text of a file: a line for each record. *)
Definition file_chars (recs : list (list string)) : list ascii :=
  flat_map (fun vs => row_chars vs ++ [cr; lf])%list recs.

(** The cells [DictWriter] writes for a row: a missing one is empty. *)
Definition cells_of (fieldnames : list string) (r : dict string value) : list value :=
  map (fun key => default (PStr "") (dict_get key r)) fieldnames.

(** The row [DictReader] gives for a row [write_csv] wrote under
    [fieldnames]: each field name, in order, with the text of its cell. *)
Definition read_back (float_repr : float -> string) (fieldnames : list string)
    (r : Generator.row) : Csv.row :=
  Csv.Row (map (fun key => (key, PStr (Csv.cell_text float_repr
                                          (default (PStr "") (dict_get key r)))))
               fieldnames)
          None.

(** A text short enough to be a field for the reader. *)
Definition fits (s : string) : Prop :=
  Z.of_nat (String.length s) <= Csv.field_size_limit.

(** A text the reader takes for one field of one line. *)
Definition plain (s : string) : Prop := one_line s /\ fits s.

(** A cell the writer can write and the reader takes back as one field: its
    text is [plain], and when it is an integer it has no more digits than
    [str] writes. *)
Definition writable (float_repr : float -> string) (v : value) : Prop :=
  plain (Csv.cell_text float_repr v) /\
  match v with
  | PInt z => Z.of_nat (String.length (str_int (Z.abs z))) <= Z.of_nat int_max_str_digits
  | _ => True
  end.

(** The cell a row of table [t] has under the column [name]. *)
Definition field (t : table) (name : string) (row : list value) : value :=
  match index_of name (column_names (tbl_schema t)) with
  | Some i => cell i row
  | None => PNone
  end.

(** Ascending order on texts: [s] comes no later than [t] when the two are
    compared character by character, by code point, a text coming before
    the longer texts it begins. *)
Fixpoint text_le (s t : string) : Prop :=
  match s, t with
  | EmptyString, _ => True
  | String _ _, EmptyString => False
  | String a s', String b t' =>
      (N_of_ascii a < N_of_ascii b)%N \/ (a = b /\ text_le s' t')
  end.

(** The storage classes in ascending order: [NULL], the numbers, the
    texts. *)
Definition storage_class (v : value) : nat :=
  match v with
  | PNone => 0
  | PInt _ | PFloat _ => 1
  | PStr _ => 2
  end.

(** Ascending order on stored values: [a] comes no later than [b]. Values
    of two storage classes stand in the order of their classes, two numbers
    in the order of their values, two texts in the order [text_le]. *)
Definition ascending (a b : value) : Prop :=
  match a, b with
  | PStr s, PStr t => text_le s t
  | (PInt _ | PFloat _), (PInt _ | PFloat _) => number_compare (number_of a) (number_of b) <> Gt
  | _, _ => (storage_class a <= storage_class b)%nat
  end.

(** Two pairs of an [order_date] and an [order_id] in the order asked for by
    [ORDER BY o.order_date, o.order_id]: the dates ascend, and where the
    dates are the same the identifiers ascend. *)
Definition by_date_then_id (x y : value * value) : Prop :=
  ascending (fst x) (fst y) /\
  (ascending (fst y) (fst x) -> ascending (snd x) (snd y)).

(** The report on the default fixture set, line by line. *)
Definition default_report : list string :=
  [ "user_name,product_name,order_date,review_rating,payment_status";
    "Ava Patel,Smartwatch,2024-02-01,4,Completed";
    "Noah Smith,Noise Cancelling Headphones,2024-02-02,3,Completed";
    "Liam Chen,4K Monitor,2024-02-03,4,Pending";
    "Emma Lopez,Mechanical Keyboard,2024-02-04,5,Completed";
    "Mia Davis,Gaming Mouse,2024-02-05,3,Completed";
    "Elijah Lee,Wireless Charger,2024-02-06,3,Pending";
    "Isabella Brown,Portable SSD,2024-02-07,5,Completed";
    "Sophia Wilson,Bluetooth Speaker,2024-02-08,3,Completed";
    "James Garcia,Fitness Tracker,2024-02-09,4,Pending";
    "Lucas Nguyen,Smart Home Hub,2024-02-10,5,Completed";
    "Amelia Clark,Action Camera,2024-02-11,3,Completed";
    "Harper Miller,Drone Mini,2024-02-12,5,Pending";
    "Ethan Hernandez,E-reader,2024-02-13,3,Completed";
    "Oliver Johnson,USB-C Hub,2024-02-14,3,Completed";
    "Charlotte Martinez,Noise Sensor,2024-02-15,3,Pending" ].

(** A file of the given lines, each ended by CR LF. *)
Definition file_of_lines (lines : list string) : string :=
  String.concat "" (map (fun line => line ++ crlf) lines).

(** An outcome of the loader that is not a failure of the database itself:
    the loader returned, or it raised for a file it read or for a row it
    stored. The failures of a statement of the schema reset, and of opening
    the file, are [OperationalError]s and are not among these. *)
Definition file_or_row (r : result unit) : Prop :=
  match r with
  | Ok _ => True
  | Raise (FileNotFoundError _ | ValueError _ | TypeError _ | KeyError _
           | CsvError _ | OverflowError | IntegrityError _) => True
  | _ => False
  end.

(** A value a column of type [ty] stores as it is bound, column affinity
    having nothing to convert: [NULL], a text in a TEXT column, an integer
    in an INTEGER column, and in a REAL column a float other than minus
    zero, which would be read back as zero. *)
Definition suits (ty : affinity) (v : value) : Prop :=
  match ty, v with
  | _, PNone => True
  | TEXT, PStr _ => True
  | INTEGER, PInt _ => True
  | REAL, PFloat f => f <> S754_zero true
  | _, _ => False
  end.

(** The types of the columns of a schema, in order. *)
Definition column_types (s : schema) : list affinity := map col_type (sch_columns s).

(** No cell of the rows is a minus zero. *)
Definition no_minus_zero (rows : list Csv.row) : Prop :=
  Forall (fun r => Forall (fun kv => snd kv <> PFloat (S754_zero true)) (Csv.named r)) rows.

(** Under each column of the table of [cfg], the row has a value that suits
    the type of the column. *)
Definition row_suits (cfg : Loader.config) (r : Csv.row) : Prop :=
  Forall2 (fun col ty => forall v, dict_get col (Csv.named r) = Some v -> suits ty v)
          (Loader.columns cfg) (column_types (Loader.schema_of cfg)).

(** The type [TABLE_CONFIG] declares for the columns of a name: REAL for
    the columns the loader turns into floats, INTEGER for those it turns
    into integers, TEXT for the others. *)
Definition declared_type (key : string) : affinity :=
  if existsb (String.eqb key) float_columns then REAL
  else if existsb (String.eqb key) integer_columns then INTEGER
  else TEXT.

(** A cell as [csv.DictReader] gives it: a text, or [None] where the record
    was short. *)
Definition read_cell (v : value) : Prop := v = PNone \/ exists s, v = PStr s.

(** A cell as [load_csv] gives it under the column [key]. *)
Definition loaded_cell (key : string) (v : value) : Prop :=
  match declared_type key with
  | REAL => exists f, v = PFloat f
  | INTEGER => exists z, v = PInt z
  | TEXT => read_cell v
  end.

End Spec.

(** ** Sample states

    Repositories and connections on which the statements below are tried. *)
Module Sample.
Import Py Os Sqlite Spec.

(** The connection right after the schema reset on a database file that did
    not exist. *)
Definition fresh : connection := reset_connection None.

(** The rows read from the generated [users.csv]. *)
Definition users_rows : list Csv.row :=
  Eval vm_compute in Default.or_empty (Loader.load_csv "users.csv" Default.generated).

Definition users_columns : list string :=
  ["user_id"; "name"; "email"; "join_date"; "loyalty_tier"].

(** [fresh] once the users are inserted. *)
Definition with_users : connection :=
  snd (Loader.insert_rows "users" users_columns users_rows fresh).

(** A new user, and then a user whose identifier is taken. *)
Definition newcomers : list Csv.row :=
  [ Csv.Row [ ("user_id", PStr "U016"); ("name", PStr "Zoe Adams");
              ("email", PStr "zoe.adams@shopperhub.com"); ("join_date", PStr "2024-02-15");
              ("loyalty_tier", PStr "Silver") ] None;
    Csv.Row [ ("user_id", PStr "U001"); ("name", PStr "Ava Patel");
              ("email", PStr "ava.patel@shopperhub.com"); ("join_date", PStr "2024-01-01");
              ("loyalty_tier", PStr "Bronze") ] None ].

(** A row read from a file whose header lacks [name]. *)
Definition nameless : list Csv.row :=
  [ Csv.Row [ ("user_id", PStr "U016"); ("email", PStr "zoe.adams@shopperhub.com");
              ("join_date", PStr "2024-02-15"); ("loyalty_tier", PStr "Silver") ] None ].

(** A checkout whose [data] exists and is empty. *)
Definition empty_data : world := World "/srv/shop" (Some ∅) None None [] [].

(** A [reviews.csv] in which a review has no rating, and a checkout that
    holds it. *)
Definition unrated_csv : string :=
  "review_id,order_id,rating,comment,review_date" ++ crlf
  ++ "R001,O001,,Met my expectations.,2024-03-01" ++ crlf.

Definition unrated : world :=
  World "/srv/shop" (Some (<["reviews.csv" := unrated_csv]> Default.data)) None None [] [].

Definition unrated_rows : list Csv.row :=
  Eval vm_compute in Default.or_empty (Csv.DictReader unrated_csv).


(** Rows for a round trip: a comment with a comma, then a row without a
    comment. *)
Definition remarks_fields : list string := ["review_id"; "comment"].
Definition remarks : list Generator.row :=
  [ [("review_id", PStr "R001"); ("comment", PStr "Packaging could be better, product works fine.")];
    [("review_id", PStr "R002")] ].

(** A database file that holds the users and, beside the five tables, a
    table of notes. *)
Definition notes : table :=
  Table (Schema "notes" [Column "body" TEXT false false] []) [[PStr "Call the supplier."]].

Definition archive : database := <["notes" := notes]> (tables with_users).

(** The entry of [TABLE_CONFIG] for the users. *)
Definition users_config : Loader.config :=
  Loader.Config "users" "users.csv" users_columns Loader.users_schema.

End Sample.

(** * Properties *)

Import Py Os Sqlite Spec.

(** ** Returning and raising *)

Lemma bind_ok {A B : Type} (r : result A) (k : A -> result B) b :
  bind r k = Ok b -> exists a, r = Ok a /\ k a = Ok b.
Proof. destruct r as [a| |]; cbn; intros H; [eauto | discriminate | discriminate]. Qed.

(** From [H : bind r k = Ok b], the value [r] returned and what [k] made of
    it. *)
Ltac bind_step H :=
  let x := fresh "x" in
  let Hx := fresh "Hx" in
  apply bind_ok in H as (x & Hx & H).

Lemma mapM_ok {A B : Type} (f : A -> result B) l l' :
  mapM f l = Ok l' -> Forall2 (fun x y => f x = Ok y) l l'.
Proof.
  revert l'. induction l as [|x l IH]; cbn; intros l' H.
  - injection H as <-. constructor.
  - do 2 bind_step H. injection H as <-. constructor; auto.
Qed.

Lemma and_then_ok {S A B : Type} (m : action S A) (k : A -> action S B) s a s' :
  m s = (Ok a, s') -> and_then m k s = k a s'.
Proof. intros H. unfold and_then. now rewrite H. Qed.

Lemma dict_item_get {K V : Type} `{Key K} (k : K) (d : dict K V) v :
  dict_item k d = Ok v -> dict_get k d = Some v.
Proof. unfold dict_item. destruct (dict_get k d); intros E; now inversion E. Qed.

Lemma item_In {A : Type} (l : list A) i x : item l i = Ok x -> In x l.
Proof.
  unfold item. destruct (l !! i) as [y|] eqn:Hy; intros H; [|discriminate].
  injection H as <-. apply list_elem_of_In. eapply list_elem_of_lookup_2, Hy.
Qed.

Lemma Forall2_In_r {A B : Type} (R : A -> B -> Prop) l l' y :
  Forall2 R l l' -> In y l' -> exists x, In x l /\ R x y.
Proof.
  induction 1 as [|x y' l l' HR _ IH]; cbn; [contradiction|].
  intros [->|Hy]; [eauto|]. destruct (IH Hy) as (x' & Hx' & HR'). eauto.
Qed.

Lemma NoDup_map_eq {A B : Type} (f : A -> B) (l : list A) x y :
  NoDup (map f l) -> In x l -> In y l -> f x = f y -> x = y.
Proof.
  induction l as [|a l IH]; cbn [map]; intros Hnd Hx Hy Hf; [contradiction|].
  apply NoDup_cons in Hnd as [Ha Hnd].
  destruct Hx as [->|Hx], Hy as [->|Hy]; auto.
  - exfalso. apply Ha. rewrite Hf. apply list_elem_of_In, in_map, Hy.
  - exfalso. apply Ha. rewrite <- Hf. apply list_elem_of_In, in_map, Hx.
Qed.

Lemma fold_left_invariant {S X : Type} (P : S -> Prop) (f : S -> X -> S) l s :
  (forall s x, P s -> P (f s x)) -> P s -> P (fold_left f l s).
Proof.
  intros Hf. revert s. induction l as [|x l IH]; intros s Hs; cbn [fold_left]; auto.
Qed.

(** ** The random generator *)

Section RandomFacts.
Import Random.

Lemma at_nonneg v i : Forall (fun x => 0 <= x) v -> 0 <= at_ v i.
Proof.
  intros Hv. unfold at_. destruct (v !! i) as [x|] eqn:Hx; cbn; [|lia].
  eapply Forall_lookup_1 in Hx; [exact Hx | exact Hv].
Qed.

Lemma lxor_nonneg a b : 0 <= a -> 0 <= b -> 0 <= Z.lxor a b.
Proof. intros. now apply Z.lxor_nonneg. Qed.

Lemma lor_nonneg a b : 0 <= a -> 0 <= b -> 0 <= Z.lor a b.
Proof. intros. now apply Z.lor_nonneg. Qed.

Lemma land_nonneg_l a b : 0 <= a -> 0 <= Z.land a b.
Proof. intros. apply Z.land_nonneg. now left. Qed.

Lemma land_nonneg_r a b : 0 <= b -> 0 <= Z.land a b.
Proof. intros. apply Z.land_nonneg. now right. Qed.

Lemma shiftr_nonneg a n : 0 <= a -> 0 <= Z.shiftr a n.
Proof. intros. now apply Z.shiftr_nonneg. Qed.

Lemma shiftl_nonneg a n : 0 <= a -> 0 <= Z.shiftl a n.
Proof. intros. now apply Z.shiftl_nonneg. Qed.

(** Bit operations on words that are not negative give such words. *)
Ltac nonneg :=
  repeat lazymatch goal with
    | H : 0 <= ?x |- 0 <= ?x => exact H
    | |- 0 <= at_ _ _ => apply at_nonneg; assumption
    | |- 0 <= Z.lxor _ _ => apply lxor_nonneg
    | |- 0 <= Z.lor _ _ => apply lor_nonneg
    | |- 0 <= Z.shiftr _ _ => apply shiftr_nonneg
    | |- 0 <= Z.shiftl _ _ => apply shiftl_nonneg
    | |- 0 <= Z.land _ _ => apply land_nonneg_r; unfold UPPER_MASK, LOWER_MASK; lia
    end.

Lemma twist_nonneg v : Forall (fun x => 0 <= x) v -> Forall (fun x => 0 <= x) (twist v).
Proof.
  unfold twist. generalize (seq 0 N). intros ks. revert v.
  induction ks as [|kk ks IH]; intros v Hv; cbn [fold_left]; [exact Hv|].
  apply IH. apply Forall_insert; [exact Hv|].
  apply lxor_nonneg; [nonneg|].
  destruct (Z.testbit _ 0); unfold MATRIX_A; lia.
Qed.

Lemma genrand_uint32_nonneg g y g' :
  wf g -> genrand_uint32 g = (y, g') -> 0 <= y /\ wf g'.
Proof.
  unfold genrand_uint32, wf. intros Hg H.
  set (g1 := if Nat.leb N (index g) then Rng (twist (mt g)) 0 else g) in H.
  assert (Hg1 : Forall (fun x => 0 <= x) (mt g1)).
  { subst g1. destruct (Nat.leb N (index g)); [now apply twist_nonneg | exact Hg]. }
  pose proof (at_nonneg (mt g1) (index g1) Hg1) as H0.
  revert H. generalize (at_ (mt g1) (index g1)) H0. intros y0 Hy0 H.
  injection H as <- <-. split; [|exact Hg1].
  nonneg.
Qed.

Lemma getrandbits_words_nonneg words k g r g' :
  wf g -> getrandbits_words words k g = (r, g') -> 0 <= r /\ wf g'.
Proof.
  revert k g r g'. induction words as [|words IH]; intros k g r g' Hg H; cbn [getrandbits_words] in H.
  - injection H as <- <-. split; [lia | exact Hg].
  - destruct (genrand_uint32 g) as [y g1] eqn:Hy.
    apply genrand_uint32_nonneg in Hy as [Hy Hg1]; [|exact Hg].
    destruct (getrandbits_words words (k - 32) g1) as [hi g2] eqn:Hhi.
    apply IH in Hhi as [Hhi Hg2]; [|exact Hg1].
    injection H as <- <-. split; [|exact Hg2].
    apply Z.lor_nonneg. split.
    + destruct (k <? 32); [now apply Z.shiftr_nonneg | exact Hy].
    + now apply Z.shiftl_nonneg.
Qed.

Lemma getrandbits_nonneg k g r g' :
  wf g -> getrandbits k g = Ok (r, g') -> 0 <= r /\ wf g'.
Proof.
  unfold getrandbits. intros Hg H.
  destruct (k <? 0); [discriminate|].
  destruct (k =? 0); [injection H as <- <-; split; [lia | exact Hg]|].
  destruct (k <=? 32).
  - destruct (genrand_uint32 g) as [y g1] eqn:Hy.
    apply genrand_uint32_nonneg in Hy as [Hy Hg1]; [|exact Hg].
    injection H as <- <-. split; [now apply Z.shiftr_nonneg | exact Hg1].
  - injection H as H. now apply getrandbits_words_nonneg in H.
Qed.

(** What [randint] returns lies between its bounds. *)
Lemma randint_range fuel a b g q g' :
  wf g -> randint fuel a b g = Ok (q, g') -> a <= q <= b /\ wf g'.
Proof.
  unfold randint, randbelow. intros Hg H.
  destruct (0 <? b + 1 - a); [|discriminate].
  apply bind_ok in H as ([r g1] & Hr & H). injection H as <- <-.
  enough (0 <= r < b + 1 - a /\ wf g1) as [Hr' Hg1] by (split; [lia | exact Hg1]).
  revert g Hg Hr. generalize (bit_length (b + 1 - a)). intros k.
  induction fuel as [|fuel IH]; intros g Hg Hr; cbn [randbelow_loop] in Hr; [discriminate|].
  apply bind_ok in Hr as ([r0 g0] & H0 & Hr).
  apply getrandbits_nonneg in H0 as [H0 Hg0]; [|exact Hg].
  destruct (b + 1 - a <=? r0) eqn:Hle.
  - now apply (IH g0).
  - injection Hr as <- <-. apply Z.leb_gt in Hle. auto.
Qed.

Lemma u32_nonneg x : 0 <= u32 x.
Proof. unfold u32. apply land_nonneg_r. lia. Qed.

Lemma init_genrand_wf s : wf (init_genrand s).
Proof.
  unfold wf, init_genrand. cbn [mt].
  apply fold_left_invariant.
  - intros v i Hv. apply Forall_insert; [exact Hv | apply u32_nonneg].
  - apply Forall_insert; [|apply u32_nonneg]. apply Forall_replicate. lia.
Qed.

Lemma wrap_nonneg v i :
  Forall (fun x => 0 <= x) v -> Forall (fun x => 0 <= x) (fst (wrap (v, i))).
Proof.
  intros Hv. unfold wrap. destruct (Nat.leb N i); cbn [fst]; [|exact Hv].
  apply Forall_insert; [exact Hv | now apply at_nonneg].
Qed.

Lemma init_by_array_wf key : wf (init_by_array key).
Proof.
  unfold wf, init_by_array.
  match goal with
  | |- context [fold_left ?f ?l (mt (init_genrand ?s), ?i, ?j)] =>
      pose proof (fold_left_invariant (fun st => Forall (fun x => 0 <= x) (fst (fst st))) f l
                    (mt (init_genrand s), i, j)) as H1;
      destruct (fold_left f l (mt (init_genrand s), i, j)) as [[v1 i1] j1]
  end.
  cbn [fst] in H1.
  assert (Hv1 : Forall (fun x => 0 <= x) v1).
  { apply H1; [|apply init_genrand_wf].
    intros [[v i] j] _ Hv. cbn [fst] in Hv.
    destruct (wrap (_, S i)) as [v' i'] eqn:Hw. cbn [fst].
    change v' with (fst (v', i')). rewrite <- Hw. apply wrap_nonneg.
    apply Forall_insert; [exact Hv | apply u32_nonneg]. }
  clear H1.
  match goal with
  | |- context [fold_left ?f ?l (v1, i1)] =>
      pose proof (fold_left_invariant (fun st => Forall (fun x => 0 <= x) (fst st)) f l (v1, i1)) as H2;
      destruct (fold_left f l (v1, i1)) as [v2 i2]
  end.
  cbn [fst mt] in *. apply Forall_insert; [|lia].
  apply H2; [|exact Hv1].
  intros [v i] _ Hv. cbn [fst] in Hv. apply wrap_nonneg.
  apply Forall_insert; [exact Hv | apply u32_nonneg].
Qed.

(** Every seeded generator starts well formed. *)
Lemma Random_wf a : wf (Random a).
Proof. apply init_by_array_wf. Qed.

End RandomFacts.

(** ** The order of stored values *)

Lemma string_compare_refl s : String.compare s s = Eq.
Proof.
  induction s as [|c s IH]; cbn; [reflexivity|].
  unfold Ascii.compare. now rewrite N.compare_refl.
Qed.

Lemma string_ordering : ordering String.compare.
Proof.
  split.
  - apply String.compare_antisym.
  - intros x y z H. apply String.compare_eq_iff in H. now subst.
  - intros x. induction x as [|a x IH]; intros [|b y] [|c z]; cbn; try congruence.
    unfold Ascii.compare.
    destruct (N.compare_spec (N_of_ascii a) (N_of_ascii b)) as [Hab|Hab|Hab];
      destruct (N.compare_spec (N_of_ascii b) (N_of_ascii c)) as [Hbc|Hbc|Hbc];
      try congruence; intros H1 H2.
    + rewrite Hab, Hbc, N.compare_refl. eauto.
    + rewrite Hab. now apply N.compare_lt_iff in Hbc as ->.
    + rewrite <- Hbc. now apply N.compare_lt_iff in Hab as ->.
    + assert (N_of_ascii a < N_of_ascii c)%N as Hac by lia.
      now apply N.compare_lt_iff in Hac as ->.
Qed.

Lemma mul_compare_pos a b p : 0 < p -> (a * p ?= b * p) = (a ?= b).
Proof.
  intros Hp. destruct (Z.compare_spec a b) as [->|H|H].
  - apply Z.compare_refl.
  - apply Z.compare_lt_iff. nia.
  - apply Z.compare_gt_iff. nia.
Qed.

(** Two finite numbers compare as their mantissas scaled to any common
    exponent below both. *)
Lemma compare_scaled m1 e1 m2 e2 k :
  k <= e1 -> k <= e2 ->
  number_compare (Finite m1 e1) (Finite m2 e2) = (m1 * 2 ^ (e1 - k) ?= m2 * 2 ^ (e2 - k)).
Proof.
  intros H1 H2. cbn. set (e := Z.min e1 e2).
  replace (e1 - k) with ((e1 - e) + (e - k)) by lia.
  replace (e2 - k) with ((e2 - e) + (e - k)) by lia.
  rewrite !Z.pow_add_r by lia. rewrite !Z.mul_assoc.
  symmetry. apply mul_compare_pos. apply Z.pow_pos_nonneg; lia.
Qed.

Lemma number_ordering : ordering number_compare.
Proof.
  split.
  - intros [|m1 e1|] [|m2 e2|]; try reflexivity.
    cbn. rewrite Z.min_comm. apply Z.compare_antisym.
  - intros [|m1 e1|] [|m2 e2|] [|m3 e3|]; try (cbn; congruence).
    set (k := Z.min e1 (Z.min e2 e3)).
    rewrite (compare_scaled m1 e1 m2 e2 k), (compare_scaled m1 e1 m3 e3 k),
      (compare_scaled m2 e2 m3 e3 k) by lia.
    intros H. apply Z.compare_eq in H. now rewrite H.
  - intros [|m1 e1|] [|m2 e2|] [|m3 e3|]; try (cbn; congruence).
    set (k := Z.min e1 (Z.min e2 e3)).
    rewrite (compare_scaled m1 e1 m2 e2 k), (compare_scaled m1 e1 m3 e3 k),
      (compare_scaled m2 e2 m3 e3 k) by lia.
    rewrite !Z.compare_lt_iff. lia.
Qed.

Lemma value_ordering : ordering compare_values.
Proof.
  destruct string_ordering as [Sa Se St], number_ordering as [Na Ne Nt].
  split.
  - intros x y. destruct x, y; cbn [compare_values]; try reflexivity; auto.
  - intros x y z. destruct x, y; cbn [compare_values]; try discriminate;
      destruct z; cbn [compare_values]; try reflexivity; auto.
  - intros x y z. destruct x, y; cbn [compare_values]; try discriminate;
      destruct z; cbn [compare_values]; try reflexivity; try discriminate; eauto.
Qed.

Section Sorting.
Import Reporter.

Lemma key_le_total a b : key_le a b = true \/ key_le b a = true.
Proof.
  destruct value_ordering as [Va _ _]. unfold key_le.
  rewrite (Va (fst b) (fst a)), (Va (snd b) (snd a)).
  destruct (compare_values (fst a) (fst b)), (compare_values (snd a) (snd b)); cbn; auto.
Qed.

Lemma key_le_trans a b c : key_le a b = true -> key_le b c = true -> key_le a c = true.
Proof.
  destruct value_ordering as [Va Ve Vt]. unfold key_le.
  destruct (compare_values (fst a) (fst b)) eqn:H1; try discriminate.
  - rewrite (Ve _ _ (fst c) H1).
    destruct (compare_values (fst b) (fst c)); try discriminate; [|reflexivity].
    destruct (compare_values (snd a) (snd b)) eqn:H2; try discriminate.
    + now rewrite (Ve _ _ (snd c) H2).
    + destruct (compare_values (snd b) (snd c)) eqn:H3; try discriminate; intros _ _.
      * rewrite (Va (snd a) (snd c)), <- (Ve _ _ (snd a) H3), <- (Va (snd a) (snd b)), H2. reflexivity.
      * now rewrite (Vt _ _ _ H2 H3).
  - intros _. destruct (compare_values (fst b) (fst c)) eqn:H2; try discriminate; intros _.
    + rewrite (Va (fst a) (fst c)), <- (Ve _ _ (fst a) H2), <- (Va (fst a) (fst b)), H1. reflexivity.
    + now rewrite (Vt _ _ _ H1 H2).
Qed.

Context {A : Type}.

Lemma insert_sorted_perm (x : (value * value) * A) l : Permutation (insert_sorted x l) (x :: l).
Proof.
  induction l as [|y l IH]; cbn.
  - reflexivity.
  - destruct (key_le (fst x) (fst y)).
    + reflexivity.
    + rewrite IH. apply perm_swap.
Qed.

Lemma insert_sorted_sorted (x : (value * value) * A) l :
  StronglySorted in_order l -> StronglySorted in_order (insert_sorted x l).
Proof.
  induction 1 as [|y l Hl IH Hy]; cbn.
  - repeat constructor.
  - destruct (key_le (fst x) (fst y)) eqn:Hxy.
    + constructor; [now constructor|]. constructor; [exact Hxy|].
      eapply List.Forall_impl; [|exact Hy]. intros z Hz. exact (key_le_trans _ _ _ Hxy Hz).
    + constructor; [exact IH|].
      assert (Hyx : in_order y x) by (destruct (key_le_total (fst x) (fst y)); [congruence|assumption]).
      eapply Permutation_Forall; [symmetry; apply insert_sorted_perm|].
      now constructor.
Qed.

Lemma order_by_perm (l : list ((value * value) * A)) : Permutation (order_by l) l.
Proof.
  induction l as [|x l IH]; cbn; [reflexivity|].
  rewrite insert_sorted_perm. now constructor.
Qed.

Lemma order_by_sorted (l : list ((value * value) * A)) : StronglySorted in_order (order_by l).
Proof.
  induction l as [|x l IH]; cbn; [constructor|]. now apply insert_sorted_sorted.
Qed.

End Sorting.

(** ** The loader *)

Lemma convert_typed key v v' :
  Loader.convert key v = Ok v' -> typed_as key v v'.
Proof.
  unfold Loader.convert, Loader.FIELD_CONVERTERS. cbn [list_to_map foldr curry fst snd uncurry].
  repeat (rewrite lookup_insert; case_decide;
          [ subst key; unfold py_float, py_int; intros Hc; apply bind_ok in Hc as (x & Hx & Hc);
            injection Hc as <-; (apply as_float || apply as_integer); [cbn; tauto | exact Hx] |]).
  rewrite lookup_empty. intros Hc. injection Hc as <-. apply as_it_is.
  cbn. intuition congruence.
Qed.

(** C2, amended: [load_csv] stores a float for each cell under [price],
    [order_total] or [amount], an integer for each cell under [in_stock],
    [quantity] or [rating], and every other cell, as well as the surplus
    fields of a row, as read. The name of the column alone decides, whatever
    the file. *)
Theorem load_csv_typing (filename : string) (w : world) (rows : list Csv.row) :
  Loader.load_csv filename w = Ok rows ->
  exists content raw,
    data_dir w ≫= (fun files => files !! filename) = Some content /\
    Csv.DictReader content = Ok raw /\
    Forall2 (fun r r' =>
      Csv.rest r' = Csv.rest r /\
      Forall2 (fun c c' => fst c' = fst c /\ typed_as (fst c) (snd c) (snd c'))
              (Csv.named r) (Csv.named r')) raw rows.
Proof.
  unfold Loader.load_csv. intros H.
  destruct (data_dir w ≫= _) as [content|]; [|discriminate].
  apply bind_ok in H as (raw & Hraw & H). exists content, raw. repeat split; [exact Hraw|].
  apply mapM_ok in H. eapply Forall2_impl; [exact H|].
  intros r r' Hr. unfold Loader.process in Hr. cbn beta in Hr.
  apply bind_ok in Hr as (cells & Hcells & Hr). injection Hr as <-. cbn. split; [reflexivity|].
  apply mapM_ok in Hcells. eapply Forall2_impl; [exact Hcells|].
  intros [k v] [k' v'] Hc. cbn in Hc. apply bind_ok in Hc as (v1 & Hv1 & Hc).
  injection Hc as <- <-. cbn. split; [reflexivity|]. now apply convert_typed.
Qed.

Lemma drop_without_enforcement name c :
  foreign_keys c = false ->
  drop_table_if_exists name c =
    (Ok tt, Connection (delete name (tables c)) (rollback_to c) false
                       (trace c ++ [(DROP_TABLE_IF_EXISTS name, false)])).
Proof.
  intros Hfk. destruct c as [d rb fk tr]. simpl in Hfk. subst fk.
  unfold drop_table_if_exists, and_then, update, logged, with_tables. simpl.
  destruct (d !! name) as [t|] eqn:Hd; simpl.
  - reflexivity.
  - now rewrite delete_id.
Qed.

Lemma drops_without_enforcement names c :
  foreign_keys c = false ->
  for_each names drop_table_if_exists c =
    (Ok tt, Connection (foldl (fun d n => delete n d) (tables c) names) (rollback_to c) false
                       (trace c ++ map (fun n => (DROP_TABLE_IF_EXISTS n, false)) names)).
Proof.
  revert c. induction names as [|n names IH]; intros c Hfk.
  - destruct c as [d rb fk tr]. simpl in *. subst. now rewrite app_nil_r.
  - cbn [for_each]. erewrite and_then_ok by (apply drop_without_enforcement; exact Hfk).
    rewrite IH by reflexivity. cbn. now rewrite <- app_assoc.
Qed.

Lemma create_fresh_table s c :
  tables c !! sch_name s = None ->
  create_table s c =
    (Ok tt, Connection (<[sch_name s := Table s []]> (tables c)) (rollback_to c) (foreign_keys c)
                       (trace c ++ [(CREATE_TABLE s, foreign_keys c)])).
Proof.
  intros Hd. destruct c as [d rb fk tr]. simpl in Hd.
  unfold create_table, and_then, update, logged, with_tables. simpl.
  now rewrite Hd.
Qed.

Lemma create_fresh_tables script c :
  NoDup (map sch_name script) ->
  (forall s, s ∈ script -> tables c !! sch_name s = None) ->
  for_each script create_table c =
    (Ok tt, Connection (foldl (fun d s => <[sch_name s := Table s []]> d) (tables c) script)
                       (rollback_to c) (foreign_keys c)
                       (trace c ++ map (fun s => (CREATE_TABLE s, foreign_keys c)) script)).
Proof.
  revert c. induction script as [|s script IH]; intros c Hnd Hfresh.
  - destruct c as [d rb fk tr]. simpl. now rewrite app_nil_r.
  - cbn [map] in Hnd. apply NoDup_cons in Hnd as [Hs Hnd].
    cbn [for_each]. erewrite and_then_ok by (apply create_fresh_table, Hfresh; left).
    rewrite IH; cbn.
    + now rewrite <- app_assoc.
    + exact Hnd.
    + intros s' Hs'. rewrite lookup_insert_ne.
      * apply Hfresh. now right.
      * intros Heq. apply Hs. rewrite Heq. apply list_elem_of_In, in_map, list_elem_of_In, Hs'.
Qed.

Lemma lookup_dropped names n (d : database) :
  n ∈ names -> foldl (fun d n => delete n d) d names !! n = None.
Proof.
  revert d. induction names as [|m names IH]; intros d Hin.
  - inversion Hin.
  - cbn. destruct (decide (n ∈ names)) as [Hn|Hn].
    + now apply IH.
    + apply elem_of_cons in Hin as [->|Hin]; [|contradiction].
      clear IH Hn. revert d. induction names as [|k names IH]; intros d.
      * cbn. apply lookup_delete_eq.
      * cbn. rewrite delete_delete. apply IH.
Qed.

Lemma reset_tables_fresh file :
  Loader.reset_tables (connect file) =
    (Ok tt, Connection (fresh_tables (default ∅ file)) None true reset_trace).
Proof.
  unfold Loader.reset_tables, connect. generalize (default ∅ file). intros d.
  rewrite (and_then_ok _ _ _ tt (Connection d None false [(PRAGMA_foreign_keys false, false)])) by reflexivity.
  erewrite and_then_ok by (apply drops_without_enforcement; reflexivity).
  cbn [tables rollback_to foreign_keys trace].
  erewrite and_then_ok by reflexivity.
  erewrite and_then_ok by reflexivity.
  erewrite (and_then_ok (executescript _)).
  2:{ unfold executescript. erewrite and_then_ok by reflexivity.
      apply create_fresh_tables.
      - apply (bool_decide_unpack _). reflexivity.
      - intros s Hs. cbn [tables commit rollback_to pragma_foreign_keys logged].
        apply lookup_dropped. 
        apply list_elem_of_In. apply list_elem_of_In in Hs. cbn in Hs |- *. 
        intuition (subst; cbn; auto 10). }
  reflexivity.
Qed.

(** C6: the schema reset returns on any database file. It turns the
    enforcement of foreign keys off, drops payments, reviews, orders,
    products and users, in this order and without enforcement, turns the
    enforcement on, and creates users, products, orders, reviews and
    payments, in this order and under enforcement, which is on at the end.
    Read from a database without tables, no table is created before the
    tables it references. *)
Theorem schema_reset_order (file : option database) :
  exists c,
    Loader.reset_tables (connect file) = (Ok tt, c) /\
    trace c =
      [ (PRAGMA_foreign_keys false, false);
        (DROP_TABLE_IF_EXISTS "payments", false);
        (DROP_TABLE_IF_EXISTS "reviews", false);
        (DROP_TABLE_IF_EXISTS "orders", false);
        (DROP_TABLE_IF_EXISTS "products", false);
        (DROP_TABLE_IF_EXISTS "users", false);
        (PRAGMA_foreign_keys true, false);
        (CREATE_TABLE Loader.users_schema, true);
        (CREATE_TABLE Loader.products_schema, true);
        (CREATE_TABLE Loader.orders_schema, true);
        (CREATE_TABLE Loader.reviews_schema, true);
        (CREATE_TABLE Loader.payments_schema, true) ] /\
    foreign_keys c = true /\
    references_exist [] (trace c) = true.
Proof.
  eexists. split; [apply reset_tables_fresh|].
  cbn [trace foreign_keys]. repeat split; reflexivity.
Qed.

(** C5: when the directory [data] does not exist, the loader raises
    [FileNotFoundError] and leaves the repository as it found it: the
    database file is what it was, and no statement has run against it. *)
Theorem loader_missing_data_dir (w : world) :
  data_dir w = None ->
  Loader.main w = (Raise (FileNotFoundError ("Data directory not found: " ++ path w "data")), w).
Proof.
  intros Hdir. unfold Loader.main. now rewrite Hdir.
Qed.

(** ** The generator *)

Section GeneratorFacts.
Import Generator.

Lemma price_lookup_ok : exists lookup, price_lookup_of generate_products [] = Ok lookup.
Proof. eexists. vm_compute. reflexivity. Qed.

Lemma make_order_exact idx user product q lookup order :
  (idx < 15)%nat -> 1 <= q <= 4 ->
  item generate_products idx = Ok product ->
  price_lookup_of generate_products [] = Ok lookup ->
  make_order idx user product q lookup = Ok order ->
  total_is_exact generate_products order.
Proof.
  intros Hidx Hq Hp Hl H.
  pose proof (item_In _ _ _ Hp) as Hin.
  vm_compute in Hl. injection Hl as <-.
  unfold make_order in H.
  bind_step H. bind_step H. bind_step H. bind_step H. bind_step H. injection H as <-.
  assert (Hq' : q = 1 \/ q = 2 \/ q = 3 \/ q = 4) by lia.
  do 15 (destruct idx as [|idx];
    [ vm_compute in Hp; injection Hp as <-;
      vm_compute in Hx1; injection Hx1 as <-;
      vm_compute in Hx2; injection Hx2 as <-;
      destruct Hq' as [-> | [-> | [-> | ->]]];
      vm_compute in Hx3; injection Hx3 as <-;
      (eexists _, _, _, _; split; [reflexivity|]; split; [exact Hin|];
       split; [reflexivity|]; split; [reflexivity|]; split; [reflexivity|];
       vm_compute; reflexivity)
    | ]).
  lia.
Qed.

Lemma orders_loop_exact fuel users lookup idxs rng orders result :
  price_lookup_of generate_products [] = Ok lookup ->
  Forall (fun idx => (idx < 15)%nat) idxs ->
  wf rng ->
  Forall (total_is_exact generate_products) orders ->
  orders_loop fuel users generate_products lookup idxs rng orders = Ok result ->
  Forall (total_is_exact generate_products) result.
Proof.
  intros Hl Hidxs. revert rng orders.
  induction Hidxs as [|idx idxs Hidx Hidxs IH]; intros rng orders Hrng Horders H;
    cbn [orders_loop] in H.
  - now injection H as <-.
  - bind_step H. bind_step H. bind_step H. destruct x1 as [q rng']. bind_step H.
    apply randint_range in Hx1 as [Hq Hrng']; [|exact Hrng].
    apply IH in H; [exact H | exact Hrng' |].
    apply Forall_app. split; [exact Horders|]. constructor; [|constructor].
    eapply make_order_exact; eauto.
Qed.

(** C1: every order the generator produces has, as its [order_total], its
    quantity times the price of the product its [product_id] names, written
    with two decimals. The prices have two decimals, so the product is an
    exact number of hundredths, and the float product and its rounding by
    the format give exactly that number. *)
Theorem order_total_is_quantity_times_price fuel users orders :
  generate_orders fuel users generate_products = Ok orders ->
  Forall (total_is_exact generate_products) orders.
Proof.
  unfold generate_orders. intros H. bind_step H.
  eapply orders_loop_exact; [exact Hx | | apply Random_wf | constructor | exact H].
  apply Forall_forall. intros idx Hidx. apply list_elem_of_In, in_seq in Hidx. lia.
Qed.

Lemma make_payment_fields idx order payment :
  make_payment idx order = Ok payment ->
  exists total,
    dict_get "order_total" order = Some total /\
    dict_get "amount" payment = Some total /\
    dict_get "order_id" payment = dict_get "order_id" order.
Proof.
  unfold make_payment. intros H. do 4 bind_step H. injection H as <-.
  apply dict_item_get in Hx, Hx0. exists x0. rewrite Hx, Hx0. repeat split; reflexivity.
Qed.

Lemma payments_loop_fields idx orders payments :
  payments_loop idx orders = Ok payments ->
  Forall2 (fun order payment =>
             exists total,
               dict_get "order_total" order = Some total /\
               dict_get "amount" payment = Some total /\
               dict_get "order_id" payment = dict_get "order_id" order)
          orders payments.
Proof.
  revert idx payments. induction orders as [|order orders IH]; intros idx payments H;
    cbn [payments_loop] in H.
  - injection H as <-. constructor.
  - do 2 bind_step H. injection H as <-. constructor.
    + now apply make_payment_fields in Hx.
    + now apply IH in Hx0.
Qed.

(** C10: every payment the generator builds from orders with distinct
    identifiers has for its [amount] the very value of [order_total] of the
    one order it names. *)
Theorem payment_amount_is_order_total orders payments :
  generate_payments orders = Ok payments ->
  NoDup (map (dict_get "order_id") orders) ->
  forall payment, In payment payments ->
    exists order total,
      In order orders /\
      dict_get "order_id" order = dict_get "order_id" payment /\
      dict_get "order_total" order = Some total /\
      dict_get "amount" payment = Some total /\
      (forall other, In other orders ->
         dict_get "order_id" other = dict_get "order_id" payment -> other = order).
Proof.
  unfold generate_payments. intros H Hnd payment Hin.
  apply payments_loop_fields in H.
  destruct (Forall2_In_r _ _ _ _ H Hin) as (order & Horder & total & Htotal & Hamount & Hid).
  exists order, total. repeat split; auto.
  intros other Hother Hsame. apply (NoDup_map_eq (dict_get "order_id") orders); auto.
  congruence.
Qed.

End GeneratorFacts.

(** ** Runs of the generator *)

Section GeneratorRuns.
Import Generator.

Lemma default_users : generate_users = Ok Default.users.
Proof. vm_compute. reflexivity. Qed.

Lemma default_products : generate_products = Default.products.
Proof. vm_compute. reflexivity. Qed.

Lemma default_orders n users :
  generate_users = Ok users ->
  generate_orders (5 + n) users generate_products = Ok Default.orders.
Proof. rewrite default_users. intros H. injection H as <-. vm_compute. reflexivity. Qed.

Lemma default_reviews n : generate_reviews (5 + n) Default.orders = Ok Default.reviews.
Proof. vm_compute. reflexivity. Qed.

Lemma default_payments : generate_payments Default.orders = Ok Default.payments.
Proof. vm_compute. reflexivity. Qed.

Lemma users_text : writes users_fields Default.users Default.users_csv.
Proof. intros float_repr. vm_compute. reflexivity. Qed.

Lemma products_text : writes products_fields generate_products Default.products_csv.
Proof. intros float_repr. vm_compute. reflexivity. Qed.

Lemma orders_text : writes orders_fields Default.orders Default.orders_csv.
Proof. intros float_repr. vm_compute. reflexivity. Qed.

Lemma reviews_text : writes reviews_fields Default.reviews Default.reviews_csv.
Proof. intros float_repr. vm_compute. reflexivity. Qed.

Lemma payments_text : writes payments_fields Default.payments Default.payments_csv.
Proof. intros float_repr. vm_compute. reflexivity. Qed.

Lemma write_csv_default float_repr filename fieldnames rows content w files :
  writes fieldnames rows content ->
  data_dir w = Some files ->
  write_csv float_repr filename fieldnames rows w
  = (Ok tt, set_data_dir (<[filename := content]> files) w).
Proof.
  intros Htext Hdir. unfold write_csv. rewrite Hdir, Htext. reflexivity.
Qed.

Lemma lift_ok {S A B : Type} (r : result A) (k : A -> action S B) a s :
  r = Ok a -> and_then (lift r) k s = k a s.
Proof. intros ->. reflexivity. Qed.

Lemma main_default float_repr n w files :
  data_dir w = Some files ->
  main float_repr (5 + n) w
  = (Ok tt, print ("Generated CSV files in " ++ path w "data") (set_data_dir (written files) w)).
Proof.
  intros Hdir. unfold main, written.
  rewrite (lift_ok _ _ _ _ default_users).
  rewrite (lift_ok _ _ _ _ (default_orders n _ default_users)).
  rewrite (lift_ok _ _ _ _ (default_reviews n)).
  rewrite (lift_ok _ _ _ _ default_payments).
  erewrite and_then_ok by (apply write_csv_default; [apply users_text | exact Hdir]).
  erewrite and_then_ok by (apply write_csv_default; [apply products_text | reflexivity]).
  erewrite and_then_ok by (apply write_csv_default; [apply orders_text | reflexivity]).
  erewrite and_then_ok by (apply write_csv_default; [apply reviews_text | reflexivity]).
  erewrite and_then_ok by (apply write_csv_default; [apply payments_text | reflexivity]).
  reflexivity.
Qed.

Lemma script_default float_repr n w :
  script float_repr (5 + n) w
  = (Ok tt, print ("Generated CSV files in " ++ path w "data")
              (set_data_dir (written (mkdir (data_dir w))) w)).
Proof.
  unfold script. erewrite and_then_ok by reflexivity.
  now rewrite (main_default _ _ _ (mkdir (data_dir w))).
Qed.

Lemma written_files (files : gmap string string) :
  written files !! "users.csv" = Some Default.users_csv /\
  written files !! "products.csv" = Some Default.products_csv /\
  written files !! "orders.csv" = Some Default.orders_csv /\
  written files !! "reviews.csv" = Some Default.reviews_csv /\
  written files !! "payments.csv" = Some Default.payments_csv.
Proof.
  unfold written. repeat split;
    repeat (rewrite lookup_insert_ne by discriminate); apply lookup_insert_eq.
Qed.

(** C3: the generator returns, and each of the five files it leaves has the
    same content in any two runs: whatever the repository held before,
    however a float would be written, and whatever bound of at least five
    tries is put on the drawing of a random number. *)
Theorem generator_is_deterministic float_repr float_repr' n n' w w' :
  fst (script float_repr (5 + n) w) = Ok tt /\
  forall name, In name Default.csv_files ->
    exists content,
      data_file name (snd (script float_repr (5 + n) w)) = Some content /\
      data_file name (snd (script float_repr' (5 + n') w')) = Some content.
Proof.
  rewrite !script_default. split; [reflexivity|].
  intros name Hname. unfold data_file. cbn [snd print set_data_dir data_dir mbind option_bind].
  destruct (written_files (mkdir (data_dir w))) as (Hu & Hp & Ho & Hr & Hy).
  destruct (written_files (mkdir (data_dir w'))) as (Hu' & Hp' & Ho' & Hr' & Hy').
  cbn in Hname. destruct Hname as [<-|[<-|[<-|[<-|[<-|[]]]]]]; eexists; split; eassumption.
Qed.
Ltac in_list := cbn; repeat first [left; reflexivity | right].

Ltac each_row H :=
  cbn in H; repeat (destruct H as [<-|H]; [eexists; split; [reflexivity | in_list]|]); destruct H.

Ltac distinct :=
  lazymatch goal with
  | |- NoDup _ =>
      cbn; repeat (apply NoDup_cons_2; [rewrite list_elem_of_In; cbn; intuition discriminate|]);
      apply NoDup_nil_2
  | |- ~ In None _ => cbn; intuition discriminate
  end.

(** C8: the generator builds its five record sets, and in them every order
    names a user and a product that exist, every review and every payment
    names an order that exists, and no identifier occurs twice in its
    record set. *)
Theorem generated_ids_are_consistent n :
  exists users orders reviews payments,
    generate_users = Ok users /\
    generate_orders (5 + n) users generate_products = Ok orders /\
    generate_reviews (5 + n) orders = Ok reviews /\
    generate_payments orders = Ok payments /\
    refers_to "user_id" orders users /\
    refers_to "product_id" orders generate_products /\
    refers_to "order_id" reviews orders /\
    refers_to "order_id" payments orders /\
    unique_ids "user_id" users /\
    unique_ids "product_id" generate_products /\
    unique_ids "order_id" orders /\
    unique_ids "review_id" reviews /\
    unique_ids "payment_id" payments.
Proof.
  exists Default.users, Default.orders, Default.reviews, Default.payments.
  split; [apply default_users|].
  split; [apply default_orders, default_users|].
  split; [apply default_reviews|].
  split; [apply default_payments|].
  rewrite default_products.
  split; [intros r Hr; each_row Hr|].
  split; [intros r Hr; each_row Hr|].
  split; [intros r Hr; each_row Hr|].
  split; [intros r Hr; each_row Hr|].
  repeat split; distinct.
Qed.
End GeneratorRuns.

(** ** The reporter *)

Section Ascending.
Import Reporter.

Lemma text_le_compare s : forall t, text_le s t <-> String.compare s t <> Gt.
Proof.
  induction s as [|a s IH]; intros [|b t]; cbn [text_le String.compare].
  - split; [discriminate | trivial].
  - split; [discriminate | trivial].
  - split; [contradiction | congruence].
  - unfold Ascii.compare.
    destruct (N.compare_spec (N_of_ascii a) (N_of_ascii b)) as [E|L|G].
    + assert (a = b) as -> by (rewrite <- (ascii_N_embedding a), E; apply ascii_N_embedding).
      rewrite <- IH. split; [intros [H|[_ H]]; [lia | exact H] | auto].
    + split; [discriminate | auto].
    + split; [intros [H|[-> _]]; lia | congruence].
Qed.

(** The ascending order of stored values is the one SQLite compares them
    in. *)
Lemma ascending_compare a b : ascending a b <-> compare_values a b <> Gt.
Proof.
  destruct a as [|x|f|s], b as [|y|g|t]; cbn [ascending compare_values storage_class];
    try apply text_le_compare; try reflexivity;
    (split; [intros H; (lia || discriminate) | intros H; (lia || congruence)]).
Qed.

Lemma key_le_by_date_then_id a b : key_le a b = true -> by_date_then_id a b.
Proof.
  destruct value_ordering as [Va _ _]. unfold key_le, by_date_then_id.
  rewrite !ascending_compare, (Va (fst b) (fst a)).
  destruct (compare_values (fst a) (fst b)); cbn [CompOpp]; try discriminate.
  - destruct (compare_values (snd a) (snd b)); try discriminate;
      intros _; split; try discriminate; intros _; discriminate.
  - intros _. split; [discriminate | congruence].
Qed.

Lemma sorted_weaken {A : Type} (R R' : A -> A -> Prop) l :
  (forall x y, R x y -> R' x y) -> StronglySorted R l -> StronglySorted R' l.
Proof.
  intros HR. induction 1 as [|x l Hl IH Hx]; constructor; [exact IH|].
  eapply List.Forall_impl; [|exact Hx]. intros y. apply HR.
Qed.

Lemma order_by_ascending {A : Type} (l : list ((value * value) * A)) :
  StronglySorted (fun x y => by_date_then_id (fst x) (fst y)) (order_by l).
Proof.
  eapply sorted_weaken; [|apply order_by_sorted].
  intros x y. apply key_le_by_date_then_id.
Qed.

Lemma column_index_field t name i row :
  column_index (tbl_schema t) name = Ok i -> field t name row = cell i row.
Proof.
  unfold column_index, field. destruct (index_of name _); [|discriminate].
  intros H. now injection H as ->.
Qed.

(** Every joined row comes from a row of [orders], whose date and identifier
    are its sort key and whose date is its third column. *)
Lemma joined_of_orders d js :
  joined d = Ok js ->
  exists orders,
    d !! "orders" = Some orders /\
    Forall (fun r => exists orow,
              In orow (tbl_rows orders) /\
              fst r = (field orders "order_date" orow, field orders "order_id" orow) /\
              snd r !! 2%nat = Some (field orders "order_date" orow)) js.
Proof.
  unfold joined, get_table. intros H.
  destruct (d !! "orders") as [o|]; [|discriminate].
  destruct (d !! "users") as [u|]; [|discriminate].
  destruct (d !! "products") as [pr|]; [|discriminate].
  destruct (d !! "reviews") as [r|]; [|discriminate].
  destruct (d !! "payments") as [pay|]; [|discriminate].
  cbn [bind] in H. apply bind_ok in H as (ix & Hix & H). injection H as <-.
  exists o. split; [reflexivity|].
  unfold resolve in Hix.
  apply bind_ok in Hix as (i1 & _ & Hix). apply bind_ok in Hix as (i2 & _ & Hix).
  apply bind_ok in Hix as (i3 & Hdate & Hix). apply bind_ok in Hix as (i4 & _ & Hix).
  apply bind_ok in Hix as (i5 & _ & Hix). apply bind_ok in Hix as (i6 & _ & Hix).
  apply bind_ok in Hix as (i7 & _ & Hix). apply bind_ok in Hix as (i8 & _ & Hix).
  apply bind_ok in Hix as (i9 & _ & Hix). apply bind_ok in Hix as (i10 & _ & Hix).
  apply bind_ok in Hix as (i11 & Hid & Hix). apply bind_ok in Hix as (i12 & _ & Hix).
  injection Hix as <-.
  apply List.Forall_forall. intros row Hrow.
  apply in_flat_map in Hrow as (orow & Horow & Hrow). exists orow.
  rewrite (column_index_field o "order_date" i3 orow Hdate),
          (column_index_field o "order_id" i11 orow Hid).
  split; [exact Horow|]. unfold order_rows in Hrow.
  cbn [o_order_date o_order_id] in Hrow.
  apply in_flat_map in Hrow as (urow & _ & Hrow).
  apply in_flat_map in Hrow as (prrow & _ & Hrow).
  apply in_flat_map in Hrow as (rrow & _ & Hrow).
  apply in_map_iff in Hrow as (payrow & <- & _). split; reflexivity.
Qed.

End Ascending.

Section ReporterFacts.
Import Reporter.

Lemma header_line float_repr :
  Csv.writerow float_repr (map PStr headers)
  = "user_name,product_name,order_date,review_rating,payment_status" ++ crlf.
Proof. reflexivity. Qed.

(** C7: when the reporter returns, the rows it writes are the joined rows of
    [QUERY], each a row of an order of the table [orders], and they stand in
    ascending order of the [order_date] of their orders and, where the dates
    are the same, in ascending order of the [order_id]; the file
    [order_summary.csv] is the line
    [user_name,product_name,order_date,review_rating,payment_status]
    followed by one line for each row, in that order. *)
Theorem report_is_ordered float_repr w w' :
  Reporter.main float_repr w = (Ok tt, w') ->
  exists d orders rows,
    db_file w = Some d /\ d !! "orders" = Some orders /\
    (exists js, joined d = Ok js /\ Permutation rows js) /\
    Forall (fun r => exists orow,
              In orow (tbl_rows orders) /\
              fst r = (field orders "order_date" orow, field orders "order_id" orow) /\
              snd r !! 2%nat = Some (field orders "order_date" orow)) rows /\
    StronglySorted (fun x y => by_date_then_id (fst x) (fst y)) rows /\
    output_file "order_summary.csv" w'
    = Some ("user_name,product_name,order_date,review_rating,payment_status" ++ crlf
            ++ String.concat "" (map (fun r => Csv.writerow float_repr (snd r)) rows)).
Proof.
  unfold Reporter.main, and_then, fetch_order_summary, QUERY.
  destruct (db_file w) as [d|] eqn:Hd; [|discriminate].
  destruct (joined d) as [js| |] eqn:Hjs; cbn [bind]; try discriminate.
  unfold write_summary, update. intros H. injection H as <-.
  destruct (joined_of_orders d js Hjs) as (orders & Horders & Hrows).
  exists d, orders, (order_by js). split; [reflexivity|]. split; [exact Horders|].
  split; [exists js; split; [exact Hjs | apply order_by_perm]|].
  split; [eapply Permutation_Forall; [symmetry; apply order_by_perm | exact Hrows]|].
  split; [apply order_by_ascending|].
  unfold output_file. cbn [print set_output_dir output_dir mbind option_bind].
  rewrite lookup_insert_eq. unfold summary_text. rewrite header_line, map_map. reflexivity.
Qed.

End ReporterFacts.

(** ** Keys, loads and joins *)

Section KeyFacts.
Import Reporter.

Lemma sql_eq_compare a b :
  sql_eq a b = true <-> is_none a = false /\ is_none b = false /\ compare_values a b = Eq.
Proof.
  unfold sql_eq. destruct a, b; cbn -[compare_values];
    try destruct (compare_values _ _); intuition congruence.
Qed.

(** Two values equal to a third are equal. *)
Lemma sql_eq_euclid a b k : sql_eq a k = true -> sql_eq b k = true -> sql_eq a b = true.
Proof.
  rewrite !sql_eq_compare. intros (Ha & Hk & Hak) (Hb & _ & Hbk). repeat split; auto.
  destruct value_ordering as [Va Ve _].
  rewrite (Ve _ _ b Hak), Va, Hbk. reflexivity.
Qed.

Lemma matching_app rows rows' j key :
  matching (rows ++ rows') j key = (matching rows j key ++ matching rows' j key)%list.
Proof. unfold matching. apply List.filter_app. Qed.

Lemma matching_In rows j key row :
  In row (matching rows j key) <-> In row rows /\ sql_eq (cell j row) key = true.
Proof. unfold matching. apply filter_In. Qed.

Lemma keys_unique_snoc rows row j :
  keys_unique rows j ->
  (forall old, In old rows -> sql_eq (cell j old) (cell j row) = false) ->
  keys_unique (rows ++ [row]) j.
Proof.
  intros Hu Hnew key. rewrite matching_app, length_app. specialize (Hu key).
  unfold matching at 2. cbn [List.filter].
  destruct (sql_eq (cell j row) key) eqn:Hrow; cbn [length]; [|lia].
  destruct (matching rows j key) as [|old olds] eqn:Hold; cbn [length]; [lia|].
  exfalso. assert (Hin : In old (matching rows j key)) by (rewrite Hold; now left).
  apply matching_In in Hin as [Hin Heq].
  specialize (Hnew old Hin). rewrite (sql_eq_euclid _ _ _ Heq Hrow) in Hnew. discriminate.
Qed.

Lemma keys_exist_grow rows i parents parent j :
  keys_exist rows i parents j -> keys_exist rows i (parents ++ [parent]) j.
Proof.
  intros He row Hrow. rewrite matching_app. specialize (He row Hrow).
  destruct (matching parents j (cell i row)); [contradiction | discriminate].
Qed.

Lemma keys_exist_snoc rows row i parents j :
  keys_exist rows i parents j ->
  existsb (fun prow => sql_eq (cell j prow) (cell i row)) parents = true ->
  keys_exist (rows ++ [row]) i parents j.
Proof.
  intros He Hrow r Hr. apply in_app_or in Hr as [Hr|[<-|[]]]; [now apply He|].
  apply existsb_exists in Hrow as (prow & Hin & Heq).
  intros Hnone. assert (H : In prow (matching parents j (cell i row))) by now apply matching_In.
  rewrite Hnone in H. destruct H.
Qed.

End KeyFacts.

Section LoaderFacts.
Import Reporter Loader.

Lemma insert_row_ok table columns params c c' :
  insert_row table columns params c = (Ok tt, c') ->
  exists t bound,
    let row := new_row (tbl_schema t) columns bound in
    tables c !! table = Some t /\
    not_null_ok (tbl_schema t) row = true /\
    primary_key_ok t row = true /\
    (foreign_keys c = true -> foreign_keys_ok (tables c) (tbl_schema t) row = true) /\
    tables c' = <[table := Table (tbl_schema t) (tbl_rows t ++ [row])]> (tables c) /\
    foreign_keys c' = foreign_keys c /\
    rollback_to c' = rollback_to c.
Proof.
  unfold insert_row, and_then, lift, update, logged, with_tables.
  destruct (mapM bind_value params) as [bound| |]; try discriminate.
  cbn [tables foreign_keys rollback_to trace].
  destruct (tables c !! table) as [t|] eqn:Ht; [|discriminate].
  destruct (not_null_ok _ _) eqn:Hnn; cbn [negb]; [|discriminate].
  destruct (primary_key_ok _ _) eqn:Hpk; cbn [negb]; [|discriminate].
  destruct (foreign_keys c && negb _) eqn:Hfk; [discriminate|].
  intros H. injection H as <-. exists t, bound. cbn.
  repeat split; auto.
  intros Hon. rewrite Hon in Hfk. cbn in Hfk. now apply negb_false_iff in Hfk.
Qed.

Lemma rows_of_insert (d : database) n s rows m :
  rows_of (<[n := Table s rows]> d) m = if decide (n = m) then rows else rows_of d m.
Proof. unfold rows_of. rewrite lookup_insert. now case_decide. Qed.

(** A primary key check that passes: no older row has the key of the new
    one at the position of a primary key column. *)
Lemma primary_key_ok_spec t row i col old :
  primary_key_ok t row = true ->
  sch_columns (tbl_schema t) !! i = Some col -> primary_key col = true ->
  In old (tbl_rows t) -> sql_eq (cell i old) (cell i row) = false.
Proof.
  unfold primary_key_ok. rewrite forallb_forall. intros Hall Hcol Hpk Hold.
  specialize (Hall (i, col)). cbn beta iota in Hall. rewrite Hpk in Hall. cbn [negb orb] in Hall.
  apply negb_true_iff in Hall.
  - apply not_true_is_false. intros Heq.
    assert (existsb (fun old => sql_eq (cell i old) (cell i row)) (tbl_rows t) = true) as Hex
      by (apply existsb_exists; eauto).
    congruence.
  - apply list_elem_of_In, list_elem_of_lookup. exists i. rewrite list_lookup_imap, Hcol. reflexivity.
Qed.

(** A foreign key check that passes: the key is [NULL] or a row of the
    parent table has it. *)
Lemma foreign_keys_ok_spec d s row fk i pt j :
  foreign_keys_ok d s row = true -> In fk (sch_fks s) ->
  index_of (fk_column fk) (column_names s) = Some i ->
  d !! ref_table fk = Some pt ->
  index_of (ref_column fk) (column_names (tbl_schema pt)) = Some j ->
  is_none (cell i row) = true \/
  existsb (fun prow => sql_eq (cell j prow) (cell i row)) (tbl_rows pt) = true.
Proof.
  unfold foreign_keys_ok. rewrite forallb_forall. intros Hall Hfk Hi Hpt Hj.
  specialize (Hall fk Hfk). rewrite Hi, Hpt, Hj in Hall. now apply orb_true_iff in Hall.
Qed.

(** A [NOT NULL] check that passes: the new row has a value in every column
    declared [NOT NULL]. *)
Lemma not_null_ok_spec s cols bound i col :
  not_null_ok s (new_row s cols bound) = true ->
  sch_columns s !! i = Some col -> not_null col = true ->
  is_none (cell i (new_row s cols bound)) = false.
Proof.
  unfold not_null_ok, new_row, cell. generalize (sch_columns s). intros l. revert i.
  induction l as [|c l IH]; intros i Hall Hcol Hnn; [discriminate|].
  cbn [map zip zip_with forallb] in Hall. apply andb_true_iff in Hall as [Hc Hall].
  destruct i as [|i]; cbn in Hcol |- *.
  - injection Hcol as ->. rewrite Hnn in Hc. cbn in Hc. now apply negb_true_iff in Hc.
  - now apply IH.
Qed.

Lemma insert_row_keyed table cols params c c' :
  keyed (tables c) -> foreign_keys c = true ->
  insert_row table cols params c = (Ok tt, c') ->
  keyed (tables c').
Proof.
  intros [Htables Hunique Hexist] Hon H.
  apply insert_row_ok in H as (t & bound & Ht & Hnn & Hpk & Hfk & -> & _ & _).
  specialize (Hfk Hon). set (row := new_row (tbl_schema t) cols bound) in *.
  destruct t as [s rows]. cbn [tbl_schema tbl_rows] in *.
  split.
  - intros cfg Hcfg. destruct (Htables cfg Hcfg) as [rows0 Hrows0].
    rewrite lookup_insert. case_decide as Hn; [|eauto].
    subst table. rewrite Ht in Hrows0. injection Hrows0 as -> ->. eauto.
  - intros cfg Hcfg. rewrite rows_of_insert. case_decide as Hn; [|now apply Hunique].
    subst table. destruct (Htables cfg Hcfg) as [rows0 Hrows0].
    rewrite Ht in Hrows0. injection Hrows0 as -> ->.
    apply keys_unique_snoc.
    + specialize (Hunique cfg Hcfg). unfold rows_of in Hunique. now rewrite Ht in Hunique.
    + intros old Hold. cbn in Hcfg.
      destruct Hcfg as [<-|[<-|[<-|[<-|[<-|[]]]]]];
        (eapply primary_key_ok_spec; [exact Hpk | reflexivity | reflexivity | exact Hold]).
  - intros child i parent Hlink. rewrite !rows_of_insert.
    specialize (Hexist child i parent Hlink).
    assert (Hrows : rows_of (tables c) table = rows) by (unfold rows_of; now rewrite Ht).
    case_decide as Hchild; case_decide as Hparent; try subst table.
    + exfalso. subst parent. cbn in Hlink. intuition congruence.
    + rewrite Hrows in Hexist. apply keys_exist_snoc; [exact Hexist|].
      assert (exists cfg pcfg fk,
                In cfg TABLE_CONFIG /\ name cfg = child /\
                In pcfg TABLE_CONFIG /\ name pcfg = parent /\
                In fk (sch_fks (schema_of cfg)) /\ ref_table fk = parent /\
                index_of (fk_column fk) (column_names (schema_of cfg)) = Some i /\
                index_of (ref_column fk) (column_names (schema_of pcfg)) = Some 0%nat /\
                (exists col, sch_columns (schema_of cfg) !! i = Some col /\ not_null col = true))
        as (cfg & pcfg & fk & Hcfg & Hname & Hpcfg & Hpname & Hfkin & Href & Hi & Hj & col & Hcol & Hnotnull).
      { pose (cfg_at := fun n => nth n TABLE_CONFIG (Config "" "" [] (Schema "" [] []))).
        pose (fk_at := fun n k => nth k (sch_fks (schema_of (cfg_at n))) (ForeignKey "" "" "")).
        cbn in Hlink. destruct Hlink as [E|[E|[E|[E|[]]]]]; injection E as <- <- <-;
          [ exists (cfg_at 2%nat), (cfg_at 0%nat), (fk_at 2%nat 0%nat)
          | exists (cfg_at 2%nat), (cfg_at 1%nat), (fk_at 2%nat 1%nat)
          | exists (cfg_at 3%nat), (cfg_at 2%nat), (fk_at 3%nat 0%nat)
          | exists (cfg_at 4%nat), (cfg_at 2%nat), (fk_at 4%nat 0%nat) ];
          cbn;
          (split; [auto 10|]); (split; [reflexivity|]); (split; [auto 10|]); (split; [reflexivity|]);
          (split; [auto 10|]); (split; [reflexivity|]); (split; [reflexivity|]); (split; [reflexivity|]);
          eexists; split; reflexivity. }
      destruct (Htables cfg Hcfg) as [rows0 Hrows0]. rewrite Hname, Ht in Hrows0.
      injection Hrows0 as -> ->.
      destruct (Htables pcfg Hpcfg) as [prows Hprows]. rewrite Hpname in Hprows.
      unfold rows_of. rewrite Hprows. cbn [tbl_rows].
      rewrite <- Href in Hprows.
      destruct (foreign_keys_ok_spec _ _ _ fk i _ 0 Hfk Hfkin Hi Hprows Hj) as [Hnone|Hex];
        [|exact Hex].
      subst row. now rewrite (not_null_ok_spec _ _ _ _ _ Hnn Hcol Hnotnull) in Hnone.
    + rewrite Hrows in Hexist. now apply keys_exist_grow.
    + exact Hexist.
Qed.

End LoaderFacts.

Section LoaderRuns.
Import Reporter Loader.

Lemma and_then_inv {S A B : Type} (m : action S A) (k : A -> action S B) s b s' :
  and_then m k s = (Ok b, s') -> exists a s1, m s = (Ok a, s1) /\ k a s1 = (Ok b, s').
Proof.
  unfold and_then. destruct (m s) as [[a| |] s1]; intros H; [eauto | discriminate | discriminate].
Qed.

Lemma for_each_inv {S A : Type} (P : S -> Prop) (body : A -> action S unit) l :
  (forall x s s', body x s = (Ok tt, s') -> P s -> P s') ->
  forall s s', for_each l body s = (Ok tt, s') -> P s -> P s'.
Proof.
  intros Hbody. induction l as [|x l IH]; intros s s' H Hs; cbn [for_each] in H.
  - injection H as <-. exact Hs.
  - apply and_then_inv in H as ([] & s1 & Hx & H). eauto.
Qed.

Lemma insert_row_sound table cols params c c' :
  insert_row table cols params c = (Ok tt, c') -> sound c -> sound c'.
Proof.
  intros H [Hk Hon]. split; [now apply (insert_row_keyed _ _ _ _ _ Hk Hon H)|].
  apply insert_row_ok in H as (t & bound & _ & _ & _ & _ & _ & -> & _). exact Hon.
Qed.

Lemma begin_sound c : sound c -> sound (begin c).
Proof. unfold begin. destruct (rollback_to c); auto. Qed.

Lemma commit_sound c : sound c -> sound (commit c).
Proof. unfold commit. destruct (rollback_to c); auto. Qed.

Lemma insert_rows_sound table cols rows c c' :
  insert_rows table cols rows c = (Ok tt, c') -> sound c -> sound c'.
Proof.
  unfold insert_rows, executemany_insert. intros H Hc.
  apply and_then_inv in H as (data & c1 & Hdata & H).
  unfold lift in Hdata. injection Hdata as _ <-.
  apply and_then_inv in H as ([] & c2 & Hmany & H).
  apply and_then_inv in Hmany as (t & c3 & Hprep & Hmany). injection Hprep as _ <-.
  apply and_then_inv in Hmany as ([] & c4 & Hbegin & Hmany).
  unfold update in Hbegin, H. injection Hbegin as <-. injection H as <-.
  apply commit_sound.
  eapply (for_each_inv sound); [| exact Hmany | now apply begin_sound].
  intros params s s' Hrow. now apply (insert_row_sound _ _ _ _ _ Hrow).
Qed.

Lemma load_table_sound cfg w c w' c' :
  load_table cfg (w, c) = (Ok tt, (w', c')) -> sound c -> sound c'.
Proof.
  unfold load_table. intros H Hc.
  apply and_then_inv in H as (rows & [w1 c1] & Hload & H).
  unfold in_world in Hload. injection Hload as _ _ <-.
  apply and_then_inv in H as ([] & [w2 c2] & Hins & H).
  unfold in_world, update in H. injection H as _ <-.
  unfold in_conn in Hins. destruct (insert_rows _ _ _ c) as [r c3] eqn:Hrows.
  injection Hins as -> _ ->. now apply (insert_rows_sound _ _ _ _ _ Hrows).
Qed.

Lemma fresh_tables_lookup d cfg :
  In cfg TABLE_CONFIG -> fresh_tables d !! name cfg = Some (Table (schema_of cfg) []).
Proof.
  intros Hcfg. unfold fresh_tables.
  generalize (foldl (fun d n => delete n d) d (rev (map name TABLE_CONFIG))). intros d0.
  cbn in Hcfg. destruct Hcfg as [<-|[<-|[<-|[<-|[<-|[]]]]]]; cbn;
    repeat (rewrite lookup_insert_ne by (intros E; discriminate E)); apply lookup_insert_eq.
Qed.

Lemma fresh_tables_rows d cfg :
  In cfg TABLE_CONFIG -> rows_of (fresh_tables d) (name cfg) = [].
Proof. intros Hcfg. unfold rows_of. now rewrite (fresh_tables_lookup d cfg Hcfg). Qed.

Lemma fresh_tables_keyed d : keyed (fresh_tables d).
Proof.
  pose (cfg_at n := nth n TABLE_CONFIG (Config EmptyString EmptyString [] (Schema EmptyString [] []))).
  split.
  - intros cfg Hcfg. eauto using fresh_tables_lookup.
  - intros cfg Hcfg key. rewrite (fresh_tables_rows d cfg Hcfg). cbn. lia.
  - intros child i parent Hlink row.
    assert (rows_of (fresh_tables d) child = []) as ->; [|intros []].
    cbn in Hlink.
    destruct Hlink as [E|[E|[E|[E|[]]]]]; injection E as <- <- <-.
    + apply (fresh_tables_rows d (cfg_at 2%nat)). cbn. auto 10.
    + apply (fresh_tables_rows d (cfg_at 2%nat)). cbn. auto 10.
    + apply (fresh_tables_rows d (cfg_at 3%nat)). cbn. auto 10.
    + apply (fresh_tables_rows d (cfg_at 4%nat)). cbn. auto 10.
Qed.

(** A run of the loader that returns: the tables were reset, every table was
    loaded, and the file holds what the connection then saw. *)
Lemma main_ok w w' :
  Loader.main w = (Ok tt, w') ->
  exists w1 c,
    for_each TABLE_CONFIG load_table (w, reset_connection (db_file w)) = (Ok tt, (w1, c)) /\
    db_file w' = Some (tables c).
Proof.
  unfold Loader.main. destruct (data_dir w); [|discriminate].
  intros H. apply and_then_inv in H as ([] & w2 & H & Hprint). injection Hprint as <-.
  unfold with_connection in H.
  destruct (and_then _ _ _) as [r [w1 c]] eqn:Hbody. injection H as -> <-.
  apply and_then_inv in Hbody as ([] & [w0 c0] & Hreset & Hloads).
  unfold in_conn in Hreset. rewrite reset_tables_fresh in Hreset. injection Hreset as <- <-.
  exists w1, c. split; [exact Hloads|].
  cbn. unfold commit. destruct (rollback_to c); reflexivity.
Qed.

(** The database the loader leaves keeps the key constraints. *)
Lemma loaded_is_keyed w w' :
  Loader.main w = (Ok tt, w') -> exists d, db_file w' = Some d /\ keyed d.
Proof.
  intros H. apply main_ok in H as (w1 & c & Hloads & Hfile).
  exists (tables c). split; [exact Hfile|].
  enough (sound c) as [Hk _] by exact Hk.
  eapply (for_each_inv (fun s => sound (snd s))) in Hloads; [exact Hloads | | ].
  - intros cfg [wa ca] [wb cb] Hstep. exact (load_table_sound _ _ _ _ _ Hstep).
  - split; [apply fresh_tables_keyed | reflexivity].
Qed.

End LoaderRuns.

Section JoinFacts.
Import Reporter Loader.

Lemma joined_keyed d :
  keyed d -> joined d = Ok (flat_map (rows_for d) (rows_of d "orders")).
Proof.
  intros [Ht _ _].
  pose (cfg_at n := nth n TABLE_CONFIG (Config EmptyString EmptyString [] (Schema EmptyString [] []))).
  destruct (Ht (cfg_at 0%nat)) as [ru Hu]; [cbn; auto 10|].
  destruct (Ht (cfg_at 1%nat)) as [rp Hp]; [cbn; auto 10|].
  destruct (Ht (cfg_at 2%nat)) as [ro Ho]; [cbn; auto 10|].
  destruct (Ht (cfg_at 3%nat)) as [rr Hr]; [cbn; auto 10|].
  destruct (Ht (cfg_at 4%nat)) as [ry Hy]; [cbn; auto 10|].
  cbn [cfg_at nth TABLE_CONFIG name schema_of] in Hu, Hp, Ho, Hr, Hy.
  unfold joined, rows_for, rows_of, get_table. rewrite Hu, Hp, Ho, Hr, Hy.
  cbn [bind tbl_rows]. reflexivity.
Qed.

Lemma left_length rows j key : (1 <= length (left rows j key))%nat.
Proof. unfold left. destruct (matching rows j key); cbn; lia. Qed.

Lemma left_length_unique rows j key :
  keys_unique rows j -> length (left rows j key) = 1%nat.
Proof.
  intros Hu. specialize (Hu key). unfold left.
  destruct (matching rows j key) as [|r rs]; cbn in *; [reflexivity|].
  rewrite length_map. lia.
Qed.

Lemma inner_one rows i parents j row :
  keys_unique parents j -> keys_exist rows i parents j -> In row rows ->
  exists parent, inner parents j (cell i row) = [Some parent].
Proof.
  intros Hu He Hin. specialize (Hu (cell i row)). specialize (He row Hin). unfold inner.
  destruct (matching parents j (cell i row)) as [|p [|q ps]]; cbn in *; [contradiction | eauto | lia].
Qed.

(** The joined rows of an order that has its user and its product: one per
    pair of a review, or none, and a payment, or none. *)
Lemma rows_for_pairs d orow :
  keyed d -> In orow (rows_of d "orders") ->
  exists urow prow,
    rows_for d orow =
    flat_map (fun rrow =>
      map (fun payrow =>
             ((cell 4 orow, cell 0 orow),
              [ cell 1 urow; cell 1 prow; cell 4 orow; col 2 rrow; col 4 payrow ]))
          (left (rows_of d "payments") 1 (cell 0 orow)))
      (left (rows_of d "reviews") 1 (cell 0 orow)).
Proof.
  intros [_ Hu He] Hin.
  pose (cfg_at n := nth n TABLE_CONFIG (Config EmptyString EmptyString [] (Schema EmptyString [] []))).
  destruct (inner_one _ 1 (rows_of d "users") 0 orow (Hu (cfg_at 0%nat) ltac:(cbn; auto 10))
              (He "orders" 1%nat "users" ltac:(cbn; auto 10)) Hin) as [urow Hurow].
  destruct (inner_one _ 2 (rows_of d "products") 0 orow (Hu (cfg_at 1%nat) ltac:(cbn; auto 10))
              (He "orders" 2%nat "products" ltac:(cbn; auto 10)) Hin) as [prow Hprow].
  exists urow, prow. unfold rows_for, order_rows.
  cbn [query_positions u_name pr_name o_order_date r_rating pay_payment_status u_user_id
       o_user_id pr_product_id o_product_id r_order_id o_order_id pay_order_id].
  rewrite Hurow, Hprow. cbn [flat_map col]. now rewrite !app_nil_r.
Qed.

Lemma rows_for_length d orow :
  keyed d -> In orow (rows_of d "orders") ->
  length (rows_for d orow) =
  (length (left (rows_of d "reviews") 1 (cell 0 orow))
   * length (left (rows_of d "payments") 1 (cell 0 orow)))%nat.
Proof.
  intros Hd Hin. destruct (rows_for_pairs d orow Hd Hin) as (urow & prow & ->).
  induction (left (rows_of d "reviews") 1 (cell 0 orow)) as [|r rs IH]; cbn [flat_map length]; [reflexivity|].
  rewrite length_app, length_map, IH. lia.
Qed.

Lemma flat_map_length_ge {A B : Type} (f : A -> list B) l :
  (forall x, In x l -> 1 <= length (f x))%nat -> (length l <= length (flat_map f l))%nat.
Proof.
  induction l as [|x l IH]; intros H; cbn; [lia|].
  rewrite length_app. specialize (H x (or_introl eq_refl)) as Hx.
  specialize (IH (fun y Hy => H y (or_intror Hy))). lia.
Qed.

Lemma flat_map_length_eq {A B : Type} (f : A -> list B) l :
  (forall x, In x l -> length (f x) = 1)%nat -> length (flat_map f l) = length l.
Proof.
  induction l as [|x l IH]; intros H; cbn; [lia|].
  rewrite length_app. specialize (H x (or_introl eq_refl)) as Hx.
  specialize (IH (fun y Hy => H y (or_intror Hy))). lia.
Qed.

Lemma rows_for_no_review d orow :
  keyed d -> In orow (rows_of d "orders") ->
  matching (rows_of d "reviews") 1 (cell 0 orow) = [] ->
  Forall (fun r => snd r !! 3%nat = Some PNone) (rows_for d orow).
Proof.
  intros Hd Hin Hnone. destruct (rows_for_pairs d orow Hd Hin) as (urow & prow & ->).
  unfold left at 2. rewrite Hnone. cbn [flat_map]. rewrite app_nil_r.
  apply List.Forall_forall. intros r Hr. apply in_map_iff in Hr as (payrow & <- & _). reflexivity.
Qed.

(** C4, amended: the report on a database the loader has filled has, for every
    order, at least one row; exactly as many rows as there are orders when no
    order has two reviews or two payments; and an order without a review has
    [NULL] for its rating. *)
Theorem loaded_report_keeps_every_order w0 w :
  Loader.main w0 = (Ok tt, w) ->
  exists d rows,
    db_file w = Some d /\
    fetch_order_summary w = Ok (map snd rows) /\
    Permutation rows (flat_map (rows_for d) (rows_of d "orders")) /\
    (length (rows_of d "orders") <= length rows)%nat /\
    (keys_unique (rows_of d "reviews") 1 -> keys_unique (rows_of d "payments") 1 ->
     length rows = length (rows_of d "orders")) /\
    forall orow, In orow (rows_of d "orders") ->
      rows_for d orow <> [] /\
      (matching (rows_of d "reviews") 1 (cell 0 orow) = [] ->
       Forall (fun r => snd r !! 3%nat = Some PNone) (rows_for d orow)).
Proof.
  intros Hmain. destruct (loaded_is_keyed _ _ Hmain) as (d & Hfile & Hd).
  exists d, (order_by (flat_map (rows_for d) (rows_of d "orders"))).
  assert (Hlen : forall orow, In orow (rows_of d "orders") -> (1 <= length (rows_for d orow))%nat).
  { intros orow Hin. rewrite (rows_for_length d orow Hd Hin).
    pose proof (left_length (rows_of d "reviews") 1 (cell 0 orow)).
    pose proof (left_length (rows_of d "payments") 1 (cell 0 orow)). nia. }
  split; [exact Hfile|].
  split; [unfold fetch_order_summary, QUERY; rewrite Hfile, (joined_keyed d Hd); reflexivity|].
  split; [apply order_by_perm|].
  split; [rewrite (Permutation_length (order_by_perm _)); now apply flat_map_length_ge|].
  split.
  - intros Hr Hp. rewrite (Permutation_length (order_by_perm _)). apply flat_map_length_eq.
    intros orow Hin. rewrite (rows_for_length d orow Hd Hin).
    now rewrite (left_length_unique _ _ _ Hr), (left_length_unique _ _ _ Hp).
  - intros orow Hin. split; [|now apply rows_for_no_review].
    specialize (Hlen orow Hin). destruct (rows_for d orow); [cbn in Hlen; lia | discriminate].
Qed.

End JoinFacts.

Section Simulation.
Import Reporter Loader.

Lemma simulates_and_then {S A B : Type} (R : S -> S -> Prop) (m : action S A) (k : A -> action S B) :
  simulates R m -> (forall a, simulates R (k a)) -> simulates R (and_then m k).
Proof.
  intros Hm Hk s1 s2 b s2' HR H.
  apply and_then_inv in H as (a & t2 & Hm2 & Hk2).
  destruct (Hm _ _ _ _ HR Hm2) as (t1 & Hm1 & HR').
  destruct (Hk a _ _ _ _ HR' Hk2) as (s1' & Hk1 & HR'').
  exists s1'. split; [|exact HR'']. now rewrite (and_then_ok _ _ _ _ _ Hm1).
Qed.

Lemma simulates_for_each {S A : Type} (R : S -> S -> Prop) (body : A -> action S unit) l :
  (forall x, In x l -> simulates R (body x)) -> simulates R (for_each l body).
Proof.
  induction l as [|x l IH]; intros Hbody.
  - intros s1 s2 a s2' HR H. injection H as <- <-. eauto.
  - cbn [for_each]. apply simulates_and_then; [apply Hbody; now left|].
    intros _. apply IH. intros y Hy. apply Hbody. now right.
Qed.

Lemma simulates_update {S : Type} (R : S -> S -> Prop) (f : S -> S) :
  (forall s1 s2, R s1 s2 -> R (f s1) (f s2)) -> simulates R (update f).
Proof. intros Hf s1 s2 a s2' HR H. injection H as <- <-. eauto. Qed.

Lemma simulates_lift {S A : Type} (R : S -> S -> Prop) (r : result A) : simulates R (lift r).
Proof. intros s1 s2 a s2' HR H. injection H as -> <-. eauto. Qed.

Lemma simulates_read {S A : Type} (R : S -> S -> Prop) (f : S -> result A) :
  (forall s1 s2, R s1 s2 -> f s1 = f s2) -> simulates R (fun s => (f s, s)).
Proof. intros Hf s1 s2 a s2' HR H. injection H as H <-. rewrite (Hf _ _ HR), H. eauto. Qed.

Lemma agree_insert d1 d2 n t : agree d1 d2 -> agree (<[n := t]> d1) (<[n := t]> d2).
Proof.
  intros H m Hm. destruct (decide (n = m)) as [->|Hne].
  - now rewrite !lookup_insert_eq.
  - rewrite !lookup_insert_ne by exact Hne. now apply H.
Qed.

Lemma mapM_ext_in {A B : Type} (f g : A -> result B) l :
  (forall x, In x l -> f x = g x) -> mapM f l = mapM g l.
Proof.
  induction l as [|x l IH]; intros H; cbn; [reflexivity|].
  rewrite (H x (or_introl eq_refl)), IH; [reflexivity|]. intros y Hy. apply H. now right.
Qed.

Lemma forallb_ext_in {A : Type} (f g : A -> bool) l :
  (forall x, In x l -> f x = g x) -> forallb f l = forallb g l.
Proof.
  induction l as [|x l IH]; intros H; cbn; [reflexivity|].
  rewrite (H x (or_introl eq_refl)), IH; [reflexivity|]. intros y Hy. apply H. now right.
Qed.

(** The foreign keys of the five tables point to tables among the five. *)
Lemma references_in_names cfg fk :
  In cfg TABLE_CONFIG -> In fk (sch_fks (schema_of cfg)) -> In (ref_table fk) table_names.
Proof.
  intros Hcfg Hfk. cbn in Hcfg. destruct Hcfg as [<-|[<-|[<-|[<-|[<-|[]]]]]]; cbn in Hfk;
    repeat (destruct Hfk as [<-|Hfk]; [cbn; auto 10|]); destruct Hfk.
Qed.

Lemma name_in_names cfg : In cfg TABLE_CONFIG -> In (name cfg) table_names.
Proof. apply in_map. Qed.

Lemma foreign_keys_ok_agree d1 d2 cfg row :
  In cfg TABLE_CONFIG -> agree d1 d2 ->
  foreign_keys_ok d1 (schema_of cfg) row = foreign_keys_ok d2 (schema_of cfg) row.
Proof.
  intros Hcfg Hd. unfold foreign_keys_ok. apply forallb_ext_in. intros fk Hfk.
  now rewrite (Hd _ (references_in_names cfg fk Hcfg Hfk)).
Qed.

Lemma prepare_insert_agree cfg cols c1 c2 :
  In cfg TABLE_CONFIG -> alike c1 c2 ->
  prepare_insert (name cfg) cols c1 = prepare_insert (name cfg) cols c2.
Proof.
  intros Hcfg ([Hk Hon1] & Hd & Hon2 & _). unfold prepare_insert, get_table.
  destruct (keyed_tables _ Hk cfg Hcfg) as [rows Ht].
  rewrite <- (Hd _ (name_in_names cfg Hcfg)), Ht, Hon1, Hon2. cbn [bind tbl_schema].
  destruct (mapM (column_index _) cols); cbn [bind]; try reflexivity.
  erewrite mapM_ext_in; [reflexivity|].
  intros fk Hfk. cbn beta. now rewrite (Hd _ (references_in_names cfg fk Hcfg Hfk)).
Qed.

Lemma simulates_insert_row cfg cols params :
  In cfg TABLE_CONFIG -> simulates alike (insert_row (name cfg) cols params).
Proof.
  intros Hcfg c1 c2 [] c2' ([Hk Hon1] & Hd & Hon2 & Htx) H2.
  destruct (keyed_tables _ Hk cfg Hcfg) as [rows Ht1].
  assert (Ht2 : tables c2 !! name cfg = Some (Table (schema_of cfg) rows))
    by now rewrite <- (Hd _ (name_in_names cfg Hcfg)).
  assert (exists c1', insert_row (name cfg) cols params c1 = (Ok tt, c1') /\
                      agree (tables c1') (tables c2') /\ foreign_keys c2' = true /\
                      in_transaction c1' = in_transaction c2') as (c1' & H1 & Hrest).
  { revert H2. unfold insert_row, and_then, lift, update, logged, with_tables.
    destruct (mapM bind_value params) as [bound| |]; try discriminate.
    cbn [tables foreign_keys rollback_to trace]. rewrite Ht1, Ht2, Hon1, Hon2.
    cbn [tbl_schema tbl_rows]. rewrite (foreign_keys_ok_agree _ _ cfg _ Hcfg Hd).
    destruct (negb (not_null_ok _ _)); [discriminate|].
    destruct (negb (primary_key_ok _ _)); [discriminate|].
    destruct (true && negb _); [discriminate|].
    intros H. injection H as <-. eexists. split; [reflexivity|].
    cbn [tables foreign_keys]. unfold in_transaction. cbn [rollback_to].
    split; [now apply agree_insert|]. split; [reflexivity || exact Hon2 | exact Htx]. }
  exists c1'. split; [exact H1|]. split; [|exact Hrest].
  now apply (insert_row_sound _ _ _ _ _ H1).
Qed.

Lemma alike_begin c1 c2 : alike c1 c2 -> alike (begin c1) (begin c2).
Proof.
  intros (Hs & Hd & Hon & Htx). split; [now apply begin_sound|].
  unfold begin, in_transaction in *.
  destruct (rollback_to c1) eqn:E1, (rollback_to c2) eqn:E2; try discriminate;
    cbn; rewrite ?E1, ?E2; repeat split; auto.
Qed.

Lemma alike_commit c1 c2 : alike c1 c2 -> alike (commit c1) (commit c2).
Proof.
  intros (Hs & Hd & Hon & Htx). split; [now apply commit_sound|].
  unfold commit, in_transaction in *.
  destruct (rollback_to c1) eqn:E1, (rollback_to c2) eqn:E2; try discriminate;
    cbn; rewrite ?E1, ?E2; repeat split; auto.
Qed.

Lemma simulates_insert_rows cfg rows :
  In cfg TABLE_CONFIG -> simulates alike (insert_rows (name cfg) (columns cfg) rows).
Proof.
  intros Hcfg. unfold insert_rows, executemany_insert.
  apply simulates_and_then; [apply simulates_lift|]. intros data.
  apply simulates_and_then; [|intros _; apply simulates_update, alike_commit].
  apply simulates_and_then; [apply simulates_read; intros; now apply prepare_insert_agree|].
  intros _. apply simulates_and_then; [apply simulates_update, alike_begin|].
  intros _. apply simulates_for_each. intros params _. now apply simulates_insert_row.
Qed.

Lemma simulates_in_conn {A : Type} w1 w2 (m : action connection A) :
  simulates alike m -> simulates (alike_runs w1 w2) (in_conn m).
Proof.
  intros Hm [wa c1] [wb c2] a [wb' c2'] (Hfiles & Hout & Hr1 & Hr2 & Hc) H. unfold in_conn in *.
  destruct (m c2) as [r c3] eqn:H2. injection H as -> <- <-.
  destruct (Hm _ _ _ _ Hc H2) as (c1' & H1 & Hc'). cbn [fst snd] in *.
  exists (wa, c1'). rewrite H1. split; [reflexivity|].
  unfold alike_runs. cbn [fst snd]. auto.
Qed.

Lemma simulates_load_table w1 w2 cfg :
  In cfg TABLE_CONFIG -> simulates (alike_runs w1 w2) (load_table cfg).
Proof.
  intros Hcfg. unfold load_table.
  apply simulates_and_then.
  { intros [wa c1] [wb c2] rows [wb' c2'] (Hfiles & Hrest) H. unfold in_world in *.
    injection H as H <- <-. exists (wa, c1). split; [|now split].
    unfold load_csv in *. specialize (Hfiles cfg Hcfg). unfold data_file in Hfiles.
    cbn [fst] in Hfiles. rewrite Hfiles.
    destruct (data_dir wb ≫= _); [now rewrite H | discriminate]. }
  intros rows. apply simulates_and_then;
    [apply simulates_in_conn; now apply simulates_insert_rows|].
  intros _ [wa c1] [wb c2] [] [wb' c2'] (Hfiles & (lines & Ho1 & Ho2) & Hr1 & Hr2 & Hc) H.
  unfold in_world, update in *.
  injection H as <- <-. eexists. split; [reflexivity|]. unfold alike_runs. cbn [fst snd] in *.
  split; [exact Hfiles|]. split; [|auto].
  eexists. cbn [print stdout]. rewrite Ho1, Ho2, <- !app_assoc. split; reflexivity.
Qed.

Lemma fresh_tables_agree d1 d2 : agree (fresh_tables d1) (fresh_tables d2).
Proof.
  intros n Hn. apply in_map_iff in Hn as (cfg & <- & Hcfg).
  now rewrite !fresh_tables_lookup.
Qed.

Lemma agree_rows_of d1 d2 cfg :
  agree d1 d2 -> In cfg TABLE_CONFIG -> rows_of d1 (name cfg) = rows_of d2 (name cfg).
Proof. intros Hd Hcfg. unfold rows_of. now rewrite (Hd _ (name_in_names cfg Hcfg)). Qed.

Lemma tables_commit c : tables (commit c) = tables c.
Proof. unfold commit. now destruct (rollback_to c). Qed.

(** What the loader does depends on the repository only through the five
    files it reads: where it returns on one repository it returns on every
    repository with the same five files, printing the same lines but for the
    path in the last, and leaving the same five tables. *)
Lemma loader_reads_five_files w1 w2 w2' :
  (forall cfg, In cfg TABLE_CONFIG -> data_file (csv cfg) w1 = data_file (csv cfg) w2) ->
  data_dir w1 <> None ->
  Loader.main w2 = (Ok tt, w2') ->
  exists w1' d1 d2 lines,
    Loader.main w1 = (Ok tt, w1') /\
    db_file w1' = Some d1 /\ db_file w2' = Some d2 /\ agree d1 d2 /\ keyed d1 /\
    stdout w2' = (stdout w2 ++ lines ++ [("SQLite database populated at " ++ path w2 "ecom.db")%string])%list /\
    stdout w1' = (stdout w1 ++ lines ++ [("SQLite database populated at " ++ path w1 "ecom.db")%string])%list /\
    root_dir w1' = root_dir w1.
Proof.
  intros Hfiles Hdir H. unfold Loader.main in *.
  destruct (data_dir w1) as [files1|]; [clear Hdir | contradiction].
  destruct (data_dir w2) as [files2|]; [|discriminate].
  apply and_then_inv in H as ([] & w2b & Hwith & Hprint). injection Hprint as <-.
  unfold with_connection in Hwith.
  destruct (and_then _ _ _) as [r [w2a c2]] eqn:Hbody. injection Hwith as -> <-.
  apply and_then_inv in Hbody as ([] & [w0 c0] & Hreset & Hloop).
  unfold in_conn in Hreset. rewrite reset_tables_fresh in Hreset. injection Hreset as <- <-.
  destruct (simulates_for_each (alike_runs w1 w2) load_table TABLE_CONFIG
              (fun cfg Hcfg => simulates_load_table w1 w2 cfg Hcfg)
              (w1, reset_connection (db_file w1)) (w2, reset_connection (db_file w2)) tt (w2a, c2))
    as ([w1a c1] & Hloop1 & _ & (lines & Ho1 & Ho2) & Hr1 & Hr2 & Hs & Hd & _); [|exact Hloop|].
  { split; [exact Hfiles|]. split; [exists []; now rewrite !app_nil_r|].
    split; [reflexivity|]. split; [reflexivity|].
    split; [split; [apply fresh_tables_keyed | reflexivity]|].
    split; [apply fresh_tables_agree|]. split; reflexivity. }
  cbn [fst snd] in *.
  exists (print ("SQLite database populated at " ++ path (close (commit c1) w1a) "ecom.db")
                (close (commit c1) w1a)), (tables c1), (tables c2), lines.
  split.
  { unfold and_then at 1, with_connection.
    rewrite (and_then_ok _ _ _ tt (w1, reset_connection (db_file w1)))
      by (unfold in_conn; now rewrite reset_tables_fresh).
    now rewrite Hloop1. }
  unfold path. cbn [print close db_file stdout root_dir].
  rewrite !tables_commit, Ho1, Ho2, <- !app_assoc, Hr1, Hr2.
  split; [reflexivity|]. split; [reflexivity|]. split; [exact Hd|]. split; [apply Hs|].
  split; [reflexivity|]. split; reflexivity.
Qed.

End Simulation.

(** ** The three scripts, one after the other *)

Section Pipeline.
Import Reporter Loader Default.

Lemma generated_run float_repr n :
  Generator.script float_repr (5 + n) Default.checkout = (Ok tt, generated).
Proof. rewrite script_default. reflexivity. Qed.

Lemma loaded_run : Loader.main generated = (Ok tt, loaded).
Proof. vm_compute. reflexivity. Qed.

Lemma joined_agree d1 d2 : agree d1 d2 -> joined d1 = joined d2.
Proof.
  intros H. unfold joined, get_table.
  rewrite (H "orders"), (H "users"), (H "products"), (H "reviews"), (H "payments");
    [reflexivity | | | | |]; cbn; auto 10.
Qed.

Lemma rows_for_agree d1 d2 orow : agree d1 d2 -> rows_for d1 orow = rows_for d2 orow.
Proof.
  intros H. unfold rows_for, rows_of.
  rewrite (H "users"), (H "products"), (H "reviews"), (H "payments");
    [reflexivity | | | |]; cbn; auto 10.
Qed.

Lemma loaded_joined d : db_file loaded = Some d -> joined d = Ok summary.
Proof.
  intros H. assert (d = default ∅ (db_file loaded)) as -> by now rewrite H.
  vm_compute. reflexivity.
Qed.

Lemma summary_sorted : order_by summary = summary.
Proof. vm_compute. reflexivity. Qed.

Lemma summary_written float_repr :
  summary_text float_repr (map snd summary) = file_of_lines default_report.
Proof. vm_compute. reflexivity. Qed.

Lemma generated_files name :
  In name Default.csv_files ->
  exists content rows,
    data !! name = Some content /\ Csv.DictReader content = Ok rows /\ length rows = 15%nat.
Proof.
  intros H. cbn in H. destruct H as [<-|[<-|[<-|[<-|[<-|[]]]]]];
    eexists; eexists; (split; [vm_compute; reflexivity|]); split; vm_compute; reflexivity.
Qed.

Lemma written_data files name :
  In name Default.csv_files -> written files !! name = data !! name.
Proof.
  intros H. change data with (written ∅).
  destruct (written_files files) as (H1 & H2 & H3 & H4 & H5).
  destruct (written_files ∅) as (G1 & G2 & G3 & G4 & G5).
  cbn in H. destruct H as [<-|[<-|[<-|[<-|[<-|[]]]]]]; congruence.
Qed.

Lemma csv_of_config cfg : In cfg TABLE_CONFIG -> In (csv cfg) Default.csv_files.
Proof. intros H. change Default.csv_files with (map csv TABLE_CONFIG). now apply in_map. Qed.

Lemma loaded_rows d cfg :
  db_file loaded = Some d -> In cfg TABLE_CONFIG -> length (rows_of d (name cfg)) = 15%nat.
Proof.
  intros H Hcfg. assert (d = default ∅ (db_file loaded)) as -> by now rewrite H.
  cbn in Hcfg. destruct Hcfg as [<-|[<-|[<-|[<-|[<-|[]]]]]]; vm_compute; reflexivity.
Qed.

Lemma loaded_first d :
  db_file loaded = Some d ->
  exists orow,
    In orow (rows_of d "orders") /\ cell 0 orow = PStr "O001" /\ cell 4 orow = PStr "2024-02-01" /\
    Some (rows_for d orow) = option_map (fun first => [first]) (hd_error summary).
Proof.
  intros H. assert (d = default ∅ (db_file loaded)) as -> by now rewrite H.
  exists (hd [] (rows_of (default ∅ (db_file loaded)) "orders")).
  split; [vm_compute; now left|]. repeat split; vm_compute; reflexivity.
Qed.

(** C9: from any state of the repository, the generator writes five files of
    15 records each; the loader then leaves 15 rows in each of the five
    tables and prints a line for each; and the reporter then fetches 15
    rows, the first being the only row of order O001 of 2024-02-01, and
    writes [order_summary.csv] as the header line followed by the 15 lines
    of [default_report], of which the first is
    [Ava Patel,Smartwatch,2024-02-01,4,Completed]. *)
Theorem default_pipeline float_repr n w :
  exists w1 w2 w3 d rows,
    Generator.script float_repr (5 + n) w = (Ok tt, w1) /\
    (forall name, In name Default.csv_files ->
       exists content records,
         data_file name w1 = Some content /\ Csv.DictReader content = Ok records /\
         length records = 15%nat) /\
    Loader.main w1 = (Ok tt, w2) /\
    db_file w2 = Some d /\
    (forall cfg, In cfg TABLE_CONFIG -> length (rows_of d (name cfg)) = 15%nat) /\
    stdout w2 = (stdout w1 ++
                 [ "Inserted 15 rows into users."; "Inserted 15 rows into products.";
                   "Inserted 15 rows into orders."; "Inserted 15 rows into reviews.";
                   "Inserted 15 rows into payments.";
                   ("SQLite database populated at " ++ path w "ecom.db")%string ])%list /\
    Reporter.main float_repr w2 = (Ok tt, w3) /\
    fetch_order_summary w2 = Ok (map snd rows) /\
    length rows = 15%nat /\
    (exists orow first,
       In orow (rows_of d "orders") /\
       cell 0 orow = PStr "O001" /\ cell 4 orow = PStr "2024-02-01" /\
       rows_for d orow = [first] /\ hd_error rows = Some first /\
       snd first = [PStr "Ava Patel"; PStr "Smartwatch"; PStr "2024-02-01"; PInt 4; PStr "Completed"]) /\
    output_file "order_summary.csv" w3 = Some (file_of_lines default_report) /\
    stdout w3 = (stdout w2 ++
                 [("Wrote 15 records to " ++ path w "output" ++ "/order_summary.csv")%string])%list.
Proof.
  pose (w1 := print ("Generated CSV files in " ++ path w "data")
                    (set_data_dir (written (mkdir (data_dir w))) w)).
  assert (Hfile : forall name, In name Default.csv_files -> data_file name w1 = data_file name generated).
  { intros name Hname. unfold data_file. cbn [w1 print set_data_dir data_dir generated mbind option_bind].
    now apply written_data. }
  destruct (loader_reads_five_files w1 generated loaded) as
    (w2 & d & d0 & lines & Hload & Hd & Hd0 & Hagree & _ & Hout0 & Hout & Hroot);
    [intros cfg Hcfg; apply Hfile, csv_of_config, Hcfg | discriminate | exact loaded_run |].
  assert (Hlines : lines = [ "Inserted 15 rows into users."; "Inserted 15 rows into products.";
                             "Inserted 15 rows into orders."; "Inserted 15 rows into reviews.";
                             "Inserted 15 rows into payments." ]).
  { change (stdout loaded) with
      (stdout generated ++
       [ "Inserted 15 rows into users."; "Inserted 15 rows into products.";
         "Inserted 15 rows into orders."; "Inserted 15 rows into reviews.";
         "Inserted 15 rows into payments." ] ++
       [("SQLite database populated at " ++ path generated "ecom.db")%string])%list in Hout0.
    apply app_inv_head in Hout0. apply app_inv_tail in Hout0. now symmetry. }
  subst lines.
  assert (Hjoined : joined d = Ok summary)
    by (rewrite (joined_agree d d0 Hagree); exact (loaded_joined d0 Hd0)).
  pose (w3 := print ("Wrote " ++ str_int (Z.of_nat (length (map snd summary))) ++ " records to "
                       ++ path w2 "output" ++ "/order_summary.csv")
                (set_output_dir (<["order_summary.csv" := summary_text float_repr (map snd summary)]>
                                   (mkdir (output_dir w2))) w2)).
  exists w1, w2, w3, d, summary.
  split; [apply script_default|].
  split.
  { intros name Hname. rewrite (Hfile name Hname). now apply generated_files. }
  split; [exact Hload|]. split; [exact Hd|].
  split.
  { intros cfg Hcfg. rewrite (agree_rows_of d d0 cfg Hagree Hcfg). now apply loaded_rows. }
  split.
  { rewrite Hout. unfold path. now cbn [w1 print set_data_dir root_dir]. }
  assert (Hfetch : fetch_order_summary w2 = Ok (map snd summary)).
  { unfold fetch_order_summary, QUERY. rewrite Hd, Hjoined. cbn [bind]. now rewrite summary_sorted. }
  split.
  { unfold Reporter.main. erewrite and_then_ok by (rewrite Hfetch; reflexivity). reflexivity. }
  split; [exact Hfetch|]. split; [reflexivity|].
  split.
  { destruct (loaded_first d0 Hd0) as (orow & Hin & Hid & Hdate & Hfirst).
    assert (Ho : rows_of d "orders" = rows_of d0 "orders").
    { apply (agree_rows_of d d0 (nth 2 TABLE_CONFIG (Config EmptyString EmptyString [] (Schema EmptyString [] []))) Hagree).
      cbn. auto 10. }
    exists orow. eexists. rewrite Ho, (rows_for_agree d d0 orow Hagree).
    split; [exact Hin|]. split; [exact Hid|]. split; [exact Hdate|].
    cbn in Hfirst. injection Hfirst as ->. repeat split. }
  split.
  { unfold output_file. cbn [w3 print set_output_dir output_dir mbind option_bind].
    now rewrite lookup_insert_eq, summary_written. }
  cbn [w3 print set_output_dir stdout]. unfold path. cbn [root_dir]. now rewrite Hroot.
Qed.

End Pipeline.

(** ** The statements at the default fixture set *)

Section Examples.
Import Reporter Loader Default.

(** The orders of the default fixture set have exact totals. *)
Lemma order_total_is_quantity_times_price_witness :
  Generator.generate_orders 5 users Generator.generate_products = Ok orders /\
  Forall (total_is_exact Generator.generate_products) orders.
Proof.
  split; [vm_compute; reflexivity|].
  apply (order_total_is_quantity_times_price 5 users orders). vm_compute. reflexivity.
Defined.

(** The typing of the rows read from the generated [orders.csv]. *)
Lemma load_csv_typing_witness :
  Loader.load_csv "orders.csv" generated = Ok loaded_orders /\
  exists content raw,
    data_dir generated ≫= (fun files => files !! "orders.csv") = Some content /\
    Csv.DictReader content = Ok raw /\
    Forall2 (fun r r' =>
               Csv.rest r' = Csv.rest r /\
               Forall2 (fun c c' => fst c' = fst c /\ typed_as (fst c) (snd c) (snd c'))
                       (Csv.named r) (Csv.named r'))
            raw loaded_orders.
Proof.
  split; [vm_compute; reflexivity|].
  apply (load_csv_typing "orders.csv" generated loaded_orders). vm_compute. reflexivity.
Defined.

(** The loader stores a float for the [order_total] of the first generated
    order, where the typing worded in the specification keeps the text. *)
Lemma order_total_is_typed_too :
  exists rows row,
    Loader.load_csv "orders.csv" generated = Ok rows /\
    hd_error rows = Some row /\
    dict_get "order_total" (Csv.named row) = Some (PFloat (S754_finite false 5277303969603912 (-45))) /\
    Loader.convert "order_total" (PStr "149.99") = Ok (PFloat (S754_finite false 5277303969603912 (-45))) /\
    claimed_convert "order_total" (PStr "149.99") = Ok (PStr "149.99").
Proof.
  exists loaded_orders. eexists.
  split; [vm_compute; reflexivity|]. split; [reflexivity|].
  repeat split; vm_compute; reflexivity.
Qed.

(** The report on the database loaded from the generated files. *)
Lemma loaded_report_keeps_every_order_witness :
  Loader.main generated = (Ok tt, loaded) /\
  exists d rows,
    db_file loaded = Some d /\
    fetch_order_summary loaded = Ok (map snd rows) /\
    Permutation rows (flat_map (rows_for d) (rows_of d "orders")) /\
    (length (rows_of d "orders") <= length rows)%nat /\
    (keys_unique (rows_of d "reviews") 1 -> keys_unique (rows_of d "payments") 1 ->
     length rows = length (rows_of d "orders")) /\
    forall orow, In orow (rows_of d "orders") ->
      rows_for d orow <> [] /\
      (matching (rows_of d "reviews") 1 (cell 0 orow) = [] ->
       Forall (fun r => snd r !! 3%nat = Some PNone) (rows_for d orow)).
Proof.
  split; [vm_compute; reflexivity|].
  apply (loaded_report_keeps_every_order generated loaded). vm_compute. reflexivity.
Defined.

(** With a second review of order O001 in [reviews.csv] the loader returns,
    the table of orders has 15 rows, and the report has 16. *)
Lemma second_review_second_row :
  exists w d rows,
    Loader.main reviewed_twice = (Ok tt, w) /\
    db_file w = Some d /\
    fetch_order_summary w = Ok rows /\
    length (rows_of d "orders") = 15%nat /\
    length rows = 16%nat.
Proof.
  exists (snd (Loader.main reviewed_twice)), (default ∅ (db_file (snd (Loader.main reviewed_twice)))).
  eexists. split; [vm_compute; reflexivity|]. split; [vm_compute; reflexivity|].
  split; [vm_compute; reflexivity|]. split; vm_compute; reflexivity.
Qed.

(** The loader in a fresh checkout, where [data] does not exist. *)
Lemma loader_missing_data_dir_witness :
  data_dir checkout = None /\
  Loader.main checkout
  = (Raise (FileNotFoundError "Data directory not found: /srv/shop/data"), checkout).
Proof.
  split; [reflexivity|]. apply (loader_missing_data_dir checkout). reflexivity.
Defined.

(** The report the reporter writes on the loaded default database. *)
Lemma report_is_ordered_witness :
  Reporter.main (fun _ => "") loaded = (Ok tt, reported) /\
  exists d orders rows,
    db_file loaded = Some d /\ d !! "orders" = Some orders /\
    (exists js, joined d = Ok js /\ Permutation rows js) /\
    Forall (fun r => exists orow,
              In orow (tbl_rows orders) /\
              fst r = (field orders "order_date" orow, field orders "order_id" orow) /\
              snd r !! 2%nat = Some (field orders "order_date" orow)) rows /\
    StronglySorted (fun x y => by_date_then_id (fst x) (fst y)) rows /\
    output_file "order_summary.csv" reported
    = Some ("user_name,product_name,order_date,review_rating,payment_status" ++ crlf
            ++ String.concat "" (map (fun r => Csv.writerow (fun _ => "") (snd r)) rows)).
Proof.
  split; [vm_compute; reflexivity|].
  apply (report_is_ordered (fun _ => "") loaded reported). vm_compute. reflexivity.
Defined.

(** The payments of the default fixture set. *)
Lemma payment_amount_is_order_total_witness :
  Generator.generate_payments orders = Ok payments /\
  NoDup (map (dict_get "order_id") orders) /\
  forall payment, In payment payments ->
    exists order total,
      In order orders /\
      dict_get "order_id" order = dict_get "order_id" payment /\
      dict_get "order_total" order = Some total /\
      dict_get "amount" payment = Some total /\
      (forall other, In other orders ->
         dict_get "order_id" other = dict_get "order_id" payment -> other = order).
Proof.
  assert (Hnd : NoDup (map (dict_get "order_id") orders)).
  { cbn. repeat (apply NoDup_cons_2; [rewrite list_elem_of_In; cbn; intuition discriminate|]).
    apply NoDup_nil_2. }
  split; [vm_compute; reflexivity|]. split; [exact Hnd|].
  apply (payment_amount_is_order_total orders payments); [vm_compute; reflexivity | exact Hnd].
Defined.

End Examples.

(** * Further properties of the three scripts *)

Section GeneratorShapes.
Import Generator.

(** *** Identifiers *)

Lemma uint_of_zeros k (u : Decimal.uint) s :
  NilEmpty.uint_of_string s = Some u ->
  NilEmpty.uint_of_string (zeros k ++ s) = Some (Nat.iter k Decimal.D0 u).
Proof.
  intros Hs. induction k as [|k IH]; [exact Hs|].
  change (zeros (S k) ++ s) with (String "0" (zeros k ++ s)).
  cbn [NilEmpty.uint_of_string]. rewrite IH. reflexivity.
Qed.

Lemma of_uint_zeros k u : Z.of_uint (Nat.iter k Decimal.D0 u) = Z.of_uint u.
Proof. induction k as [|k IH]; [reflexivity|]. cbn [Nat.iter]. rewrite <- IH. reflexivity. Qed.

(** The number a zero-padded decimal stands for. *)
Lemma format_0d_value w z :
  0 <= z ->
  option_map Z.of_uint (NilEmpty.uint_of_string (format_0d w z)) = Some z.
Proof.
  intros Hz. unfold format_0d, str_int. destruct (z <? 0) eqn:E; [lia|].
  assert (exists u, Z.to_int z = Decimal.Pos u /\
                    NilZero.string_of_uint u = NilEmpty.string_of_uint u) as (u & Hint & Hu).
  { destruct z as [|p|p]; [eexists; split; reflexivity | | lia].
    exists (Pos.to_uint p). split; [reflexivity|].
    unfold NilZero.string_of_uint. destruct (Pos.to_uint p) eqn:Eu; try reflexivity.
    exfalso. now apply (DecimalPos.Unsigned.to_uint_nonnil p). }
  rewrite Hint. cbn [NilZero.string_of_int]. rewrite Hu.
  rewrite (uint_of_zeros _ u) by apply NilEmpty.usu.
  cbn [option_map]. rewrite of_uint_zeros. f_equal.
  change (Z.of_uint u) with (Z.of_int (Decimal.Pos u)). rewrite <- Hint. apply DecimalZ.of_to.
Qed.

Lemma app_inj_prefix (p s t : string) : p ++ s = p ++ t -> s = t.
Proof. induction p as [|c p IH]; cbn; intros H; [exact H|]. injection H as H. auto. Qed.

(** Two rows never get the same identifier. *)
Lemma make_id_inj prefix n m : make_id prefix n = make_id prefix m -> n = m.
Proof.
  unfold make_id. intros H. apply app_inj_prefix in H.
  pose proof (format_0d_value 3 (Z.of_nat n) ltac:(lia)) as Hn.
  pose proof (format_0d_value 3 (Z.of_nat m) ltac:(lia)) as Hm.
  rewrite H, Hm in Hn. injection Hn as Hn. lia.
Qed.


Lemma nodup_by_index {A B : Type} (f : A -> B) (g : nat -> B) (l : list A) :
  (forall i x, l !! i = Some x -> f x = g i) ->
  (forall i j, g i = g j -> i = j) ->
  NoDup (map f l).
Proof.
  intros Hf Hg. apply NoDup_alt. intros i j y Hi Hj.
  change (map f l) with (f <$> l) in Hi, Hj. rewrite list_lookup_fmap in Hi, Hj.
  destruct (l !! i) as [a|] eqn:Ea; [|discriminate]. destruct (l !! j) as [b|] eqn:Eb; [|discriminate].
  cbn in Hi, Hj. apply Hg. rewrite <- (Hf _ _ Ea), <- (Hf _ _ Eb). congruence.
Qed.

(** *** Reviews *)

Lemma make_review_fields idx order_id rating review :
  make_review idx order_id rating = Ok review ->
  dict_get "review_id" review = Some (PStr (make_id "R" (idx + 1))) /\
  dict_get "order_id" review = Some order_id /\
  dict_get "rating" review = Some (PInt rating).
Proof.
  unfold make_review. intros H. bind_step H. injection H as <-. repeat split.
Qed.

Lemma reviews_loop_shape fuel orders : forall idx rng acc reviews,
  wf rng ->
  reviews_loop fuel idx orders rng acc = Ok reviews ->
  exists new,
    reviews = (acc ++ new)%list /\ length new = length orders /\
    forall j order, orders !! j = Some order ->
      exists review, new !! j = Some review /\ review_of (idx + j) order review.
Proof.
  induction orders as [|order orders IH]; intros idx rng acc reviews Hrng H; cbn [reviews_loop] in H.
  - injection H as <-. exists []. rewrite app_nil_r. repeat split. intros j o Hj. discriminate.
  - apply bind_ok in H as (oid & Hoid & H).
    apply bind_ok in H as ([rating rng'] & Hdraw & H).
    apply bind_ok in H as (review & Hreview & H).
    apply randint_range in Hdraw as [Hrating Hrng']; [|exact Hrng].
    apply IH in H as (new & -> & Hlen & Hnew); [|exact Hrng'].
    exists (review :: new). split; [now rewrite <- app_assoc|]. split; [cbn; lia|].
    intros [|j] o Hj; cbn in Hj.
    + injection Hj as <-. exists review. split; [reflexivity|].
      apply make_review_fields in Hreview as (Hid & Ho & Hr).
      exists oid, rating. rewrite Nat.add_0_r. apply dict_item_get in Hoid. auto 10.
    + destruct (Hnew j o Hj) as (rev' & Hlook & Hrev). exists rev'. split; [exact Hlook|].
      now replace (idx + S j)%nat with (S idx + j)%nat by lia.
Qed.

(** X1: whatever the orders, [generate_reviews] returns one review for each
    order, in the order of the orders: the review at position [i] carries the
    [order_id] of the order at [i], the identifier R followed by [i + 1] on
    three digits at least, and a rating from 3 to 5; no two reviews have the
    same identifier. *)
Theorem reviews_follow_orders fuel orders reviews :
  generate_reviews fuel orders = Ok reviews ->
  length reviews = length orders /\
  (forall i order, orders !! i = Some order ->
     exists review, reviews !! i = Some review /\ review_of i order review) /\
  NoDup (map (dict_get "review_id") reviews).
Proof.
  unfold generate_reviews. intros H.
  apply reviews_loop_shape in H as (new & Hrev & Hlen & Hnew); [|apply Random_wf].
  change reviews with (@nil row ++ reviews)%list in Hrev. apply app_inv_head in Hrev. subst new.
  split; [exact Hlen|]. split; [exact Hnew|].
  apply (nodup_by_index _ (fun i => Some (PStr (make_id "R" (i + 1))))).
  - intros i review Hi.
    destruct (lookup_lt_is_Some_2 orders i) as [order Ho];
      [rewrite <- Hlen; eapply lookup_lt_Some, Hi|].
    destruct (Hnew i order Ho) as (review' & Hi' & (oid & rating & _ & _ & Hid & _)).
    assert (E : Some review = Some review') by (etransitivity; [symmetry; exact Hi | exact Hi']).
    injection E as ->. exact Hid.
  - intros i j E. injection E as E. apply make_id_inj in E. lia.
Qed.


(** *** Orders *)

Lemma item_lookup {A : Type} (l : list A) i x : item l i = Ok x -> l !! i = Some x.
Proof. unfold item. destruct (l !! i); intros H; now inversion H. Qed.

Lemma make_order_fields idx user product quantity lookup order :
  make_order idx user product quantity lookup = Ok order ->
  exists user_id product_id,
    dict_get "user_id" user = Some user_id /\
    dict_get "product_id" product = Some product_id /\
    dict_get "order_id" order = Some (PStr (make_id "O" (idx + 1))) /\
    dict_get "user_id" order = Some user_id /\
    dict_get "product_id" order = Some product_id /\
    dict_get "quantity" order = Some (PInt quantity).
Proof.
  unfold make_order. intros H.
  apply bind_ok in H as (status & _ & H).
  apply bind_ok in H as (user_id & Hu & H).
  apply bind_ok in H as (product_id & Hp & H).
  apply bind_ok in H as (price & _ & H).
  apply bind_ok in H as (total & _ & H).
  injection H as <-. apply dict_item_get in Hu, Hp.
  exists user_id, product_id. repeat split; assumption.
Qed.

Lemma orders_loop_shape fuel users products lookup idxs : forall rng acc orders,
  wf rng ->
  orders_loop fuel users products lookup idxs rng acc = Ok orders ->
  exists new,
    orders = (acc ++ new)%list /\
    Forall2 (order_of users products) idxs new.
Proof.
  induction idxs as [|idx idxs IH]; intros rng acc orders Hrng H; cbn [orders_loop] in H.
  - injection H as <-. exists []. rewrite app_nil_r. split; [reflexivity | constructor].
  - apply bind_ok in H as (user & Huser & H).
    apply bind_ok in H as (product & Hproduct & H).
    apply bind_ok in H as ([quantity rng'] & Hdraw & H).
    apply bind_ok in H as (order & Horder & H).
    apply randint_range in Hdraw as [Hquantity Hrng']; [|exact Hrng].
    apply IH in H as (new & -> & Hnew); [|exact Hrng'].
    exists (order :: new). split; [now rewrite <- app_assoc|].
    constructor; [|exact Hnew].
    apply make_order_fields in Horder as (user_id & product_id & Hu & Hp & Hrest).
    apply item_lookup in Huser, Hproduct.
    exists user, product, user_id, product_id, quantity. tauto.
Qed.

(** X2: whatever the users and the products, when [generate_orders] returns
    there are at least 15 of each and it returns exactly 15 orders; the order
    at position [i] has the identifier O followed by [i + 1] on three digits,
    the [user_id] of the user at [i], the [product_id] of the product at [i]
    and a quantity from 1 to 4; no two orders have the same identifier. *)
Theorem orders_follow_users_and_products fuel users products orders :
  generate_orders fuel users products = Ok orders ->
  length orders = 15%nat /\
  (15 <= length users)%nat /\ (15 <= length products)%nat /\
  (forall i order, orders !! i = Some order -> order_of users products i order) /\
  NoDup (map (dict_get "order_id") orders).
Proof.
  unfold generate_orders. intros H. apply bind_ok in H as (lookup & _ & H).
  apply orders_loop_shape in H as (new & Hnew & Hshape); [|apply Random_wf].
  change orders with (@nil row ++ orders)%list in Hnew. apply app_inv_head in Hnew. subst new.
  assert (Hlen : length orders = 15%nat).
  { apply Forall2_length in Hshape. now rewrite <- Hshape. }
  assert (Hat : forall i order, orders !! i = Some order -> order_of users products i order).
  { intros i order Hi.
    destruct (Forall2_lookup_r _ _ _ _ _ Hshape Hi) as (idx & Hidx & Horder).
    unfold range in Hidx. apply lookup_seq in Hidx as [-> _]. exact Horder. }
  split; [exact Hlen|].
  destruct (lookup_lt_is_Some_2 orders 14) as [last Hlast]; [lia|].
  destruct (Hat 14%nat last Hlast) as (user & product & ? & ? & ? & Hu & Hp & _).
  apply lookup_lt_Some in Hu, Hp.
  split; [exact Hu|]. split; [exact Hp|]. split; [exact Hat|].
  apply (nodup_by_index _ (fun i => Some (PStr (make_id "O" (i + 1))))).
  - intros i order Hi. destruct (Hat i order Hi) as (? & ? & ? & ? & ? & _ & _ & _ & _ & _ & Hid & _).
    exact Hid.
  - intros i j E. injection E as E. apply make_id_inj in E. lia.
Qed.

(** *** Payments *)

Lemma mod3_cases i : (i mod 3 = 0 \/ i mod 3 = 1 \/ i mod 3 = 2)%nat.
Proof. pose proof (Nat.mod_upper_bound i 3). lia. Qed.

Lemma make_payment_shape idx order payment :
  make_payment idx order = Ok payment -> payment_of idx order payment.
Proof.
  unfold make_payment. intros H.
  apply bind_ok in H as (order_id & Hid & H).
  apply bind_ok in H as (total & Htotal & H).
  apply bind_ok in H as (method & _ & H).
  apply bind_ok in H as (status & Hstatus & H).
  injection H as <-. apply dict_item_get in Hid, Htotal.
  exists order_id, total. repeat split; try assumption.
  cbn [dict_get key_eqb string_key String.eqb Ascii.eqb Bool.eqb]. f_equal. f_equal.
  cbn [length payment_statuses] in Hstatus.
  destruct (mod3_cases idx) as [E|[E|E]]; rewrite E in Hstatus |- *; now injection Hstatus as <-.
Qed.

Lemma make_payment_returns idx order order_id total :
  dict_get "order_id" order = Some order_id ->
  dict_get "order_total" order = Some total ->
  exists payment, make_payment idx order = Ok payment.
Proof.
  intros Hid Htotal. unfold make_payment, dict_item. rewrite Hid, Htotal. cbn [bind].
  cbn [length methods payment_statuses].
  destruct (mod3_cases idx) as [E|[E|E]]; rewrite E; eexists; reflexivity.
Qed.

Lemma payments_loop_shape orders : forall idx payments,
  payments_loop idx orders = Ok payments ->
  length payments = length orders /\
  forall j order, orders !! j = Some order ->
    exists payment, payments !! j = Some payment /\ payment_of (idx + j) order payment.
Proof.
  induction orders as [|order orders IH]; intros idx payments H; cbn [payments_loop] in H.
  - injection H as <-. split; [reflexivity|]. intros j o Hj. discriminate.
  - apply bind_ok in H as (payment & Hpayment & H).
    apply bind_ok in H as (rest & Hrest & H). injection H as <-.
    apply IH in Hrest as [Hlen Hrest]. split; [cbn; lia|].
    intros [|j] o Hj; cbn in Hj.
    + injection Hj as <-. exists payment. split; [reflexivity|].
      rewrite Nat.add_0_r. now apply make_payment_shape.
    + destruct (Hrest j o Hj) as (p & Hp & Hshape). exists p. split; [exact Hp|].
      now replace (idx + S j)%nat with (S idx + j)%nat by lia.
Qed.

(** X3: whatever the orders, [generate_payments] returns one payment for each
    order, in the order of the orders: the payment at position [i] carries
    the [order_id] and, as its amount, the [order_total] of the order at [i],
    the identifier PM followed by [i + 1] on three digits at least, and the
    status Pending at every third position and Completed elsewhere; no two
    payments have the same identifier. *)
Theorem payments_follow_orders orders payments :
  generate_payments orders = Ok payments ->
  length payments = length orders /\
  (forall i order, orders !! i = Some order ->
     exists payment, payments !! i = Some payment /\ payment_of i order payment) /\
  NoDup (map (dict_get "payment_id") payments).
Proof.
  unfold generate_payments. intros H. apply payments_loop_shape in H as [Hlen Hat].
  split; [exact Hlen|]. split; [exact Hat|].
  apply (nodup_by_index _ (fun i => Some (PStr (make_id "PM" (i + 1))))).
  - intros i payment Hi.
    destruct (lookup_lt_is_Some_2 orders i) as [order Ho];
      [rewrite <- Hlen; eapply lookup_lt_Some, Hi|].
    destruct (Hat i order Ho) as (payment' & Hi' & (oid & total & _ & _ & Hid & _)).
    assert (E : Some payment = Some payment') by (etransitivity; [symmetry; exact Hi | exact Hi']).
    injection E as ->. exact Hid.
  - intros i j E. injection E as E. apply make_id_inj in E. lia.
Qed.

Lemma payments_loop_raises orders : forall idx,
  Exists (fun order => dict_get "order_id" order = None \/ dict_get "order_total" order = None)
         orders ->
  exists key,
    In key ["order_id"; "order_total"] /\ payments_loop idx orders = Raise (KeyError (PStr key)).
Proof.
  induction orders as [|order orders IH]; intros idx Hex; [inversion Hex|].
  cbn [payments_loop].
  destruct (dict_get "order_id" order) as [order_id|] eqn:Hid.
  - destruct (dict_get "order_total" order) as [total|] eqn:Htotal.
    + destruct (make_payment_returns idx order order_id total Hid Htotal) as [payment ->].
      cbn [bind]. apply Exists_cons in Hex as [[H|H]|Hex]; [congruence | congruence |].
      destruct (IH (S idx) Hex) as (key & Hkey & ->). exists key. split; [exact Hkey | reflexivity].
    + exists "order_total". split; [cbn; auto|].
      unfold make_payment, dict_item. rewrite Hid, Htotal. reflexivity.
  - exists "order_id". split; [cbn; auto|].
    unfold make_payment, dict_item. rewrite Hid. reflexivity.
Qed.

Lemma payments_loop_returns orders : forall idx,
  Forall (fun order => dict_get "order_id" order <> None /\ dict_get "order_total" order <> None)
         orders ->
  exists payments, payments_loop idx orders = Ok payments.
Proof.
  induction orders as [|order orders IH]; intros idx Hall; cbn [payments_loop]; [eauto|].
  apply Forall_cons in Hall as [[Hid Htotal] Hall].
  destruct (dict_get "order_id" order) as [order_id|] eqn:Eid; [|contradiction].
  destruct (dict_get "order_total" order) as [total|] eqn:Etotal; [|contradiction].
  destruct (make_payment_returns idx order order_id total Eid Etotal) as [payment ->].
  destruct (IH (S idx) Hall) as [payments ->]. cbn [bind]. eauto.
Qed.

(** X4: [generate_payments] returns exactly when every order has an
    [order_id] and an [order_total]; when some order lacks one of the two, it
    raises [KeyError] for the key the first such order lacks. *)
Theorem payments_need_both_keys orders :
  ((exists payments, generate_payments orders = Ok payments) <->
   Forall (fun order => dict_get "order_id" order <> None /\ dict_get "order_total" order <> None)
          orders) /\
  (Exists (fun order => dict_get "order_id" order = None \/ dict_get "order_total" order = None)
          orders ->
   exists key,
     In key ["order_id"; "order_total"] /\ generate_payments orders = Raise (KeyError (PStr key))).
Proof.
  unfold generate_payments. split; [split|].
  - intros [payments H]. apply payments_loop_shape in H as [_ Hat].
    apply List.Forall_forall. intros order Hin.
    apply list_elem_of_In, list_elem_of_lookup in Hin as [i Hi].
    destruct (Hat i order Hi) as (_ & _ & (oid & total & -> & -> & _)). split; discriminate.
  - apply payments_loop_returns.
  - apply payments_loop_raises.
Qed.

End GeneratorShapes.

Section GeneratorFiles.
Import Generator.







(** X6: the generator, run in any repository, returns; it replaces the five
    files, leaves every other file of [data] as it was, leaves the database
    file and [output] alone, and prints one line. *)
Theorem generator_touches_five_files float_repr n w :
  exists w',
    script float_repr (5 + n) w = (Ok tt, w') /\
    (forall name, ~ In name Default.csv_files ->
       data_file name w' = mkdir (data_dir w) !! name) /\
    db_file w' = db_file w /\
    output_dir w' = output_dir w /\
    stdout w' = (stdout w ++ [("Generated CSV files in " ++ path w "data")%string])%list.
Proof.
  rewrite script_default. eexists. split; [reflexivity|].
  split; [|repeat split].
  intros name Hname. unfold data_file, written.
  cbn [print set_data_dir data_dir mbind option_bind].
  repeat (rewrite lookup_insert_ne by (intros <-; apply Hname; cbn; auto 10)). reflexivity.
Qed.

End GeneratorFiles.

Section LoaderOutcomes.
Import Reporter Loader.

Lemma and_then_cases {S A B : Type} (m : action S A) (k : A -> action S B) s r s' :
  and_then m k s = (r, s') ->
  (exists a s1, m s = (Ok a, s1) /\ k a s1 = (r, s')) \/
  (failed r /\ exists r0, m s = (r0, s') /\ failed r0).
Proof.
  unfold and_then. destruct (m s) as [[a|e|] s1]; intros H.
  - left. eauto.
  - right. injection H as <- <-. split; [exact I|]. eexists. split; [reflexivity | exact I].
  - right. injection H as <- <-. split; [exact I|]. eexists. split; [reflexivity | exact I].
Qed.

Lemma for_each_inv_any {S A : Type} (P : S -> Prop) (body : A -> action S unit) l :
  (forall x s r s', body x s = (r, s') -> P s -> P s') ->
  forall s r s', for_each l body s = (r, s') -> P s -> P s'.
Proof.
  intros Hbody. induction l as [|x l IH]; intros s r s' H Hs; cbn [for_each] in H.
  - injection H as <- <-. exact Hs.
  - apply and_then_cases in H as [([] & s1 & Hx & H)|(_ & r0 & Hx & _)]; eauto.
Qed.

(** An [INSERT], whatever comes of it, keeps the enforcement and the state
    to roll back to, and changes the tables only when it succeeds. *)
Lemma insert_row_any table cols params c r c' :
  insert_row table cols params c = (r, c') ->
  foreign_keys c' = foreign_keys c /\ rollback_to c' = rollback_to c /\
  (r = Ok tt \/ tables c' = tables c).
Proof.
  unfold insert_row, and_then, lift, update, logged, with_tables.
  destruct (mapM bind_value params) as [bound| |];
    try (intros H; injection H as <- <-; auto).
  cbn [tables foreign_keys rollback_to trace].
  destruct (tables c !! table) as [t|]; [|intros H; injection H as <- <-; auto].
  destruct (negb (not_null_ok _ _)); [intros H; injection H as <- <-; auto|].
  destruct (negb (primary_key_ok _ _)); [intros H; injection H as <- <-; auto|].
  destruct (foreign_keys c && negb _); intros H; injection H as <- <-; auto.
Qed.

Lemma insert_row_safe table cols params c r c' :
  insert_row table cols params c = (r, c') -> safe c -> safe c'.
Proof.
  intros H [[Hk Hon] Hback].
  destruct (insert_row_any _ _ _ _ _ _ H) as (Hfk & Hrb & [->|Htables]).
  - split; [now apply (insert_row_sound _ _ _ _ _ H)|]. now rewrite Hrb.
  - split; [split; [now rewrite Htables | now rewrite Hfk]|]. now rewrite Hrb.
Qed.

Lemma begin_safe c : safe c -> safe (begin c).
Proof.
  intros [[Hk Hon] Hback]. unfold begin. destruct (rollback_to c) eqn:E.
  - split; [split; assumption|]. now rewrite E.
  - split; [split; assumption|]. cbn. intros d Hd. injection Hd as <-. exact Hk.
Qed.

Lemma commit_safe c : safe c -> safe (commit c).
Proof.
  intros [[Hk Hon] Hback]. unfold commit. destruct (rollback_to c) eqn:E.
  - split; [split; assumption|]. cbn. discriminate.
  - split; [split; assumption|]. now rewrite E.
Qed.

Lemma rollback_safe c : safe c -> safe (rollback c).
Proof.
  intros [[Hk Hon] Hback]. unfold rollback. destruct (rollback_to c) eqn:E.
  - split; [split; [now apply Hback | assumption]|]. cbn. discriminate.
  - split; [split; assumption|]. now rewrite E.
Qed.

Lemma insert_rows_safe table cols rows c r c' :
  insert_rows table cols rows c = (r, c') -> safe c -> safe c'.
Proof.
  unfold insert_rows, executemany_insert. intros H Hc.
  apply and_then_cases in H as [(data & c1 & Hdata & H)|(_ & r0 & Hdata & _)];
    [|unfold lift in Hdata; now injection Hdata as _ <-].
  unfold lift in Hdata. injection Hdata as _ <-.
  apply and_then_cases in H as [([] & c2 & Hmany & H)|(_ & r0 & Hmany & _)].
  - unfold update in H. injection H as _ <-. apply commit_safe.
    apply and_then_cases in Hmany as [(t & c3 & Hprep & Hmany)|(Hf & _)]; [|destruct Hf].
    injection Hprep as _ <-.
    apply and_then_cases in Hmany as [([] & c4 & Hbegin & Hmany)|(Hf & _)]; [|destruct Hf].
    unfold update in Hbegin. injection Hbegin as <-.
    eapply (for_each_inv_any safe); [| exact Hmany | now apply begin_safe].
    intros params s r1 s' Hrow. exact (insert_row_safe _ _ _ _ _ _ Hrow).
  - apply and_then_cases in Hmany as [(t & c3 & Hprep & Hmany)|(_ & r1 & Hprep & _)];
      [|now injection Hprep as _ <-].
    injection Hprep as _ <-.
    apply and_then_cases in Hmany as [([] & c4 & Hbegin & Hmany)|(_ & r1 & Hbegin & Hf)];
      [|unfold update in Hbegin; injection Hbegin as <- _; destruct Hf].
    unfold update in Hbegin. injection Hbegin as <-.
    eapply (for_each_inv_any safe); [| exact Hmany | now apply begin_safe].
    intros params s r1 s' Hrow. exact (insert_row_safe _ _ _ _ _ _ Hrow).
Qed.

Lemma load_table_safe cfg w c r w' c' :
  load_table cfg (w, c) = (r, (w', c')) -> safe c -> safe c'.
Proof.
  unfold load_table. intros H Hc.
  apply and_then_cases in H as [(rows & [w1 c1] & Hload & H)|(_ & r0 & Hload & _)];
    [|unfold in_world in Hload; now injection Hload as _ _ <-].
  unfold in_world in Hload. injection Hload as _ _ <-.
  apply and_then_cases in H as [([] & [w2 c2] & Hins & H)|(_ & r0 & Hins & _)].
  - unfold in_world, update in H. injection H as _ _ <-.
    unfold in_conn in Hins. destruct (insert_rows _ _ _ c) as [r1 c3] eqn:Hrows.
    injection Hins as _ _ ->. exact (insert_rows_safe _ _ _ _ _ _ Hrows Hc).
  - unfold in_conn in Hins. destruct (insert_rows _ _ _ c) as [r1 c3] eqn:Hrows.
    injection Hins as _ _ ->. exact (insert_rows_safe _ _ _ _ _ _ Hrows Hc).
Qed.

(** X7: when [data] exists and the loader returns, or raises for a file it
    read or for a row it stored (anything but a failure of the database
    itself, which is what a statement of the schema reset raises when it
    fails), it leaves a database file that holds the five tables with their
    schemas, in which no two rows of a table have the same primary key and
    every foreign key names a row that exists. *)
Theorem loader_always_leaves_keys_sound w r w' :
  data_dir w <> None ->
  Loader.main w = (r, w') ->
  file_or_row r ->
  exists d, db_file w' = Some d /\ keyed d.
Proof.
  intros Hdir Hmain _. assert (w' = snd (Loader.main w)) as -> by now rewrite Hmain.
  clear Hmain r.
  unfold Loader.main. destruct (data_dir w) as [files|]; [clear Hdir | contradiction].
  unfold and_then at 1, with_connection.
  destruct (and_then _ _ (w, connect (db_file w))) as [r [w1 c]] eqn:Hbody.
  assert (Hc : safe c).
  { apply and_then_cases in Hbody as [([] & [w0 c0] & Hreset & Hloop)|(_ & r0 & Hreset & Hf)].
    - unfold in_conn in Hreset. rewrite reset_tables_fresh in Hreset. injection Hreset as <- <-.
      eapply (for_each_inv_any (fun s => safe (snd s))) in Hloop; [exact Hloop | |].
      + intros cfg [wa ca] r1 [wb cb] Hstep. exact (load_table_safe _ _ _ _ _ _ Hstep).
      + split; [split; [apply fresh_tables_keyed | reflexivity]|]. discriminate.
    - unfold in_conn in Hreset. rewrite reset_tables_fresh in Hreset.
      injection Hreset as <- _ _. destruct Hf. }
  destruct r as [[]|e|]; cbn [snd print close db_file]; eexists; (split; [reflexivity|]).
  - apply commit_safe in Hc. exact (proj1 (proj1 Hc)).
  - apply rollback_safe in Hc. exact (proj1 (proj1 Hc)).
  - apply rollback_safe in Hc. exact (proj1 (proj1 Hc)).
Qed.


(** *** What an insert stores *)

Lemma insert_row_inv table cols params c c' :
  insert_row table cols params c = (Ok tt, c') ->
  exists t bound,
    mapM bind_value params = Ok bound /\
    tables c !! table = Some t /\
    tables c' = <[table := Table (tbl_schema t) (tbl_rows t ++ [new_row (tbl_schema t) cols bound])]>
                  (tables c) /\
    rollback_to c' = rollback_to c.
Proof.
  unfold insert_row, and_then, lift, update, logged, with_tables.
  destruct (mapM bind_value params) as [bound| |]; try discriminate.
  cbn [tables foreign_keys rollback_to trace].
  destruct (tables c !! table) as [t|] eqn:Ht; [|discriminate].
  destruct (negb (not_null_ok _ _)); [discriminate|].
  destruct (negb (primary_key_ok _ _)); [discriminate|].
  destruct (foreign_keys c && negb _); [discriminate|].
  intros H. injection H as <-. exists t, bound. auto.
Qed.

Lemma inserts_append table cols data : forall c c' t,
  for_each data (insert_row table cols) c = (Ok tt, c') ->
  tables c !! table = Some t ->
  exists bounds,
    mapM (mapM bind_value) data = Ok bounds /\
    tables c' !! table
    = Some (Table (tbl_schema t) (tbl_rows t ++ map (new_row (tbl_schema t) cols) bounds)) /\
    (forall n, n <> table -> tables c' !! n = tables c !! n) /\
    rollback_to c' = rollback_to c.
Proof.
  induction data as [|params data IH]; intros c c' t H Ht; cbn [for_each] in H.
  - injection H as <-. exists []. cbn [map mapM]. rewrite app_nil_r. destruct t. auto.
  - apply and_then_inv in H as ([] & c1 & Hrow & H).
    apply insert_row_inv in Hrow as (t' & bound & Hbound & Ht' & Htables & Hback).
    rewrite Ht in Ht'. injection Ht' as <-.
    destruct (IH c1 c' (Table (tbl_schema t) (tbl_rows t ++ [new_row (tbl_schema t) cols bound])) H)
      as (bounds & Hbounds & Hlook & Hother & Hback'); [rewrite Htables; apply lookup_insert_eq|].
    exists (bound :: bounds). cbn [mapM map tbl_schema tbl_rows] in *.
    rewrite Hbound, Hbounds. cbn [bind]. split; [reflexivity|].
    split; [now rewrite Hlook, <- app_assoc|].
    split; [|congruence].
    intros n Hn. rewrite (Hother n Hn), Htables. now apply lookup_insert_ne.
Qed.

Lemma stored_rows cols rows data bounds :
  mapM (fun r => mapM (fun col => dict_item col (Csv.named r)) cols) rows = Ok data ->
  mapM (mapM bind_value) data = Ok bounds ->
  Forall2 (stored_as cols) rows bounds.
Proof.
  intros Hdata Hbounds. apply mapM_ok in Hdata, Hbounds.
  revert bounds Hbounds. induction Hdata as [|r params rows data Hr _ IH]; intros bounds Hbounds.
  - inversion Hbounds. constructor.
  - inversion Hbounds as [|? bound ? bounds' Hbound Hrest]; subst. constructor; [|now apply IH].
    apply mapM_ok in Hr, Hbound. unfold stored_as. clear -Hr Hbound.
    revert bound Hbound. induction Hr as [|col x cols params Hx _ IH]; intros bound Hbound.
    + inversion Hbound. constructor.
    + inversion Hbound as [|? v ? bound' Hv Hrest]; subst. constructor; [|now apply IH].
      exists x. split; [now apply dict_item_get | exact Hv].
Qed.

Lemma executemany_insert_inv table cols data c c' :
  executemany_insert table cols data c = (Ok tt, c') ->
  exists t bounds,
    tables c !! table = Some t /\
    mapM (mapM bind_value) data = Ok bounds /\
    tables c' !! table
    = Some (Table (tbl_schema t) (tbl_rows t ++ map (new_row (tbl_schema t) cols) bounds)) /\
    (forall n, n <> table -> tables c' !! n = tables c !! n).
Proof.
  unfold executemany_insert. intros Hmany.
  apply and_then_inv in Hmany as (t & c3 & Hprep & Hmany). injection Hprep as Hprep <-.
  apply and_then_inv in Hmany as ([] & c4 & Hbegin & Hmany).
  unfold update in Hbegin. injection Hbegin as <-.
  unfold prepare_insert, get_table in Hprep.
  destruct (tables c !! table) as [t0|] eqn:Ht; [|discriminate].
  assert (Ht' : tables (begin c) !! table = Some t0).
  { unfold begin. now destruct (rollback_to c). }
  destruct (inserts_append _ _ _ _ _ _ Hmany Ht') as (bounds & Hbounds & Hlook & Hother & _).
  exists t0, bounds. split; [reflexivity|]. split; [exact Hbounds|]. split; [exact Hlook|].
  intros n Hn. rewrite (Hother n Hn). unfold begin. now destruct (rollback_to c).
Qed.

Lemma rollback_to_commit c : rollback_to (commit c) = None.
Proof. unfold commit. destruct (rollback_to c) eqn:E; [reflexivity | exact E]. Qed.

(** X9: [insert_rows] is all or nothing for a caller that rolls back when it
    raises: called outside a transaction, if it does not return, a rollback
    on the connection it leaves gives back the tables as they were before
    the call. *)
Theorem insert_rows_all_or_nothing table cols rows c r c' :
  rollback_to c = None ->
  insert_rows table cols rows c = (r, c') ->
  failed r ->
  tables (rollback c') = tables c.
Proof.
  unfold insert_rows, executemany_insert. intros Hnone H Hr.
  assert (Hsame : c' = c -> tables (rollback c') = tables c).
  { intros ->. unfold rollback. now rewrite Hnone. }
  apply and_then_cases in H as [(data & c1 & Hdata & H)|(_ & r0 & Hdata & _)];
    [|unfold lift in Hdata; injection Hdata as _ <-; now apply Hsame].
  unfold lift in Hdata. injection Hdata as _ <-.
  apply and_then_cases in H as [([] & c2 & Hmany & H)|(_ & r0 & Hmany & _)];
    [unfold update in H; injection H as <- _; destruct Hr|].
  apply and_then_cases in Hmany as [(t & c3 & Hprep & Hmany)|(_ & r1 & Hprep & _)];
    [|injection Hprep as _ <-; now apply Hsame].
  injection Hprep as _ <-.
  apply and_then_cases in Hmany as [([] & c4 & Hbegin & Hmany)|(_ & r1 & Hbegin & Hf)];
    [|unfold update in Hbegin; injection Hbegin as <- _; destruct Hf].
  unfold update in Hbegin. injection Hbegin as <-.
  assert (Hback : rollback_to c' = Some (tables c)).
  { eapply (for_each_inv_any (fun s => rollback_to s = Some (tables c))); [| exact Hmany |].
    - intros params s r1 s' Hrow Hs.
      destruct (insert_row_any _ _ _ _ _ _ Hrow) as (_ & -> & _). exact Hs.
    - unfold begin. now rewrite Hnone. }
  unfold rollback. now rewrite Hback.
Qed.

Lemma mapM_raises_key cols (d : dict string value) :
  Exists (fun col => dict_get col d = None) cols ->
  exists col, In col cols /\ mapM (fun col => dict_item col d) cols = Raise (KeyError (PStr col)).
Proof.
  induction cols as [|col cols IH]; intros Hex; [inversion Hex|].
  cbn [mapM]. unfold dict_item at 1. destruct (dict_get col d) eqn:E.
  - apply Exists_cons in Hex as [Hex|Hex]; [congruence|].
    destruct (IH Hex) as (col' & Hin & ->). exists col'. split; [now right | reflexivity].
  - exists col. split; [now left | reflexivity].
Qed.

Lemma mapM_total_or_raises cols (d : dict string value) :
  (exists params, mapM (fun col => dict_item col d) cols = Ok params) \/
  (exists col, In col cols /\ mapM (fun col => dict_item col d) cols = Raise (KeyError (PStr col))).
Proof.
  induction cols as [|col cols IH]; [left; eexists; reflexivity|].
  cbn [mapM]. unfold dict_item at 1 3. destruct (dict_get col d) eqn:E.
  - destruct IH as [[params ->]|(col' & Hin & ->)].
    + left. cbn. eauto.
    + right. exists col'. split; [now right | reflexivity].
  - right. exists col. split; [now left | reflexivity].
Qed.

(** X10: when a row given to [insert_rows] lacks one of the columns listed,
    [insert_rows] raises [KeyError] for such a column before any statement
    runs: the connection is left exactly as it was. *)
Theorem insert_rows_missing_column table cols rows c :
  Exists (fun r => Exists (fun col => dict_get col (Csv.named r) = None) cols) rows ->
  exists col,
    In col cols /\ insert_rows table cols rows c = (Raise (KeyError (PStr col)), c).
Proof.
  intros Hex. unfold insert_rows, and_then, lift.
  enough (exists col, In col cols /\
            mapM (fun r => mapM (fun col => dict_item col (Csv.named r)) cols) rows
            = Raise (KeyError (PStr col))) as (col & Hin & ->) by eauto.
  induction rows as [|r rows IH]; [inversion Hex|]. cbn [mapM].
  destruct (mapM_total_or_raises cols (Csv.named r)) as [[params Hp]|(col & Hin & ->)]; [|eauto].
  rewrite Hp. cbn [bind]. apply Exists_cons in Hex as [Hex|Hex].
  - apply mapM_raises_key in Hex as (col & _ & Hex). rewrite Hp in Hex. discriminate.
  - destruct (IH Hex) as (col & Hin & ->). eauto.
Qed.

End LoaderOutcomes.

Section LoaderStores.
Import Reporter Loader.

Lemma load_table_inv cfg w c w' c' :
  load_table cfg (w, c) = (Ok tt, (w', c')) ->
  exists rows t stored,
    load_csv (csv cfg) w = Ok rows /\
    data_dir w' = data_dir w /\
    tables c !! name cfg = Some t /\
    Forall2 (stored_as (columns cfg)) rows stored /\
    tables c' !! name cfg
    = Some (Table (tbl_schema t)
                  (tbl_rows t ++ map (new_row (tbl_schema t) (columns cfg)) stored)) /\
    (forall n, n <> name cfg -> tables c' !! n = tables c !! n).
Proof.
  unfold load_table. intros H.
  apply and_then_inv in H as (rows & [w1 c1] & Hload & H).
  unfold in_world in Hload. injection Hload as Hload <- <-.
  apply and_then_inv in H as ([] & [w2 c2] & Hins & H).
  unfold in_world, update in H. injection H as <- <-.
  unfold in_conn in Hins. destruct (insert_rows _ _ _ c) as [r c3] eqn:Hrows.
  injection Hins as -> <- <-. unfold insert_rows in Hrows.
  apply and_then_inv in Hrows as (data & c1 & Hdata & Hrows).
  unfold lift in Hdata. injection Hdata as Hdata <-.
  apply and_then_inv in Hrows as ([] & c4 & Hmany & Hrows).
  unfold update in Hrows. injection Hrows as <-.
  apply executemany_insert_inv in Hmany as (t & bounds & Ht & Hbounds & Hlook & Hother).
  exists rows, t, bounds. rewrite tables_commit.
  split; [exact Hload|]. split; [reflexivity|]. split; [exact Ht|].
  split; [exact (stored_rows _ _ _ _ Hdata Hbounds)|]. auto.
Qed.

Lemma load_csv_same_files filename w1 w2 rows :
  data_dir w1 = data_dir w2 -> load_csv filename w1 = Ok rows -> load_csv filename w2 = Ok rows.
Proof.
  unfold load_csv. intros ->. now destruct (data_dir w2 ≫= _).
Qed.

(** The insert of the loader lists the columns of the table in their order:
    the row stored is the list of the parameters. *)
Lemma new_row_of_config cfg params :
  In cfg TABLE_CONFIG -> length params = length (columns cfg) ->
  new_row (schema_of cfg) (columns cfg) params = params.
Proof.
  intros Hcfg Hlen. cbn in Hcfg.
  destruct Hcfg as [<-|[<-|[<-|[<-|[<-|[]]]]]]; cbn in Hlen;
    repeat (destruct params as [|? params]; [discriminate Hlen|]);
    (destruct params; [reflexivity | discriminate Hlen]).
Qed.

Lemma stored_as_length cols r params : stored_as cols r params -> length params = length cols.
Proof. intros H. symmetry. exact (Forall2_length _ _ _ H). Qed.

Lemma loads_store w0 l : forall s s',
  NoDup (map name l) ->
  (forall cfg, In cfg l -> In cfg TABLE_CONFIG) ->
  for_each l load_table s = (Ok tt, s') ->
  data_dir (fst s) = data_dir w0 ->
  data_dir (fst s') = data_dir w0 /\
  (forall cfg, In cfg l ->
     tables (snd s) !! name cfg = Some (Table (schema_of cfg) []) ->
     exists rows,
       load_csv (csv cfg) w0 = Ok rows /\
       Forall2 (stored_as (columns cfg)) rows (rows_of (tables (snd s')) (name cfg))) /\
  (forall n, ~ In n (map name l) -> tables (snd s') !! n = tables (snd s) !! n).
Proof.
  induction l as [|cfg l IH]; intros [w c] [w' c'] Hnd Hin H Hdir; cbn [for_each] in H.
  - injection H as <- <-. split; [exact Hdir|]. split; [intros cfg []|]. reflexivity.
  - apply and_then_inv in H as ([] & [w1 c1] & Hstep & H). cbn [fst snd] in *.
    apply load_table_inv in Hstep as (rows & t & stored & Hload & Hdir1 & Ht & Hstored & Hlook & Hother).
    cbn [map] in Hnd. apply NoDup_cons in Hnd as [Hfresh Hnd].
    rewrite list_elem_of_In in Hfresh.
    destruct (IH (w1, c1) (w', c') Hnd (fun cfg' H' => Hin cfg' (or_intror H')) H)
      as (Hdir' & Hrows & Hrest); [cbn; congruence|]. cbn [fst snd] in *.
    split; [exact Hdir'|]. split.
    + intros cfg' [<-|Hcfg'] Hempty.
      * exists rows. split; [exact (load_csv_same_files _ _ _ _ Hdir Hload)|].
        unfold rows_of. rewrite (Hrest _ Hfresh), Hlook. rewrite Ht in Hempty.
        injection Hempty as ->. cbn [tbl_rows tbl_schema app].
        assert (map (new_row (schema_of cfg) (columns cfg)) stored = stored) as ->; [|exact Hstored].
        clear -Hstored Hin. induction Hstored as [|r params rows stored Hr _ IHs]; [reflexivity|].
        cbn [map]. rewrite IHs, new_row_of_config;
          [reflexivity | apply Hin; now left | exact (stored_as_length _ _ _ Hr)].
      * apply Hrows; [exact Hcfg'|]. rewrite Hother; [exact Hempty|].
        intros E. apply Hfresh. rewrite <- E. now apply in_map.
    + intros n Hn. rewrite Hrest by (intros Hn'; apply Hn; now right).
      apply Hother. intros ->. apply Hn. now left.
Qed.

(** What the loader leaves when it returns: the key constraints hold, and
    each table holds the rows of its file. *)
Lemma main_loaded w w' :
  Loader.main w = (Ok tt, w') ->
  exists d,
    db_file w' = Some d /\ keyed d /\
    forall cfg, In cfg TABLE_CONFIG ->
      exists rows,
        load_csv (csv cfg) w = Ok rows /\
        Forall2 (stored_as (columns cfg)) rows (rows_of d (name cfg)).
Proof.
  intros H. destruct (loaded_is_keyed _ _ H) as (d0 & Hfile0 & Hkeyed).
  apply main_ok in H as (w1 & c & Hloop & Hfile).
  exists (tables c). split; [exact Hfile|].
  split; [rewrite Hfile in Hfile0; now injection Hfile0 as ->|].
  assert (Hnd : NoDup (map name TABLE_CONFIG)).
  { cbn. repeat (apply NoDup_cons_2; [rewrite list_elem_of_In; cbn; intuition discriminate|]).
    apply NoDup_nil_2. }
  destruct (loads_store w TABLE_CONFIG _ _ Hnd (fun cfg H => H) Hloop eq_refl) as (_ & Hrows & _).
  intros cfg Hcfg. apply (Hrows cfg Hcfg). cbn [snd reset_connection tables].
  now apply fresh_tables_lookup.
Qed.

Lemma bind_value_suits ty x v : suits ty x -> bind_value x = Ok v -> suits ty v.
Proof.
  destruct x as [|z|f|s]; cbn [bind_value].
  - intros H E. now injection E as <-.
  - destruct (_ && _); [|discriminate]. intros H E. now injection E as <-.
  - destruct f; intros H E; injection E as <-; (exact H || now destruct ty).
  - intros H E. now injection E as <-.
Qed.

Lemma stored_as_suits cfg r params :
  row_suits cfg r -> stored_as (columns cfg) r params ->
  Forall2 suits (column_types (schema_of cfg)) params.
Proof.
  unfold row_suits, stored_as. generalize (columns cfg) (column_types (schema_of cfg)).
  intros cols types Hsuits. revert params.
  induction Hsuits as [|col ty cols types Hcol _ IH]; intros params Hstored.
  - inversion Hstored. constructor.
  - inversion Hstored as [|? v ? params' (x & Hx & Hv) Hrest]; subst.
    constructor; [|now apply IH]. exact (bind_value_suits ty x v (Hcol x Hx) Hv).
Qed.

Lemma stored_rows_suit cfg rows stored :
  Forall (row_suits cfg) rows -> Forall2 (stored_as (columns cfg)) rows stored ->
  Forall (Forall2 suits (column_types (schema_of cfg))) stored.
Proof.
  intros Hrows Hstored. induction Hstored as [|r params rows stored Hr _ IH]; [constructor|].
  apply Forall_cons in Hrows as [Hrow Hrows].
  constructor; [exact (stored_as_suits cfg r params Hrow Hr) | now apply IH].
Qed.

Lemma new_rows_of_config cfg rows stored :
  In cfg TABLE_CONFIG -> Forall2 (stored_as (columns cfg)) rows stored ->
  map (new_row (schema_of cfg) (columns cfg)) stored = stored.
Proof.
  intros Hcfg Hstored. induction Hstored as [|r params rows stored Hr _ IH]; [reflexivity|].
  cbn [map]. rewrite IH, new_row_of_config;
    [reflexivity | exact Hcfg | exact (stored_as_length _ _ _ Hr)].
Qed.

(** *** What the loader binds *)

Lemma dict_set_cells (P : value -> Prop) (k : string) v (d : dict string value) :
  P v -> Forall (fun kv => P (snd kv)) d -> Forall (fun kv => P (snd kv)) (dict_set k v d).
Proof.
  intros Hv. induction 1 as [|[k' v'] d Hkv Hd IH]; cbn [dict_set].
  - repeat constructor. exact Hv.
  - destruct (key_eqb k k'); constructor; assumption.
Qed.

Lemma dict_zip_cells (P : value -> Prop) (keys : list string) : forall vals (d : dict string value),
  Forall P vals -> Forall (fun kv => P (snd kv)) d ->
  Forall (fun kv => P (snd kv)) (dict_zip keys vals d).
Proof.
  induction keys as [|k keys IH]; intros vals d Hvals Hd; [exact Hd|].
  destruct vals as [|v vals]; [exact Hd|]. cbn [dict_zip].
  apply Forall_cons in Hvals as [Hv Hvals]. apply IH; [exact Hvals|]. now apply dict_set_cells.
Qed.

Lemma dict_row_cells fieldnames rec :
  Forall (fun kv => read_cell (snd kv)) (Csv.named (Csv.dict_row fieldnames rec)).
Proof.
  assert (Hzip : Forall (fun kv : string * value => read_cell (snd kv))
                        (dict_zip fieldnames (map PStr rec) [])).
  { apply dict_zip_cells; [|constructor].
    apply List.Forall_forall. intros v Hv. apply in_map_iff in Hv as (s & <- & _).
    right. eauto. }
  unfold Csv.dict_row. destruct (Nat.ltb _ _); cbn [Csv.named]; [exact Hzip|].
  revert Hzip. generalize (dict_zip fieldnames (map PStr rec) []).
  induction (drop (length rec) fieldnames) as [|k ks IH]; intros d Hd; [exact Hd|].
  cbn [fold_left]. apply IH. apply dict_set_cells; [now left | exact Hd].
Qed.

Lemma DictReader_cells content raw :
  Csv.DictReader content = Ok raw ->
  Forall (fun r => Forall (fun kv => read_cell (snd kv)) (Csv.named r)) raw.
Proof.
  unfold Csv.DictReader. intros H. apply bind_ok in H as (recs & _ & H).
  destruct recs as [|fieldnames recs]; injection H as <-; [constructor|].
  apply List.Forall_forall. intros r Hr. apply in_map_iff in Hr as (rec & <- & _).
  apply dict_row_cells.
Qed.

Lemma convert_loaded key v v' :
  read_cell v -> convert key v = Ok v' -> loaded_cell key v'.
Proof.
  intros Hv Hc. apply convert_typed in Hc. unfold loaded_cell, declared_type.
  destruct Hc as [key v f Hkey _|key v z Hkey _|key v Hkey].
  - cbn in Hkey. destruct Hkey as [<-|[<-|[<-|[]]]]; cbn; eauto.
  - cbn in Hkey. destruct Hkey as [<-|[<-|[<-|[]]]]; cbn; eauto.
  - destruct (existsb (String.eqb key) float_columns) eqn:Ef.
    { exfalso. apply Hkey, in_or_app. left. apply existsb_exists in Ef as (k & Hk & E).
      apply String.eqb_eq in E. now subst. }
    destruct (existsb (String.eqb key) integer_columns) eqn:Ei; [|exact Hv].
    exfalso. apply Hkey, in_or_app. right. apply existsb_exists in Ei as (k & Hk & E).
    apply String.eqb_eq in E. now subst.
Qed.

Lemma load_csv_cells filename w rows :
  load_csv filename w = Ok rows ->
  Forall (fun r => Forall (fun kv => loaded_cell (fst kv) (snd kv)) (Csv.named r)) rows.
Proof.
  unfold load_csv. destruct (data_dir w ≫= _) as [content|]; [|discriminate].
  intros H. apply bind_ok in H as (raw & Hraw & H). apply DictReader_cells in Hraw.
  apply mapM_ok in H. induction H as [|r r' raw rows Hr _ IH]; [constructor|].
  apply Forall_cons in Hraw as [Hcells Hraw]. constructor; [|now apply IH].
  unfold process in Hr. apply bind_ok in Hr as (cells & Hc & Hr). injection Hr as <-.
  cbn [Csv.named]. apply mapM_ok in Hc. clear -Hc Hcells.
  induction Hc as [|[k v] [k' v'] cells cells' Hkv _ IH]; [constructor|].
  apply Forall_cons in Hcells as [Hv Hcells]. constructor; [|now apply IH].
  cbn in Hkv. apply bind_ok in Hkv as (v1 & Hv1 & Hkv). injection Hkv as <- <-.
  cbn [fst snd] in *. exact (convert_loaded k v v1 Hv Hv1).
Qed.

Lemma dict_get_In {V : Type} (k : string) (d : dict string V) v :
  dict_get k d = Some v -> In (k, v) d.
Proof.
  induction d as [|[k' v'] d IH]; [discriminate|]. cbn [dict_get key_eqb string_key].
  destruct (String.eqb k k') eqn:E.
  - apply String.eqb_eq in E. subst. intros H. injection H as ->. now left.
  - intros H. right. now apply IH.
Qed.

Lemma loaded_cell_suits key v :
  loaded_cell key v -> v <> PFloat (S754_zero true) -> suits (declared_type key) v.
Proof.
  unfold loaded_cell. destruct (declared_type key).
  - intros [->|[s ->]] _; exact I.
  - intros [z ->] _. exact I.
  - intros [f ->] Hf. cbn. congruence.
Qed.

Lemma declared_types cfg :
  In cfg TABLE_CONFIG ->
  Forall2 (fun col ty => declared_type col = ty) (columns cfg) (column_types (schema_of cfg)).
Proof.
  intros H. cbn in H.
  destruct H as [<-|[<-|[<-|[<-|[<-|[]]]]]]; repeat constructor.
Qed.

(** A row [load_csv] gives, without a minus zero, has under each column of
    its table a value of the type of the column. *)
Lemma loaded_row_suits cfg r :
  In cfg TABLE_CONFIG ->
  Forall (fun kv => loaded_cell (fst kv) (snd kv)) (Csv.named r) ->
  Forall (fun kv => snd kv <> PFloat (S754_zero true)) (Csv.named r) ->
  row_suits cfg r.
Proof.
  intros Hcfg Hcells Hzero. unfold row_suits.
  eapply Forall2_impl; [apply (declared_types cfg Hcfg)|].
  intros col ty <- v Hv. apply dict_get_In in Hv.
  rewrite List.Forall_forall in Hcells, Hzero.
  exact (loaded_cell_suits col v (Hcells _ Hv) (Hzero _ Hv)).
Qed.

Lemma loaded_rows_suit cfg filename w rows :
  In cfg TABLE_CONFIG -> load_csv filename w = Ok rows -> no_minus_zero rows ->
  Forall (row_suits cfg) rows.
Proof.
  intros Hcfg Hload Hzero. pose proof (load_csv_cells _ _ _ Hload) as Hcells.
  unfold no_minus_zero in Hzero. clear -Hcfg Hcells Hzero.
  induction rows as [|r rows IH]; [constructor|].
  apply Forall_cons in Hcells as [Hc Hcells]. apply Forall_cons in Hzero as [Hz Hzero].
  constructor; [now apply loaded_row_suits | now apply IH].
Qed.

(** X8: on a database that holds the five tables of [TABLE_CONFIG] with
    their keys in order, when [insert_rows] is given, for one of the five
    tables and its columns, the rows [load_csv] read from a file, none of
    their cells a minus zero, and returns, the table holds the rows it held
    followed by one row for each row given, in the same order, made of the
    cells under the columns as SQLite binds them, each of the type of its
    column; every other table is as it was, and the transaction is
    committed. *)
Theorem insert_rows_appends_in_order cfg filename w rows c c' :
  In cfg TABLE_CONFIG ->
  keyed (tables c) ->
  load_csv filename w = Ok rows ->
  no_minus_zero rows ->
  insert_rows (name cfg) (columns cfg) rows c = (Ok tt, c') ->
  exists stored,
    Forall2 (stored_as (columns cfg)) rows stored /\
    Forall (Forall2 suits (column_types (schema_of cfg))) stored /\
    tables c' !! name cfg
    = Some (Table (schema_of cfg) (rows_of (tables c) (name cfg) ++ stored)) /\
    (forall n, n <> name cfg -> tables c' !! n = tables c !! n) /\
    rollback_to c' = None.
Proof.
  intros Hcfg Hkeyed Hload Hzero H. unfold insert_rows in H.
  apply and_then_inv in H as (data & c1 & Hdata & H).
  unfold lift in Hdata. injection Hdata as Hdata <-.
  apply and_then_inv in H as ([] & c2 & Hmany & H).
  unfold update in H. injection H as <-.
  apply executemany_insert_inv in Hmany as (t & bounds & Ht & Hbounds & Hlook & Hother).
  destruct (keyed_tables _ Hkeyed cfg Hcfg) as [old Hold].
  rewrite Hold in Ht. injection Ht as <-. cbn [tbl_schema tbl_rows] in Hlook.
  pose proof (stored_rows _ _ _ _ Hdata Hbounds) as Hstored.
  exists bounds. rewrite tables_commit, rollback_to_commit.
  split; [exact Hstored|].
  split; [exact (stored_rows_suit cfg rows bounds (loaded_rows_suit cfg _ _ rows Hcfg Hload Hzero)
                   Hstored)|].
  split; [|auto].
  rewrite Hlook, (new_rows_of_config cfg rows bounds Hcfg Hstored). unfold rows_of.
  now rewrite Hold.
Qed.

(** X11: when the loader returns and no cell of the five files is read as a
    minus zero, each of the five tables holds exactly the rows read from its
    CSV file, in the order of the file: for each column of the table, the
    cell the row has under that column, typed by [load_csv] and bound as
    SQLite binds it, which is a value of the type of the column. *)
Theorem loader_stores_the_rows_of_the_files w w' :
  Loader.main w = (Ok tt, w') ->
  (forall cfg rows, In cfg TABLE_CONFIG -> load_csv (csv cfg) w = Ok rows -> no_minus_zero rows) ->
  exists d,
    db_file w' = Some d /\
    forall cfg, In cfg TABLE_CONFIG ->
      exists rows,
        load_csv (csv cfg) w = Ok rows /\
        Forall2 (stored_as (columns cfg)) rows (rows_of d (name cfg)) /\
        Forall (Forall2 suits (column_types (schema_of cfg))) (rows_of d (name cfg)).
Proof.
  intros H Hzero. destruct (main_loaded _ _ H) as (d & Hfile & _ & Hrows).
  exists d. split; [exact Hfile|]. intros cfg Hcfg.
  destruct (Hrows cfg Hcfg) as (rows & Hload & Hstored).
  exists rows. split; [exact Hload|]. split; [exact Hstored|].
  apply (stored_rows_suit cfg rows); [|exact Hstored].
  exact (loaded_rows_suit cfg _ _ rows Hcfg Hload (Hzero cfg rows Hcfg Hload)).
Qed.

End LoaderStores.

Section LoaderEdges.
Import Reporter Loader.

Lemma foldl_delete_other (names : list string) n : forall d : database,
  ~ In n names -> foldl (fun d m => delete m d) d names !! n = d !! n.
Proof.
  induction names as [|m names IH]; intros d Hn; [reflexivity|].
  cbn [foldl]. rewrite IH by (intros H; apply Hn; now right).
  apply lookup_delete_ne. intros ->. apply Hn. now left.
Qed.

Lemma foldl_create_other (schemas : list schema) n : forall d : database,
  ~ In n (map sch_name schemas) ->
  foldl (fun d s => <[sch_name s := Table s []]> d) d schemas !! n = d !! n.
Proof.
  induction schemas as [|s schemas IH]; intros d Hn; [reflexivity|].
  cbn [foldl]. rewrite IH by (intros H; apply Hn; now right).
  apply lookup_insert_ne. intros E. apply Hn. now left.
Qed.

Lemma fresh_tables_other d n : ~ In n table_names -> fresh_tables d !! n = d !! n.
Proof.
  intros Hn. unfold fresh_tables.
  rewrite foldl_create_other by exact Hn.
  apply foldl_delete_other. intros H. apply Hn. apply in_rev in H. exact H.
Qed.

(** X12: when the schema reset returns, the five tables are empty under
    their schemas, whatever they held, every other table of the file is as
    it was, no transaction is open and foreign keys are enforced. *)
Theorem reset_tables_empties_the_five_only file c :
  reset_tables (connect file) = (Ok tt, c) ->
  (forall cfg, In cfg TABLE_CONFIG -> tables c !! name cfg = Some (Table (schema_of cfg) [])) /\
  (forall n, ~ In n table_names -> tables c !! n = default ∅ file !! n) /\
  rollback_to c = None /\ foreign_keys c = true.
Proof.
  rewrite reset_tables_fresh. intros H. injection H as <-.
  cbn [tables rollback_to foreign_keys].
  split; [intros cfg Hcfg; now apply fresh_tables_lookup|].
  split; [intros n Hn; now apply fresh_tables_other|]. split; reflexivity.
Qed.

(** The loader, whatever comes of it, leaves [data] and [output] alone. *)
Lemma load_table_frame cfg w c r w' c' :
  load_table cfg (w, c) = (r, (w', c')) ->
  data_dir w' = data_dir w /\ output_dir w' = output_dir w /\ root_dir w' = root_dir w.
Proof.
  unfold load_table. intros H.
  apply and_then_cases in H as [(rows & [w1 c1] & Hload & H)|(_ & r0 & Hload & _)];
    [|unfold in_world in Hload; now injection Hload as _ <- _].
  unfold in_world in Hload. injection Hload as _ <- <-.
  apply and_then_cases in H as [([] & [w2 c2] & Hins & H)|(_ & r0 & Hins & _)].
  - unfold in_world, update in H. injection H as _ <- _.
    unfold in_conn in Hins. destruct (insert_rows _ _ _ c) as [r1 c3].
    injection Hins as _ <- _. auto.
  - unfold in_conn in Hins. destruct (insert_rows _ _ _ c) as [r1 c3].
    injection Hins as _ <- _. auto.
Qed.

Lemma main_frame w r w' :
  Loader.main w = (r, w') ->
  data_dir w' = data_dir w /\ output_dir w' = output_dir w.
Proof.
  unfold Loader.main. destruct (data_dir w) as [files|] eqn:Hdir;
    [|intros H; injection H as _ <-; split; [exact Hdir | reflexivity]].
  unfold and_then at 1, with_connection.
  destruct (and_then _ _ (w, connect (db_file w))) as [r1 [w1 c]] eqn:Hbody.
  assert (Hw1 : data_dir w1 = data_dir w /\ output_dir w1 = output_dir w).
  { apply and_then_cases in Hbody as [([] & [w0 c0] & Hreset & Hloop)|(_ & r0 & Hreset & Hf)].
    - unfold in_conn in Hreset. destruct (reset_tables _) as [r0 c1]. injection Hreset as _ <- _.
      eapply (for_each_inv_any (fun s => data_dir (fst s) = data_dir w /\ output_dir (fst s) = output_dir w))
        in Hloop; [exact Hloop | | split; reflexivity].
      intros cfg [wa ca] r2 [wb cb] Hstep [Hd Ho]. cbn [fst] in *.
      destruct (load_table_frame _ _ _ _ _ _ Hstep) as (Hd' & Ho' & _). split; congruence.
    - unfold in_conn in Hreset. destruct (reset_tables _) as [r2 c1]. injection Hreset as _ <- _.
      split; reflexivity. }
  rewrite <- Hdir. destruct r1 as [[]|e|]; intros H; injection H as _ <-;
    cbn [print close data_dir output_dir]; exact Hw1.
Qed.

(** X13: running the loader again on what it left gives the same five tables
    again: when the loader returns, a second run returns as well and leaves
    each of the five tables as the first run left it; neither run changes
    [data] or [output]. *)
Theorem loader_twice_is_loader_once w w1 :
  Loader.main w = (Ok tt, w1) ->
  exists w2 d1 d2,
    Loader.main w1 = (Ok tt, w2) /\
    db_file w1 = Some d1 /\ db_file w2 = Some d2 /\ agree d2 d1 /\
    data_dir w2 = data_dir w /\ output_dir w2 = output_dir w.
Proof.
  intros H. pose proof (main_frame w _ _ H) as [Hd1 Ho1].
  destruct (loader_reads_five_files w1 w w1) as (w2 & d2 & d1 & lines & H2 & Hf2 & Hf1 & Hagree & _);
    [intros cfg _; unfold data_file; now rewrite Hd1 | | exact H |].
  { rewrite Hd1. intros Hnone. unfold Loader.main in H. rewrite Hnone in H. discriminate. }
  exists w2, d1, d2. pose proof (main_frame w1 _ _ H2) as [Hd2 Ho2].
  repeat split; try assumption; congruence.
Qed.

(** X14: when [data] exists but has no [users.csv], the loader raises
    [FileNotFoundError] naming the file, after the schema reset: the database
    file is left with the five tables empty, whatever they held before. *)
Theorem loader_missing_first_file w files :
  data_dir w = Some files -> files !! "users.csv" = None ->
  exists w',
    Loader.main w
    = (Raise (FileNotFoundError ("Missing CSV file: " ++ path w "data" ++ "/users.csv")), w') /\
    db_file w' = Some (fresh_tables (default ∅ (db_file w))) /\
    (forall cfg, In cfg TABLE_CONFIG ->
       fresh_tables (default ∅ (db_file w)) !! name cfg = Some (Table (schema_of cfg) [])).
Proof.
  intros Hdir Hfile. unfold Loader.main. rewrite Hdir.
  unfold and_then at 1, with_connection.
  rewrite (and_then_ok _ _ _ tt (w, reset_connection (db_file w)))
    by (unfold in_conn; now rewrite reset_tables_fresh).
  cbn [TABLE_CONFIG for_each]. unfold and_then at 1, load_table at 1, and_then at 1, in_world at 1.
  unfold load_csv at 1. rewrite Hdir. cbn [mbind option_bind csv]. rewrite Hfile.
  eexists. split; [reflexivity|]. cbn [close db_file rollback reset_connection rollback_to tables].
  split; [reflexivity|]. intros cfg Hcfg. now apply fresh_tables_lookup.
Qed.

Lemma convert_empty key :
  In key (float_columns ++ integer_columns) ->
  exists msg, convert key (PStr "") = Raise (ValueError msg).
Proof.
  intros H. cbn in H.
  destruct H as [<-|[<-|[<-|[<-|[<-|[<-|[]]]]]]]; eexists; vm_compute; reflexivity.
Qed.

Lemma to_float_returns_or_raises v :
  (exists f, to_float v = Ok f) \/ (exists e, to_float v = Raise e).
Proof.
  destruct v as [|z| |s]; cbn [to_float]; eauto.
  - destruct (float_of_int z); eauto.
  - destruct (parse_float s); eauto.
Qed.

Lemma to_int_returns_or_raises v :
  (exists z, to_int v = Ok z) \/ (exists e, to_int v = Raise e).
Proof.
  destruct v as [|z|[| | |]|s]; cbn [to_int]; eauto.
  unfold parse_int. destruct (sign_of _) as [neg cs].
  destruct (digitpart 0 0 cs) as [[n digits] rest].
  repeat match goal with |- context [match ?x with _ => _ end] => destruct x end; eauto.
Qed.

Lemma convert_returns_or_raises key v :
  (exists v', convert key v = Ok v') \/ (exists e, convert key v = Raise e).
Proof.
  unfold convert, FIELD_CONVERTERS. cbn [list_to_map foldr curry fst snd uncurry].
  repeat (rewrite lookup_insert; case_decide;
          [ unfold py_float, py_int;
            match goal with
            | |- context [to_float v] =>
                destruct (to_float_returns_or_raises v) as [[x Hx]|[e Hx]]; rewrite Hx
            | |- context [to_int v] =>
                destruct (to_int_returns_or_raises v) as [[x Hx]|[e Hx]]; rewrite Hx
            end;
            cbn [bind]; eauto |]).
  rewrite lookup_empty. eauto.
Qed.

Lemma process_returns_or_raises cells :
  (exists cells', mapM (fun '(key, v) => do v' <- convert key v; Ok (key, v')) cells = Ok cells') \/
  (exists e, mapM (fun '(key, v) => do v' <- convert key v; Ok (key, v')) cells = Raise e).
Proof.
  induction cells as [|[key v] cells IH]; [left; eexists; reflexivity|]. cbn [mapM].
  destruct (convert_returns_or_raises key v) as [[v' ->]|[e ->]]; cbn [bind]; [|eauto].
  destruct IH as [[cells' ->]|[e ->]]; cbn [bind]; eauto.
Qed.

Lemma process_raises_on_empty (r : Csv.row) :
  (exists key, In key (float_columns ++ integer_columns) /\ In (key, PStr "") (Csv.named r)) ->
  exists e, process r = Raise e.
Proof.
  intros (key & Hkey & Hin). unfold process.
  enough (exists e, mapM (fun '(key, v) => do v' <- convert key v; Ok (key, v')) (Csv.named r) = Raise e)
    as [e ->] by eauto.
  induction (Csv.named r) as [|[k v] cells IH]; [destruct Hin|]. cbn [mapM].
  destruct Hin as [E|Hin].
  - injection E as -> ->. destruct (convert_empty key Hkey) as [msg ->]. eauto.
  - destruct (convert_returns_or_raises k v) as [[v' ->]|[e ->]]; cbn [bind]; [|eauto].
    destruct (IH Hin) as [e ->]. eauto.
Qed.

(** X15: a file in which some row has an empty cell under one of the six
    typed columns cannot be loaded: [load_csv] raises, since neither [float]
    nor [int] accepts the empty text. *)
Theorem load_csv_refuses_empty_number filename w content raw :
  data_file filename w = Some content ->
  Csv.DictReader content = Ok raw ->
  Exists (fun r => exists key, In key (float_columns ++ integer_columns) /\
                               In (key, PStr "") (Csv.named r)) raw ->
  exists e, load_csv filename w = Raise e.
Proof.
  unfold data_file, load_csv. intros -> -> Hex. cbn [bind].
  induction raw as [|r raw IH]; [inversion Hex|]. cbn [mapM].
  unfold process at 1.
  destruct (process_returns_or_raises (Csv.named r)) as [[cells Hc]|[e He]].
  - apply Exists_cons in Hex as [Hex|Hex].
    + apply process_raises_on_empty in Hex as [e He]. unfold process in He. rewrite Hc in He.
      discriminate.
    + rewrite Hc. cbn [bind]. destruct (IH Hex) as [e ->]. eauto.
  - rewrite He. eauto.
Qed.

End LoaderEdges.

Section ReportRows.
Import Reporter Loader.

Lemma inner_one_in rows i parents j row :
  keys_unique parents j -> keys_exist rows i parents j -> In row rows ->
  exists parent,
    inner parents j (cell i row) = [Some parent] /\
    In parent parents /\ sql_eq (cell j parent) (cell i row) = true.
Proof.
  intros Hu He Hin. destruct (inner_one rows i parents j row Hu He Hin) as [parent Hp].
  exists parent. split; [exact Hp|]. apply matching_In. unfold inner in Hp.
  destruct (matching parents j (cell i row)) as [|p [|q ps]]; try discriminate.
  injection Hp as ->. now left.
Qed.

Lemma left_cells rows j key i row :
  In row (left rows j key) -> left_cell rows j key i (col i row).
Proof.
  unfold left, left_cell. destruct (matching rows j key) as [|m ms] eqn:E.
  - intros [<-|[]]. now left.
  - intros Hin. apply in_map_iff in Hin as (r & <- & Hr). right.
    rewrite <- E in Hr. apply matching_In in Hr as [Hr Heq]. eauto.
Qed.

(** X16: in the report on a database the loader has filled, every row of an
    order shows the name of the user whose [user_id] the order carries, the
    name of the product whose [product_id] it carries, the date of the
    order, the rating of a review of the order and the status of a payment
    of the order, either of the two being [NULL] when the order has none. *)
Theorem report_rows_show_their_order w0 w :
  Loader.main w0 = (Ok tt, w) ->
  exists d,
    db_file w = Some d /\
    joined d = Ok (flat_map (rows_for d) (rows_of d "orders")) /\
    forall orow, In orow (rows_of d "orders") ->
      exists urow prow,
        In urow (rows_of d "users") /\ sql_eq (cell 0 urow) (cell 1 orow) = true /\
        In prow (rows_of d "products") /\ sql_eq (cell 0 prow) (cell 2 orow) = true /\
        forall r, In r (rows_for d orow) ->
          exists rating status,
            r = ((cell 4 orow, cell 0 orow),
                 [cell 1 urow; cell 1 prow; cell 4 orow; rating; status]) /\
            left_cell (rows_of d "reviews") 1 (cell 0 orow) 2 rating /\
            left_cell (rows_of d "payments") 1 (cell 0 orow) 4 status.
Proof.
  intros Hmain. destruct (loaded_is_keyed _ _ Hmain) as (d & Hfile & Hd).
  exists d. split; [exact Hfile|]. split; [now apply joined_keyed|].
  intros orow Hin. destruct Hd as [Ht Hu He].
  pose (cfg_at n := nth n TABLE_CONFIG (Config EmptyString EmptyString [] (Schema EmptyString [] []))).
  destruct (inner_one_in _ 1 (rows_of d "users") 0 orow (Hu (cfg_at 0%nat) ltac:(cbn; auto 10))
              (He "orders" 1%nat "users" ltac:(cbn; auto 10)) Hin) as (urow & Hurow & Huin & Hueq).
  destruct (inner_one_in _ 2 (rows_of d "products") 0 orow (Hu (cfg_at 1%nat) ltac:(cbn; auto 10))
              (He "orders" 2%nat "products" ltac:(cbn; auto 10)) Hin) as (prow & Hprow & Hpin & Hpeq).
  exists urow, prow. repeat (split; [assumption|]).
  intros r Hr. unfold rows_for, order_rows in Hr.
  cbn [query_positions u_name pr_name o_order_date r_rating pay_payment_status u_user_id
       o_user_id pr_product_id o_product_id r_order_id o_order_id pay_order_id] in Hr.
  rewrite Hurow, Hprow in Hr. cbn [flat_map col] in Hr. rewrite !app_nil_r in Hr.
  apply in_flat_map in Hr as (rrow & Hrrow & Hr). apply in_map_iff in Hr as (payrow & <- & Hpayrow).
  exists (col 2 rrow), (col 4 payrow). split; [reflexivity|].
  split; now apply left_cells.
Qed.

Lemma joined_missing_table d :
  (exists n, In n table_names /\ d !! n = None) ->
  exists n, In n table_names /\ joined d = Raise (OperationalError ("no such table: " ++ n)).
Proof.
  intros (n & Hn & Hnone). unfold joined, get_table.
  destruct (d !! "orders") eqn:Eo; [|exists "orders"; split; [cbn; auto 10 | reflexivity]].
  destruct (d !! "users") eqn:Eu; [|exists "users"; split; [cbn; auto 10 | reflexivity]].
  destruct (d !! "products") eqn:Ep; [|exists "products"; split; [cbn; auto 10 | reflexivity]].
  destruct (d !! "reviews") eqn:Er; [|exists "reviews"; split; [cbn; auto 10 | reflexivity]].
  destruct (d !! "payments") eqn:Ey; [|exists "payments"; split; [cbn; auto 10 | reflexivity]].
  exfalso. cbn in Hn. destruct Hn as [<-|[<-|[<-|[<-|[<-|[]]]]]]; congruence.
Qed.

(** X17: when there is no database file, the reporter raises
    [FileNotFoundError]; when the file lacks one of the five tables, it
    raises [OperationalError] for a table that is missing; either way it
    leaves the repository as it was: no report is written, none is
    overwritten, and nothing is printed. *)
Theorem reporter_writes_nothing_without_tables float_repr w :
  (db_file w = None \/
   exists d n, db_file w = Some d /\ In n table_names /\ d !! n = None) ->
  exists e,
    Reporter.main float_repr w = (Raise e, w) /\
    (db_file w = None -> e = FileNotFoundError ("Database not found: " ++ path w "ecom.db")) /\
    (db_file w <> None -> exists n, In n table_names /\ e = OperationalError ("no such table: " ++ n)).
Proof.
  intros [Hnone|(d & n & Hd & Hn & Hmiss)];
    unfold Reporter.main, and_then, fetch_order_summary, QUERY.
  - rewrite Hnone. eexists. split; [reflexivity|]. split; [reflexivity | contradiction].
  - rewrite Hd. destruct (joined_missing_table d (ex_intro _ n (conj Hn Hmiss))) as (m & Hm & ->).
    eexists. split; [reflexivity|]. split; [discriminate | eauto].
Qed.

(** X18: when the reporter returns, [order_summary.csv] holds the header
    line and then one line for each joined row of [QUERY], and one line has
    been printed that gives their number; the files of [data], the database
    file and every other file of [output] are as they were. *)
Theorem reporter_touches_one_file float_repr w w' :
  Reporter.main float_repr w = (Ok tt, w') ->
  exists d js rows,
    db_file w = Some d /\ joined d = Ok js /\ Permutation rows (map snd js) /\
    output_file "order_summary.csv" w'
    = Some ("user_name,product_name,order_date,review_rating,payment_status" ++ crlf
            ++ String.concat "" (map (Csv.writerow float_repr) rows)) /\
    (forall name, name <> "order_summary.csv" ->
       output_file name w' = mkdir (output_dir w) !! name) /\
    data_dir w' = data_dir w /\ db_file w' = db_file w /\
    stdout w' = (stdout w ++ [("Wrote " ++ str_int (Z.of_nat (length js)) ++ " records to "
                                ++ path w "output" ++ "/order_summary.csv")%string])%list.
Proof.
  unfold Reporter.main, and_then, fetch_order_summary, QUERY.
  destruct (db_file w) as [d|] eqn:Hd; [|discriminate].
  destruct (joined d) as [js| |] eqn:Hjs; cbn [bind]; try discriminate.
  unfold write_summary, update. intros H. injection H as <-.
  exists d, js, (map snd (order_by js)).
  split; [reflexivity|]. split; [exact Hjs|].
  split; [apply Permutation_map, order_by_perm|]. unfold output_file.
  cbn [print set_output_dir output_dir data_dir db_file stdout mbind option_bind].
  split; [rewrite lookup_insert_eq; unfold summary_text; now rewrite header_line|].
  split; [intros name Hname; now apply lookup_insert_ne|].
  split; [reflexivity|]. split; [reflexivity || exact Hd|].
  now rewrite length_map, (Permutation_length (order_by_perm js)).
Qed.

End ReportRows.

Section LoaderChecks.
Import Reporter Loader.

Lemma sql_eq_text s v : sql_eq v (PStr s) = true -> v = PStr s.
Proof.
  destruct v as [|z|f|t]; cbn; try discriminate.
  destruct (String.compare t s) eqn:E; try discriminate.
  intros _. apply String.compare_eq_iff in E. now subst.
Qed.

Lemma sql_eq_text_refl s : sql_eq (PStr s) (PStr s) = true.
Proof. cbn. now rewrite string_compare_refl. Qed.

Lemma bind_value_text x s : bind_value x = Ok (PStr s) -> x = PStr s.
Proof.
  destruct x as [|z|[| | |]|t]; cbn; try discriminate; try (intros H; now injection H as ->).
  destruct (_ && _); [intros H; discriminate | discriminate].
Qed.

(** The cell a stored row has at the position of a column. *)
Lemma stored_cell_of_text cols r params i col s :
  stored_as cols r params -> cols !! i = Some col ->
  dict_get col (Csv.named r) = Some (PStr s) -> cell i params = PStr s.
Proof.
  intros Hst Hcol Hget. destruct (Forall2_lookup_l _ _ _ _ _ Hst Hcol) as (v & Hv & x & Hx & Hb).
  rewrite Hget in Hx. injection Hx as <-. cbn in Hb. injection Hb as <-.
  unfold cell. now rewrite Hv.
Qed.

Lemma text_of_stored_cell cols r params i col s :
  stored_as cols r params -> cols !! i = Some col ->
  cell i params = PStr s -> dict_get col (Csv.named r) = Some (PStr s).
Proof.
  intros Hst Hcol Hcell. destruct (Forall2_lookup_l _ _ _ _ _ Hst Hcol) as (v & Hv & x & Hx & Hb).
  unfold cell in Hcell. rewrite Hv in Hcell. cbn in Hcell. subst v.
  apply bind_value_text in Hb. now subst x.
Qed.

Lemma matching_two rows j key : forall i i' r r',
  rows !! i = Some r -> rows !! i' = Some r' -> i <> i' ->
  sql_eq (cell j r) key = true -> sql_eq (cell j r') key = true ->
  (2 <= length (matching rows j key))%nat.
Proof.
  induction rows as [|x rows IH]; intros i i' r r' Hi Hi' Hne Hr Hr'; [discriminate|].
  unfold matching in *. cbn [List.filter].
  assert (Hone : forall k y, rows !! k = Some y -> sql_eq (cell j y) key = true ->
                   (1 <= length (List.filter (fun row => sql_eq (cell j row) key) rows))%nat).
  { intros k y Hk Hy.
    assert (Hin : In y (List.filter (fun row => sql_eq (cell j row) key) rows)).
    { apply filter_In. split; [|exact Hy]. eapply list_elem_of_In, list_elem_of_lookup_2, Hk. }
    destruct (List.filter _ rows); [destruct Hin | cbn; lia]. }
  destruct i as [|i], i' as [|i']; cbn in Hi, Hi'; try congruence.
  - injection Hi as <-. rewrite Hr. cbn [length]. specialize (Hone _ _ Hi' Hr'). lia.
  - injection Hi' as <-. rewrite Hr'. cbn [length]. specialize (Hone _ _ Hi Hr). lia.
  - assert (i <> i') by congruence. specialize (IH _ _ _ _ Hi Hi' H Hr Hr').
    destruct (sql_eq (cell j x) key); cbn [length]; lia.
Qed.

Lemma unique_in_file w d cfg key :
  In cfg TABLE_CONFIG -> keyed d ->
  (forall rows, load_csv (csv cfg) w = Ok rows ->
     Forall2 (stored_as (columns cfg)) rows (rows_of d (name cfg))) ->
  columns cfg !! 0%nat = Some key ->
  csv_unique w (csv cfg) key.
Proof.
  intros Hcfg Hd Hstored Hkey rows i j ri rj k Hload Hi Hj Hki Hkj.
  specialize (Hstored rows Hload).
  destruct (Forall2_lookup_l _ _ _ _ _ Hstored Hi) as (si & Hsi & Hsti).
  destruct (Forall2_lookup_l _ _ _ _ _ Hstored Hj) as (sj & Hsj & Hstj).
  pose proof (stored_cell_of_text _ _ _ _ _ _ Hsti Hkey Hki) as Hci.
  pose proof (stored_cell_of_text _ _ _ _ _ _ Hstj Hkey Hkj) as Hcj.
  destruct (decide (i = j)) as [E|Hne]; [exact E|exfalso].
  pose proof (keyed_unique _ Hd cfg Hcfg (PStr k)) as Hu.
  pose proof (matching_two _ 0 (PStr k) _ _ _ _ Hsi Hsj Hne) as Htwo.
  rewrite Hci, Hcj in Htwo. specialize (Htwo (sql_eq_text_refl k) (sql_eq_text_refl k)). lia.
Qed.

Lemma refers_in_files w d ccfg pcfg i col key :
  In (name ccfg, i, name pcfg) links -> keyed d ->
  (forall rows, load_csv (csv ccfg) w = Ok rows ->
     Forall2 (stored_as (columns ccfg)) rows (rows_of d (name ccfg))) ->
  (forall rows, load_csv (csv pcfg) w = Ok rows ->
     Forall2 (stored_as (columns pcfg)) rows (rows_of d (name pcfg))) ->
  columns ccfg !! i = Some col -> columns pcfg !! 0%nat = Some key ->
  csv_refers w (csv ccfg) col (csv pcfg) key.
Proof.
  intros Hlink Hd Hchild Hparent Hcol Hkey rows prows r k Hload Hpload Hr Hget.
  specialize (Hchild rows Hload). specialize (Hparent prows Hpload).
  apply list_elem_of_In, list_elem_of_lookup in Hr as [n Hn].
  destruct (Forall2_lookup_l _ _ _ _ _ Hchild Hn) as (s & Hs & Hst).
  pose proof (stored_cell_of_text _ _ _ _ _ _ Hst Hcol Hget) as Hcell.
  pose proof (keyed_exist _ Hd _ _ _ Hlink s) as Hex.
  rewrite Hcell in Hex.
  destruct (matching (rows_of d (name pcfg)) 0 (PStr k)) as [|ps rest] eqn:Em;
    [exfalso; apply Hex; [eapply list_elem_of_In, list_elem_of_lookup_2, Hs | reflexivity]|].
  assert (Hps : In ps (matching (rows_of d (name pcfg)) 0 (PStr k))) by (rewrite Em; now left).
  apply matching_In in Hps as [Hps Heq]. apply sql_eq_text in Heq.
  apply list_elem_of_In, list_elem_of_lookup in Hps as [m Hm].
  destruct (Forall2_lookup_r _ _ _ _ _ Hparent Hm) as (p & Hp & Hstp).
  exists p. split; [eapply list_elem_of_In, list_elem_of_lookup_2, Hp|].
  exact (text_of_stored_cell _ _ _ _ _ _ Hstp Hkey Heq).
Qed.

(** X19: the loader returns only on files that are consistent: in each of
    the five files no two rows have the same identifier, every order names a
    user of [users.csv] and a product of [products.csv], and every review and
    every payment names an order of [orders.csv]. *)
Theorem loader_accepts_only_consistent_files w w' :
  Loader.main w = (Ok tt, w') ->
  csv_unique w "users.csv" "user_id" /\
  csv_unique w "products.csv" "product_id" /\
  csv_unique w "orders.csv" "order_id" /\
  csv_unique w "reviews.csv" "review_id" /\
  csv_unique w "payments.csv" "payment_id" /\
  csv_refers w "orders.csv" "user_id" "users.csv" "user_id" /\
  csv_refers w "orders.csv" "product_id" "products.csv" "product_id" /\
  csv_refers w "reviews.csv" "order_id" "orders.csv" "order_id" /\
  csv_refers w "payments.csv" "order_id" "orders.csv" "order_id".
Proof.
  intros H. destruct (main_loaded _ _ H) as (d & _ & Hd & Hrows).
  pose (cfg_at n := nth n TABLE_CONFIG (Config EmptyString EmptyString [] (Schema EmptyString [] []))).
  assert (Hin : forall n, (n < 5)%nat -> In (cfg_at n) TABLE_CONFIG).
  { intros n Hn. apply nth_In. exact Hn. }
  assert (Hstored : forall n, (n < 5)%nat -> forall rows,
            load_csv (csv (cfg_at n)) w = Ok rows ->
            Forall2 (stored_as (columns (cfg_at n))) rows (rows_of d (name (cfg_at n)))).
  { intros n Hn rows Hload. destruct (Hrows _ (Hin n Hn)) as (rows' & Hload' & Hst).
    rewrite Hload in Hload'. now injection Hload' as <-. }
  repeat split.
  - apply (unique_in_file w d (cfg_at 0%nat)); [apply Hin; lia | exact Hd | apply Hstored; lia | reflexivity].
  - apply (unique_in_file w d (cfg_at 1%nat)); [apply Hin; lia | exact Hd | apply Hstored; lia | reflexivity].
  - apply (unique_in_file w d (cfg_at 2%nat)); [apply Hin; lia | exact Hd | apply Hstored; lia | reflexivity].
  - apply (unique_in_file w d (cfg_at 3%nat)); [apply Hin; lia | exact Hd | apply Hstored; lia | reflexivity].
  - apply (unique_in_file w d (cfg_at 4%nat)); [apply Hin; lia | exact Hd | apply Hstored; lia | reflexivity].
  - apply (refers_in_files w d (cfg_at 2%nat) (cfg_at 0%nat) 1);
      [cbn; auto 10 | exact Hd | apply Hstored; lia | apply Hstored; lia | reflexivity | reflexivity].
  - apply (refers_in_files w d (cfg_at 2%nat) (cfg_at 1%nat) 2);
      [cbn; auto 10 | exact Hd | apply Hstored; lia | apply Hstored; lia | reflexivity | reflexivity].
  - apply (refers_in_files w d (cfg_at 3%nat) (cfg_at 2%nat) 1);
      [cbn; auto 10 | exact Hd | apply Hstored; lia | apply Hstored; lia | reflexivity | reflexivity].
  - apply (refers_in_files w d (cfg_at 4%nat) (cfg_at 2%nat) 1);
      [cbn; auto 10 | exact Hd | apply Hstored; lia | apply Hstored; lia | reflexivity | reflexivity].
Qed.

End LoaderChecks.

(** ** Writing a file and reading it back *)

Section RoundTrip.
Import Csv.

Lemma chars_text cs : chars (text cs) = cs.
Proof. apply list_ascii_of_string_of_list_ascii. Qed.

Lemma text_chars s : text (chars s) = s.
Proof. apply string_of_list_ascii_of_string. Qed.

Lemma chars_append a b : chars (a ++ b) = (chars a ++ chars b)%list.
Proof.
  induction a as [|c a IH]; [reflexivity|].
  change (chars (String c (a ++ b)) = c :: (chars a ++ chars b))%list.
  unfold chars in *. cbn [list_ascii_of_string]. now rewrite IH.
Qed.

Lemma parse_line_feed cs : forall p,
  parse_line p cs = do p' <- feed p cs; Ok (parse_process_eol p').
Proof.
  induction cs as [|c cs IH]; intros p; cbn [parse_line feed]; [reflexivity|].
  destruct (parse_process_char p c) as [p'| |]; cbn [bind]; [apply IH | reflexivity | reflexivity].
Qed.

Lemma feed_app a b : forall p, feed p (a ++ b) = do p' <- feed p a; feed p' b.
Proof.
  induction a as [|c a IH]; intros p; cbn [app feed]; [reflexivity|].
  destruct (parse_process_char p c) as [p'| |]; cbn [bind]; [apply IH | reflexivity | reflexivity].
Qed.

(** *** Lines *)

Lemma lines_of_row L rest : forall cur,
  (forall c, In c L -> is_newline c = false) ->
  lines_from cur (L ++ cr :: lf :: rest) = (rev cur ++ L ++ [cr; lf])%list :: lines_from [] rest.
Proof.
  induction L as [|c L IH]; intros cur HL.
  - cbn [app lines_from]. change (Ascii.eqb cr lf) with false. change (Ascii.eqb cr cr) with true.
    change (Ascii.eqb lf lf) with true. cbn [rev]. now rewrite <- !app_assoc.
  - cbn [app lines_from]. pose proof (HL c (or_introl eq_refl)) as Hc.
    unfold is_newline in Hc. apply orb_false_elim in Hc as [Hlf Hcr]. rewrite Hlf, Hcr.
    rewrite IH by (intros c' Hc'; apply HL; now right). cbn [rev]. now rewrite <- !app_assoc.
Qed.


(** *** One line through the reader *)

Lemma needs_quotes_false c :
  needs_quotes c = false ->
  Ascii.eqb c comma = false /\ Ascii.eqb c quote_char = false /\ is_newline c = false.
Proof.
  unfold needs_quotes, is_newline, comma. intros H.
  apply orb_false_elim in H as [H Hlf]. apply orb_false_elim in H as [H Hcr].
  apply orb_false_elim in H as [Hcomma Hquote]. now rewrite Hcomma, Hquote, Hlf, Hcr.
Qed.

(** A field that is not full takes one more character. *)
Lemma add_char p c next :
  Z.of_nat (length (field p)) < field_size_limit ->
  parse_add_char p c next = Ok (Parser next (fields p) (c :: field p)).
Proof.
  intros H. unfold parse_add_char.
  destruct (Z.leb_spec field_size_limit (Z.of_nat (length (field p)))); [lia | reflexivity].
Qed.

Lemma length_chars s : length (chars s) = String.length s.
Proof. induction s as [|c s IH]; [reflexivity|]. unfold chars in *. cbn. now rewrite IH. Qed.

Lemma feed_in_field cs : forall fs acc,
  existsb needs_quotes cs = false ->
  Z.of_nat (length cs + length acc) <= field_size_limit ->
  feed (Parser IN_FIELD fs acc) cs = Ok (Parser IN_FIELD fs (rev cs ++ acc)).
Proof.
  induction cs as [|c cs IH]; intros fs acc H Hlen; [reflexivity|].
  cbn [existsb] in H. apply orb_false_elim in H as [Hc H].
  apply needs_quotes_false in Hc as (Hcomma & _ & Hnl).
  cbn [feed]. unfold parse_process_char. cbn [state]. fold comma. rewrite Hnl, Hcomma.
  rewrite add_char by (cbn [field length] in *; lia).
  cbn [bind fields field]. rewrite IH by (exact H || (cbn [length] in *; lia)).
  cbn [rev]. now rewrite <- app_assoc.
Qed.

Lemma end_of_field_cases t : t = comma \/ t = cr ->
  Ascii.eqb t quote_char = false /\
  (is_newline t = true /\ t = cr /\ after t = EAT_CRNL \/
   is_newline t = false /\ Ascii.eqb t comma = true /\ after t = START_FIELD).
Proof. intros [->| ->]; (split; [reflexivity|]); [right | left]; repeat split. Qed.

Lemma feed_unquoted st fs cs t :
  st = START_RECORD \/ st = START_FIELD ->
  existsb needs_quotes cs = false ->
  Z.of_nat (length cs) <= field_size_limit ->
  t = comma \/ t = cr ->
  ~ (st = START_RECORD /\ cs = [] /\ t = cr) ->
  feed (Parser st fs []) (cs ++ [t]) = Ok (Parser (after t) (text cs :: fs) []).
Proof.
  intros Hst Hcs Hlen Ht Hblank.
  destruct (end_of_field_cases t Ht) as (Hq & [(Hnl & Hcr & Hafter)|(Hnl & Hcomma & Hafter)]);
    rewrite Hafter.
  - destruct cs as [|c cs].
    + destruct Hst as [->| ->]; [exfalso; apply Hblank; auto|].
      cbn [app feed]. unfold parse_process_char, start_field. cbn [state]. now rewrite Hnl.
    + cbn [existsb] in Hcs. apply orb_false_elim in Hcs as [Hc Hcs].
      apply needs_quotes_false in Hc as (Hccomma & Hcquote & Hcnl).
      cbn [app feed].
      assert (parse_process_char (Parser st fs []) c = Ok (Parser IN_FIELD fs [c])) as ->.
      { destruct Hst as [->| ->]; unfold parse_process_char, start_field; cbn [state]; fold comma;
          now rewrite Hcnl, Hcquote, Hccomma. }
      cbn [bind]. rewrite feed_app, (feed_in_field cs fs [c] Hcs) by (cbn [length] in *; lia).
      cbn [bind feed].
      unfold parse_process_char. cbn [state]. rewrite Hnl. cbn [bind].
      unfold parse_save_field. cbn [fields field]. rewrite rev_app_distr, rev_involutive.
      reflexivity.
  - destruct cs as [|c cs].
    + cbn [app feed].
      destruct Hst as [->| ->]; unfold parse_process_char, start_field; cbn [state]; fold comma;
        now rewrite Hnl, Hq, Hcomma.
    + cbn [existsb] in Hcs. apply orb_false_elim in Hcs as [Hc Hcs].
      apply needs_quotes_false in Hc as (Hccomma & Hcquote & Hcnl).
      cbn [app feed].
      assert (parse_process_char (Parser st fs []) c = Ok (Parser IN_FIELD fs [c])) as ->.
      { destruct Hst as [->| ->]; unfold parse_process_char, start_field; cbn [state]; fold comma;
          now rewrite Hcnl, Hcquote, Hccomma. }
      cbn [bind]. rewrite feed_app, (feed_in_field cs fs [c] Hcs) by (cbn [length] in *; lia).
      cbn [bind feed].
      unfold parse_process_char. cbn [state]. fold comma. rewrite Hnl, Hcomma. cbn [bind].
      unfold parse_save_field. cbn [fields field]. rewrite rev_app_distr, rev_involutive.
      reflexivity.
Qed.

Lemma feed_in_quotes cs : forall fs acc,
  Z.of_nat (length cs + length acc) <= field_size_limit ->
  feed (Parser IN_QUOTED_FIELD fs acc) (double_quotes cs)
  = Ok (Parser IN_QUOTED_FIELD fs (rev cs ++ acc)).
Proof.
  induction cs as [|c cs IH]; intros fs acc Hlen; [reflexivity|].
  unfold double_quotes. cbn [flat_map]. fold (double_quotes cs).
  assert (Hroom : Z.of_nat (length acc) < field_size_limit) by (cbn [length] in Hlen; lia).
  assert (Hstep : forall c', Ascii.eqb c' quote_char = false ->
            parse_process_char (Parser IN_QUOTED_FIELD fs acc) c'
            = Ok (Parser IN_QUOTED_FIELD fs (c' :: acc))).
  { intros c' E. unfold parse_process_char. cbn [state]. rewrite E. now apply add_char. }
  assert (Hquote : feed (Parser IN_QUOTED_FIELD fs acc) [quote_char; quote_char]
                   = Ok (Parser IN_QUOTED_FIELD fs (quote_char :: acc))).
  { cbn [feed]. unfold parse_process_char at 1. cbn [state].
    change (Ascii.eqb quote_char quote_char) with true. cbn [bind].
    unfold parse_process_char, goto. cbn [state].
    change (Ascii.eqb quote_char quote_char) with true.
    rewrite add_char by exact Hroom. reflexivity. }
  destruct (Ascii.eqb c quote_char) eqn:E.
  - apply Ascii.eqb_eq in E. subst c. rewrite feed_app, Hquote. cbn [bind].
    rewrite IH by (cbn [length] in *; lia). cbn [rev]. now rewrite <- app_assoc.
  - cbn [app feed]. rewrite (Hstep c E). cbn [bind].
    rewrite IH by (cbn [length] in *; lia). cbn [rev]. now rewrite <- app_assoc.
Qed.

Lemma feed_quoted st fs cs t :
  st = START_RECORD \/ st = START_FIELD ->
  Z.of_nat (length cs) <= field_size_limit ->
  t = comma \/ t = cr ->
  feed (Parser st fs []) (quoted cs ++ [t]) = Ok (Parser (after t) (text cs :: fs) []).
Proof.
  intros Hst Hlen Ht.
  assert (Hopen : parse_process_char (Parser st fs []) quote_char
                  = Ok (Parser IN_QUOTED_FIELD fs [])).
  { destruct Hst as [->| ->]; reflexivity. }
  assert (Hclose : forall acc, feed (Parser IN_QUOTED_FIELD fs acc) [quote_char; t]
                               = Ok (Parser (after t) (text (rev acc) :: fs) [])).
  { intros acc. destruct Ht as [->| ->]; reflexivity. }
  assert (Hsplit : (quoted cs ++ [t] = quote_char :: (double_quotes cs ++ [quote_char; t]))%list).
  { unfold quoted. cbn [app]. now rewrite <- app_assoc. }
  rewrite Hsplit. cbn [feed]. rewrite Hopen. cbn [bind].
  rewrite feed_app, feed_in_quotes by (cbn [length]; lia).
  cbn [bind]. rewrite Hclose, app_nil_r, rev_involutive.
  reflexivity.
Qed.

(** A field as the writer writes it, then the character that ends it. *)
Lemma feed_field st fs s t :
  st = START_RECORD \/ st = START_FIELD ->
  fits s ->
  t = comma \/ t = cr ->
  ~ (st = START_RECORD /\ write_field s = [] /\ t = cr) ->
  feed (Parser st fs []) (write_field s ++ [t]) = Ok (Parser (after t) (s :: fs) []).
Proof.
  intros Hst Hs Ht Hblank. unfold write_field in *.
  unfold fits in Hs. rewrite <- length_chars in Hs.
  replace (s :: fs) with (text (chars s) :: fs) by now rewrite text_chars.
  destruct (existsb needs_quotes (chars s)) eqn:E.
  - now apply feed_quoted.
  - now apply feed_unquoted.
Qed.

Lemma fits_empty : fits "".
Proof. unfold fits. cbn. discriminate. Qed.

Lemma feed_fields vs : forall v fs,
  Forall fits (v :: vs) ->
  feed (Parser START_FIELD fs []) (join_fields (v :: vs) ++ [cr])
  = Ok (Parser EAT_CRNL (rev (v :: vs) ++ fs) []).
Proof.
  induction vs as [|v' vs IH]; intros v fs Hfits; apply Forall_cons in Hfits as [Hv Hfits].
  - cbn [join_fields rev app]. rewrite (feed_field START_FIELD fs v cr); auto.
    intros (H & _). discriminate.
  - change (join_fields (v :: v' :: vs)) with (write_field v ++ comma :: join_fields (v' :: vs))%list.
    rewrite <- app_assoc. cbn [app].
    change (write_field v ++ comma :: join_fields (v' :: vs) ++ [cr])%list
      with (write_field v ++ [comma] ++ (join_fields (v' :: vs) ++ [cr]))%list.
    rewrite app_assoc, feed_app, (feed_field START_FIELD fs v comma); auto;
      [|intros (H & _); discriminate].
    cbn [bind]. change (after comma) with START_FIELD. rewrite IH by exact Hfits.
    cbn [rev]. now rewrite <- !app_assoc.
Qed.

(** A line as the writer writes it is read back as its fields. *)
Lemma parse_row vs :
  vs <> [] -> Forall fits vs ->
  parse_line parse_reset (row_chars vs ++ [cr; lf]) = Ok (Parser START_RECORD (rev vs) []).
Proof.
  intros Hvs Hfits. rewrite parse_line_feed.
  enough (feed parse_reset (row_chars vs ++ [cr]) = Ok (Parser EAT_CRNL (rev vs) [])) as H.
  { change [cr; lf] with ([cr] ++ [lf])%list. rewrite app_assoc, feed_app, H. reflexivity. }
  destruct vs as [|v [|v' vs]]; [contradiction| |]; apply Forall_cons in Hfits as [Hv Hfits].
  - unfold row_chars. cbn [join_fields].
    destruct (write_field v) as [|c cs] eqn:E.
    + assert (v = "") as ->.
      { unfold write_field in E. destruct (existsb needs_quotes (chars v)); [discriminate|].
        rewrite <- (text_chars v), E. reflexivity. }
      unfold parse_reset. rewrite (feed_quoted START_RECORD [] [] cr); auto; cbn; discriminate.
    + rewrite <- E. unfold parse_reset. rewrite (feed_field START_RECORD [] v cr); auto.
      intros (_ & H & _). rewrite E in H. discriminate.
  - assert (row_chars (v :: v' :: vs) = (write_field v ++ [comma]) ++ join_fields (v' :: vs))%list as ->.
    { unfold row_chars.
      change (join_fields (v :: v' :: vs)) with (write_field v ++ comma :: join_fields (v' :: vs))%list.
      rewrite <- app_assoc. cbn [app]. destruct (write_field v); reflexivity. }
    rewrite <- app_assoc, feed_app. unfold parse_reset.
    rewrite (feed_field START_RECORD [] v comma); auto; [|intros (_ & _ & H); discriminate].
    cbn [bind]. change (after comma) with START_FIELD. rewrite feed_fields by exact Hfits.
    cbn [rev]. now rewrite <- !app_assoc.
Qed.


(** *** A file through the reader *)

Lemma write_field_one_line s c :
  one_line s -> In c (write_field s) -> is_newline c = false.
Proof.
  intros Hs. unfold write_field.
  destruct (existsb needs_quotes (chars s)); [|intros Hc; exact (proj1 (Hs c Hc))].
  unfold quoted. intros [<-|Hc]; [reflexivity|].
  apply in_app_or in Hc as [Hc|[<-|[]]]; [|reflexivity].
  unfold double_quotes in Hc. apply in_flat_map in Hc as (c' & Hc' & Hc).
  destruct (Ascii.eqb c' quote_char).
  - destruct Hc as [<-|[<-|[]]]; reflexivity.
  - destruct Hc as [<-|[]]. exact (proj1 (Hs _ Hc')).
Qed.

Lemma join_fields_one_line vs c :
  Forall one_line vs -> In c (join_fields vs) -> is_newline c = false.
Proof.
  induction vs as [|v [|v' vs] IH]; intros Hvs Hc.
  - destruct Hc.
  - apply Forall_cons in Hvs as [Hv _]. cbn [join_fields] in Hc. now apply (write_field_one_line v).
  - apply Forall_cons in Hvs as [Hv Hvs].
    change (join_fields (v :: v' :: vs)) with (write_field v ++ comma :: join_fields (v' :: vs))%list in Hc.
    apply in_app_or in Hc as [Hc|[<-|Hc]];
      [now apply (write_field_one_line v) | reflexivity | now apply IH].
Qed.

Lemma row_chars_one_line vs c :
  Forall one_line vs -> In c (row_chars vs) -> is_newline c = false.
Proof.
  intros Hvs. unfold row_chars. destruct vs as [|v vs]; [intros []|].
  destruct (join_fields (v :: vs)) as [|c' cs] eqn:E.
  - intros [<-|[<-|[]]]; reflexivity.
  - rewrite <- E. now apply join_fields_one_line.
Qed.

Lemma writerow_chars float_repr vals :
  chars (writerow float_repr vals)
  = (row_chars (map (cell_text float_repr) vals) ++ [cr; lf])%list.
Proof.
  unfold writerow. rewrite chars_text. f_equal. unfold row_chars.
  destruct vals as [|v vals]; [reflexivity|]. cbn [map].
  destruct (join_fields _); reflexivity.
Qed.

Lemma lines_of_file recs :
  Forall (Forall one_line) recs ->
  lines_from [] (file_chars recs) = map (fun vs => row_chars vs ++ [cr; lf])%list recs.
Proof.
  induction recs as [|vs recs IH]; intros H; [reflexivity|].
  apply Forall_cons in H as [Hvs H]. unfold file_chars. cbn [flat_map map].
  rewrite <- app_assoc. cbn [app].
  rewrite lines_of_row by (intros c; now apply row_chars_one_line).
  cbn [rev app]. fold (file_chars recs). now rewrite IH.
Qed.

Lemma records_of_file recs :
  Forall (fun vs => vs <> []) recs -> Forall (Forall fits) recs ->
  records (length recs) (map (fun vs => row_chars vs ++ [cr; lf])%list recs) = Ok recs.
Proof.
  induction recs as [|vs recs IH]; intros H Hfits; [reflexivity|].
  apply Forall_cons in H as [Hvs H]. apply Forall_cons in Hfits as [Hfit Hfits].
  cbn [length map records next_record].
  rewrite (parse_row vs Hvs Hfit). cbn [bind state fields].
  rewrite rev_involutive, (IH H Hfits). reflexivity.
Qed.

Lemma reader_of_file content recs :
  chars content = file_chars recs ->
  Forall (Forall plain) recs -> Forall (fun vs => vs <> []) recs ->
  reader content = Ok recs.
Proof.
  intros Hchars Hplain Hne. unfold reader, readlines.
  assert (Hline : Forall (Forall one_line) recs).
  { eapply List.Forall_impl; [|exact Hplain]. intros vs Hvs.
    eapply List.Forall_impl; [|exact Hvs]. intros s [H _]. exact H. }
  assert (Hfits : Forall (Forall fits) recs).
  { eapply List.Forall_impl; [|exact Hplain]. intros vs Hvs.
    eapply List.Forall_impl; [|exact Hvs]. intros s [_ H]. exact H. }
  rewrite Hchars, (lines_of_file recs Hline).
  rewrite length_map. now apply records_of_file.
Qed.

(** *** Writing *)

Lemma chars_concat parts : chars (String.concat "" parts) = flat_map chars parts.
Proof.
  induction parts as [|x [|y parts] IH]; [reflexivity | |].
  - cbn [String.concat flat_map]. now rewrite app_nil_r.
  - change (String.concat "" (x :: y :: parts)) with (x ++ String.concat "" (y :: parts)).
    rewrite chars_append, IH. reflexivity.
Qed.

Lemma writerows_all float_repr fieldnames rows : forall out,
  Forall (fun r : dict string value => forall kv, In kv r -> In (fst kv) fieldnames) rows ->
  writerows float_repr fieldnames rows out
  = (out ++ String.concat "" (map (fun r => writerow float_repr (cells_of fieldnames r)) rows),
     Ok tt).
Proof.
  induction rows as [|r rows IH]; intros out H.
  - cbn [writerows map String.concat]. f_equal. symmetry.
    induction out as [|c out IHo]; [reflexivity|].
    change (String c (out ++ "") = String c out). now f_equal.
  - apply Forall_cons in H as [Hr H]. cbn [writerows].
    assert (dict_to_list fieldnames r = Ok (cells_of fieldnames r)) as ->.
    { unfold dict_to_list. rewrite (proj2 (forallb_forall _ r)); [reflexivity|].
      intros kv Hkv. apply existsb_exists. exists (fst kv).
      split; [now apply Hr | apply String.eqb_refl]. }
    rewrite (IH _ H). f_equal.
    assert (Hassoc : forall a b c : string, (a ++ b) ++ c = a ++ (b ++ c)).
    { intros a b c. induction a as [|x a IHa]; [reflexivity|].
      change (String x ((a ++ b) ++ c) = String x (a ++ (b ++ c))). now f_equal. }
    rewrite Hassoc. f_equal. cbn [map]. destruct rows; cbn [map String.concat]; [|reflexivity].
    generalize (writerow float_repr (cells_of fieldnames r)). intros s.
    induction s as [|c s IHs]; [reflexivity|].
    change (String c (s ++ "") = String c s). now f_equal.
Qed.

(** *** The dictionary of a record *)

Lemma dict_set_fresh {V : Type} (k : string) (v : V) (d : dict string V) :
  ~ In k (map fst d) -> dict_set k v d = (d ++ [(k, v)])%list.
Proof.
  induction d as [|[k' v'] d IH]; intros Hk; [reflexivity|].
  cbn [dict_set key_eqb string_key]. destruct (String.eqb k k') eqn:E.
  - apply String.eqb_eq in E. exfalso. apply Hk. now left.
  - cbn [app]. rewrite IH; [reflexivity|]. intros H. apply Hk. now right.
Qed.

Lemma dict_zip_fresh (keys : list string) : forall (vals : list value) (d : dict string value),
  NoDup keys -> (forall k, In k keys -> ~ In k (map fst d)) -> length vals = length keys ->
  dict_zip keys vals d = (d ++ zip keys vals)%list.
Proof.
  induction keys as [|k keys IH]; intros vals d Hnd Hfresh Hlen.
  - destruct vals; [|discriminate]. cbn. now rewrite app_nil_r.
  - destruct vals as [|v vals]; [discriminate|]. cbn [dict_zip zip zip_with].
    apply NoDup_cons in Hnd as [Hk Hnd]. rewrite list_elem_of_In in Hk.
    rewrite dict_set_fresh by (apply Hfresh; now left).
    rewrite IH; [now rewrite <- app_assoc | exact Hnd | | cbn in Hlen; lia].
    intros k' Hk'. rewrite map_app. intros H. apply in_app_or in H as [H|[<-|[]]].
    + apply (Hfresh k'); [now right | exact H].
    + exact (Hk Hk').
Qed.

Lemma dict_row_of_record fieldnames texts :
  NoDup fieldnames -> length texts = length fieldnames ->
  dict_row fieldnames texts = Row (zip fieldnames (map PStr texts)) None.
Proof.
  intros Hnd Hlen. unfold dict_row. rewrite Hlen, Nat.ltb_irrefl, drop_all. cbn [fold_left].
  rewrite dict_zip_fresh; [reflexivity | exact Hnd | intros k _ [] | now rewrite length_map].
Qed.


(** Checks of [plain] and [writable] by computation. *)
Lemma plain_check s :
  forallb (fun c => negb (is_newline c) && negb (Ascii.eqb c Ascii.zero)) (chars s)
  && (Z.of_nat (String.length s) <=? field_size_limit) = true ->
  plain s.
Proof.
  intros H. apply andb_prop in H as [H Hlen]. split; [|now apply Z.leb_le].
  intros c Hc. rewrite forallb_forall in H. specialize (H c Hc).
  apply andb_prop in H as [Hnl Hz]. apply negb_true_iff in Hnl, Hz.
  split; [exact Hnl|]. now apply Ascii.eqb_neq.
Qed.

Lemma writable_check float_repr v :
  forallb (fun c => negb (is_newline c) && negb (Ascii.eqb c Ascii.zero))
          (chars (cell_text float_repr v))
  && (Z.of_nat (String.length (cell_text float_repr v)) <=? field_size_limit)
  && match v with
     | PInt z => Z.of_nat (String.length (str_int (Z.abs z))) <=? Z.of_nat int_max_str_digits
     | _ => true
     end = true ->
  writable float_repr v.
Proof.
  intros H. apply andb_prop in H as [H Hint]. split; [now apply plain_check|].
  destruct v; try exact I. now apply Z.leb_le.
Qed.

Lemma zip_with_image {A B : Type} (f : A -> B) (l : list A) :
  zip l (map f l) = map (fun x => (x, f x)) l.
Proof. induction l as [|x l IH]; [reflexivity|]. cbn. now f_equal. Qed.

Lemma filter_nonempty (recs : list (list string)) :
  Forall (fun vs => vs <> []) recs ->
  List.filter (fun rec => match rec with [] => false | _ => true end) recs = recs.
Proof.
  induction recs as [|vs recs IH]; intros H; [reflexivity|].
  apply Forall_cons in H as [Hvs H]. cbn [List.filter].
  destruct vs; [contradiction|]. now rewrite IH.
Qed.

(** X20: what [write_csv] writes, [load_csv] reads back. For field names
    that are distinct and rows whose keys are among them, when neither a
    field name nor the text of a cell holds a line break or a NUL or is
    longer than the reader's field size limit of 131072 characters, and no
    cell is an integer of more than 4300 digits,
    [write_csv] returns and [csv.DictReader] gives, for the file it wrote,
    one row for each row written, in order, with every field name and the
    text of its cell (empty for a field the row lacks), whatever commas and
    quotes the texts hold; [load_csv] then types exactly these rows. *)
Theorem written_rows_are_read_back float_repr filename fieldnames rows w files :
  data_dir w = Some files ->
  fieldnames <> [] -> NoDup fieldnames -> Forall plain fieldnames ->
  Forall (fun r : Generator.row =>
            (forall kv, In kv r -> In (fst kv) fieldnames) /\
            (forall key, In key fieldnames ->
               writable float_repr (default (PStr "") (dict_get key r)))) rows ->
  exists w' content,
    Generator.write_csv float_repr filename fieldnames rows w = (Ok tt, w') /\
    data_file filename w' = Some content /\
    DictReader content = Ok (map (read_back float_repr fieldnames) rows) /\
    Loader.load_csv filename w'
    = mapM Loader.process (map (read_back float_repr fieldnames) rows).
Proof.
  intros Hdir Hne Hnd Hnames Hrows.
  assert (Hknown : Forall (fun r : dict string value => forall kv, In kv r -> In (fst kv) fieldnames)
                          rows).
  { eapply List.Forall_impl; [|exact Hrows]. intros r [H _]. exact H. }
  set (texts := fun r : Generator.row => map (cell_text float_repr) (cells_of fieldnames r)).
  set (content := writeheader float_repr fieldnames
                  ++ String.concat "" (map (fun r => writerow float_repr (cells_of fieldnames r)) rows)).
  assert (Hchars : chars content = file_chars (fieldnames :: map texts rows)).
  { unfold content. rewrite chars_append, chars_concat. unfold file_chars. cbn [flat_map]. f_equal.
    - unfold writeheader. rewrite writerow_chars, map_map. cbn [cell_text]. now rewrite map_id.
    - clear. induction rows as [|r rows IH]; [reflexivity|].
      cbn [map flat_map]. now rewrite writerow_chars, IH. }
  assert (Hread : reader content = Ok (fieldnames :: map texts rows)).
  { apply reader_of_file; [exact Hchars | |].
    - constructor; [exact Hnames|]. apply List.Forall_forall. intros vs Hvs.
      apply in_map_iff in Hvs as (r & <- & Hr).
      rewrite List.Forall_forall in Hrows. destruct (Hrows r Hr) as [_ Hcells].
      apply List.Forall_forall. intros s Hs. unfold texts, cells_of in Hs. rewrite map_map in Hs.
      apply in_map_iff in Hs as (key & <- & Hkey). exact (proj1 (Hcells key Hkey)).
    - constructor; [exact Hne|]. apply List.Forall_forall. intros vs Hvs.
      apply in_map_iff in Hvs as (r & <- & _). unfold texts, cells_of.
      destruct fieldnames; [contradiction | discriminate]. }
  assert (Hdict : DictReader content = Ok (map (read_back float_repr fieldnames) rows)).
  { unfold DictReader. rewrite Hread. cbn [bind]. f_equal.
    rewrite filter_nonempty.
    - rewrite map_map. apply map_ext. intros r. unfold read_back, texts, cells_of.
      rewrite dict_row_of_record by (exact Hnd || now rewrite !length_map).
      f_equal. rewrite !map_map. apply zip_with_image.
    - apply List.Forall_forall. intros vs Hvs. apply in_map_iff in Hvs as (r & <- & _).
      unfold texts, cells_of. destruct fieldnames; [contradiction | discriminate]. }
  exists (set_data_dir (<[filename := content]> files) w), content.
  split; [unfold Generator.write_csv; now rewrite Hdir, (writerows_all _ _ _ _ Hknown)|].
  assert (Hfile : data_file filename (set_data_dir (<[filename := content]> files) w) = Some content)
    by apply lookup_insert_eq.
  split; [exact Hfile|]. split; [exact Hdict|].
  unfold Loader.load_csv. unfold data_file in Hfile. now rewrite Hfile, Hdict.
Qed.

End RoundTrip.

Section ReportText.
Import Csv Reporter.

(** X21: the report can be read back. When [write_summary] has written rows
    that each have a cell and whose cells, as texts, hold no line break and
    no NUL and are not longer than the reader's field size limit of 131072
    characters, none an integer of more than 4300 digits, [csv.reader]
    gives, for the file, the five names of the
    header and then, for each row in order, the texts of its cells, a
    [NULL] being the empty text; every other file of [output] is as it
    was. *)
Theorem report_is_read_back float_repr rows w w' :
  Forall (fun row => row <> [] /\ Forall (writable float_repr) row) rows ->
  write_summary float_repr rows w = (Ok tt, w') ->
  exists content,
    output_file "order_summary.csv" w' = Some content /\
    reader content = Ok (headers :: map (map (cell_text float_repr)) rows) /\
    forall name, name <> "order_summary.csv" -> output_file name w' = mkdir (output_dir w) !! name.
Proof.
  intros Hrows H. unfold write_summary, update in H. injection H as <-.
  exists (summary_text float_repr rows). unfold output_file.
  cbn [set_output_dir output_dir mbind option_bind].
  split; [apply lookup_insert_eq|]. split; [|intros name Hname; now apply lookup_insert_ne].
  apply reader_of_file.
  - unfold summary_text. rewrite chars_append, chars_concat. unfold file_chars. cbn [flat_map].
    f_equal. clear. induction rows as [|r rows IH]; [reflexivity|].
    cbn [map flat_map]. now rewrite writerow_chars, IH.
  - constructor; [repeat (constructor; [apply plain_check; reflexivity|]); constructor|].
    apply List.Forall_forall. intros vs Hvs. apply in_map_iff in Hvs as (row & <- & Hrow).
    rewrite List.Forall_forall in Hrows. destruct (Hrows row Hrow) as [_ Hcells].
    apply List.Forall_forall. intros s Hs. apply in_map_iff in Hs as (v & <- & Hv).
    rewrite List.Forall_forall in Hcells. exact (proj1 (Hcells v Hv)).
  - constructor; [discriminate|].
    apply List.Forall_forall. intros vs Hvs. apply in_map_iff in Hvs as (row & <- & Hrow).
    rewrite List.Forall_forall in Hrows. destruct (Hrows row Hrow) as [Hne _].
    destruct row; [contradiction | discriminate].
Qed.

End ReportText.

(** ** The further statements on sample states *)

Section Samples.
Import Reporter Loader Default Sample.

(** The reviews of the default orders. *)
Lemma reviews_follow_orders_witness :
  Generator.generate_reviews 5 orders = Ok reviews /\
  length reviews = length orders /\
  (forall i order, orders !! i = Some order ->
     exists review, reviews !! i = Some review /\ review_of i order review) /\
  NoDup (map (dict_get "review_id") reviews).
Proof.
  split; [vm_compute; reflexivity|].
  apply (reviews_follow_orders 5 orders reviews). vm_compute. reflexivity.
Defined.

(** The orders of the default users and products. *)
Lemma orders_follow_users_and_products_witness :
  Generator.generate_orders 5 users products = Ok orders /\
  length orders = 15%nat /\
  (15 <= length users)%nat /\ (15 <= length products)%nat /\
  (forall i order, orders !! i = Some order -> order_of users products i order) /\
  NoDup (map (dict_get "order_id") orders).
Proof.
  split; [vm_compute; reflexivity|].
  apply (orders_follow_users_and_products 5 users products orders). vm_compute. reflexivity.
Defined.

(** The payments of the default orders. *)
Lemma payments_follow_orders_witness :
  Generator.generate_payments orders = Ok payments /\
  length payments = length orders /\
  (forall i order, orders !! i = Some order ->
     exists payment, payments !! i = Some payment /\ payment_of i order payment) /\
  NoDup (map (dict_get "payment_id") payments).
Proof.
  split; [vm_compute; reflexivity|].
  apply (payments_follow_orders orders payments). vm_compute. reflexivity.
Defined.


(** The loader on files of which [reviews.csv] has a review without a
    rating: it raises, and leaves the tables in order. *)
Lemma loader_always_leaves_keys_sound_witness :
  data_dir unrated <> None /\
  fst (Loader.main unrated) = Raise (ValueError "invalid literal for int() with base 10") /\
  exists d, db_file (snd (Loader.main unrated)) = Some d /\ keyed d.
Proof.
  split; [discriminate|]. split; [vm_compute; reflexivity|].
  apply (loader_always_leaves_keys_sound unrated
           (Raise (ValueError "invalid literal for int() with base 10"))
           (snd (Loader.main unrated))).
  - discriminate.
  - vm_compute. reflexivity.
  - exact I.
Defined.

(** The users read from the generated [users.csv], inserted into the fresh
    table. *)
Lemma insert_rows_appends_in_order_witness :
  In users_config TABLE_CONFIG /\
  load_csv "users.csv" generated = Ok users_rows /\
  no_minus_zero users_rows /\
  insert_rows "users" users_columns users_rows fresh = (Ok tt, with_users) /\
  exists stored,
    Forall2 (stored_as users_columns) users_rows stored /\
    Forall (Forall2 suits (column_types users_schema)) stored /\
    tables with_users !! "users"
    = Some (Table users_schema (rows_of (tables fresh) "users" ++ stored)) /\
    (forall n, n <> "users" -> tables with_users !! n = tables fresh !! n) /\
    rollback_to with_users = None.
Proof.
  assert (Hzero : no_minus_zero users_rows).
  { repeat (constructor; [repeat (constructor; [cbn; discriminate|]); constructor|]).
    constructor. }
  split; [now left|]. split; [vm_compute; reflexivity|]. split; [exact Hzero|].
  split; [vm_compute; reflexivity|].
  apply (insert_rows_appends_in_order users_config "users.csv" generated users_rows fresh
           with_users).
  - now left.
  - exact (fresh_tables_keyed ∅).
  - vm_compute. reflexivity.
  - exact Hzero.
  - vm_compute. reflexivity.
Defined.

(** A new user is inserted, the next one is refused, and the rollback takes
    the new user back. *)
Lemma insert_rows_all_or_nothing_witness :
  rollback_to with_users = None /\
  fst (insert_rows "users" users_columns newcomers with_users)
  = Raise (IntegrityError "UNIQUE constraint failed") /\
  length (rows_of (tables (snd (insert_rows "users" users_columns newcomers with_users))) "users")
  = 16%nat /\
  tables (rollback (snd (insert_rows "users" users_columns newcomers with_users)))
  = tables with_users.
Proof.
  split; [vm_compute; reflexivity|]. split; [vm_compute; reflexivity|].
  split; [vm_compute; reflexivity|].
  apply (insert_rows_all_or_nothing "users" users_columns newcomers with_users
           (Raise (IntegrityError "UNIQUE constraint failed"))
           (snd (insert_rows "users" users_columns newcomers with_users)));
    [vm_compute; reflexivity | vm_compute; reflexivity | exact I].
Defined.

(** A row without [name]. *)
Lemma insert_rows_missing_column_witness :
  Exists (fun r => Exists (fun col => dict_get col (Csv.named r) = None) users_columns) nameless /\
  exists col,
    In col users_columns /\
    insert_rows "users" users_columns nameless fresh = (Raise (KeyError (PStr col)), fresh).
Proof.
  assert (H : Exists (fun r => Exists (fun col => dict_get col (Csv.named r) = None) users_columns)
                     nameless).
  { apply Exists_cons_hd. apply Exists_cons_tl, Exists_cons_hd. reflexivity. }
  split; [exact H|]. exact (insert_rows_missing_column "users" users_columns nameless fresh H).
Defined.

(** The tables loaded from the generated files. *)
Lemma loader_stores_the_rows_of_the_files_witness :
  Loader.main generated = (Ok tt, loaded) /\
  (forall cfg rows, In cfg TABLE_CONFIG -> load_csv (csv cfg) generated = Ok rows ->
     no_minus_zero rows) /\
  exists d,
    db_file loaded = Some d /\
    forall cfg, In cfg TABLE_CONFIG ->
      exists rows,
        load_csv (csv cfg) generated = Ok rows /\
        Forall2 (stored_as (columns cfg)) rows (rows_of d (name cfg)) /\
        Forall (Forall2 suits (column_types (schema_of cfg))) (rows_of d (name cfg)).
Proof.
  assert (Hzero : forall cfg rows, In cfg TABLE_CONFIG ->
            load_csv (csv cfg) generated = Ok rows -> no_minus_zero rows).
  { intros cfg rows Hcfg Hload. cbn in Hcfg.
    destruct Hcfg as [<-|[<-|[<-|[<-|[<-|[]]]]]]; vm_compute in Hload; injection Hload as <-;
      repeat (constructor; [repeat (constructor; [cbn; discriminate|]); constructor|]);
      constructor. }
  split; [vm_compute; reflexivity|]. split; [exact Hzero|].
  apply (loader_stores_the_rows_of_the_files generated loaded);
    [vm_compute; reflexivity | exact Hzero].
Defined.

(** The schema reset on a file that holds users and a table of notes. *)
Lemma reset_tables_empties_the_five_only_witness :
  reset_tables (connect (Some archive)) = (Ok tt, reset_connection (Some archive)) /\
  (forall cfg, In cfg TABLE_CONFIG ->
     tables (reset_connection (Some archive)) !! name cfg = Some (Table (schema_of cfg) [])) /\
  (forall n, ~ In n table_names ->
     tables (reset_connection (Some archive)) !! n = default ∅ (Some archive) !! n) /\
  rollback_to (reset_connection (Some archive)) = None /\
  foreign_keys (reset_connection (Some archive)) = true.
Proof.
  split; [vm_compute; reflexivity|].
  apply (reset_tables_empties_the_five_only (Some archive) (reset_connection (Some archive))).
  vm_compute. reflexivity.
Defined.

(** The loader run twice on the generated files. *)
Lemma loader_twice_is_loader_once_witness :
  Loader.main generated = (Ok tt, loaded) /\
  exists w2 d1 d2,
    Loader.main loaded = (Ok tt, w2) /\
    db_file loaded = Some d1 /\ db_file w2 = Some d2 /\ agree d2 d1 /\
    data_dir w2 = data_dir generated /\ output_dir w2 = output_dir generated.
Proof.
  split; [vm_compute; reflexivity|].
  apply (loader_twice_is_loader_once generated loaded). vm_compute. reflexivity.
Defined.

(** The loader where [data] is empty. *)
Lemma loader_missing_first_file_witness :
  data_dir empty_data = Some ∅ /\
  exists w',
    Loader.main empty_data
    = (Raise (FileNotFoundError ("Missing CSV file: " ++ path empty_data "data" ++ "/users.csv")), w') /\
    db_file w' = Some (fresh_tables (default ∅ (db_file empty_data))) /\
    (forall cfg, In cfg TABLE_CONFIG ->
       fresh_tables (default ∅ (db_file empty_data)) !! name cfg = Some (Table (schema_of cfg) [])).
Proof.
  split; [reflexivity|].
  apply (loader_missing_first_file empty_data ∅); reflexivity.
Defined.

(** A review without a rating. *)
Lemma load_csv_refuses_empty_number_witness :
  data_file "reviews.csv" unrated = Some unrated_csv /\
  Csv.DictReader unrated_csv = Ok unrated_rows /\
  exists e, load_csv "reviews.csv" unrated = Raise e.
Proof.
  assert (Hfile : data_file "reviews.csv" unrated = Some unrated_csv) by apply lookup_insert_eq.
  assert (Hread : Csv.DictReader unrated_csv = Ok unrated_rows) by (vm_compute; reflexivity).
  split; [exact Hfile|]. split; [exact Hread|].
  apply (load_csv_refuses_empty_number "reviews.csv" unrated unrated_csv unrated_rows Hfile Hread).
  apply Exists_cons_hd. exists "rating". split; [cbn; auto 10|]. cbn. auto 10.
Defined.

(** The report on the loaded default database. *)
Lemma report_rows_show_their_order_witness :
  Loader.main generated = (Ok tt, loaded) /\
  exists d,
    db_file loaded = Some d /\
    joined d = Ok (flat_map (rows_for d) (rows_of d "orders")) /\
    forall orow, In orow (rows_of d "orders") ->
      exists urow prow,
        In urow (rows_of d "users") /\ sql_eq (cell 0 urow) (cell 1 orow) = true /\
        In prow (rows_of d "products") /\ sql_eq (cell 0 prow) (cell 2 orow) = true /\
        forall r, In r (rows_for d orow) ->
          exists rating status,
            r = ((cell 4 orow, cell 0 orow),
                 [cell 1 urow; cell 1 prow; cell 4 orow; rating; status]) /\
            left_cell (rows_of d "reviews") 1 (cell 0 orow) 2 rating /\
            left_cell (rows_of d "payments") 1 (cell 0 orow) 4 status.
Proof.
  split; [vm_compute; reflexivity|].
  apply (report_rows_show_their_order generated loaded). vm_compute. reflexivity.
Defined.

(** The reporter in a fresh checkout, where there is no database. *)
Lemma reporter_writes_nothing_without_tables_witness :
  db_file checkout = None /\
  exists e,
    Reporter.main (fun _ => "") checkout = (Raise e, checkout) /\
    (db_file checkout = None -> e = FileNotFoundError ("Database not found: " ++ path checkout "ecom.db")) /\
    (db_file checkout <> None ->
     exists n, In n table_names /\ e = OperationalError ("no such table: " ++ n)).
Proof.
  split; [reflexivity|].
  apply (reporter_writes_nothing_without_tables (fun _ => "") checkout). now left.
Defined.

(** The reporter on the loaded default database. *)
Lemma reporter_touches_one_file_witness :
  Reporter.main (fun _ => "") loaded = (Ok tt, reported) /\
  exists d js rows,
    db_file loaded = Some d /\ joined d = Ok js /\ Permutation rows (map snd js) /\
    output_file "order_summary.csv" reported
    = Some ("user_name,product_name,order_date,review_rating,payment_status" ++ crlf
            ++ String.concat "" (map (Csv.writerow (fun _ => "")) rows)) /\
    (forall name, name <> "order_summary.csv" ->
       output_file name reported = mkdir (output_dir loaded) !! name) /\
    data_dir reported = data_dir loaded /\ db_file reported = db_file loaded /\
    stdout reported
    = (stdout loaded ++ [("Wrote " ++ str_int (Z.of_nat (length js)) ++ " records to "
                           ++ path loaded "output" ++ "/order_summary.csv")%string])%list.
Proof.
  split; [vm_compute; reflexivity|].
  apply (reporter_touches_one_file (fun _ => "") loaded reported). vm_compute. reflexivity.
Defined.

(** The generated files are consistent. *)
Lemma loader_accepts_only_consistent_files_witness :
  Loader.main generated = (Ok tt, loaded) /\
  csv_unique generated "users.csv" "user_id" /\
  csv_unique generated "products.csv" "product_id" /\
  csv_unique generated "orders.csv" "order_id" /\
  csv_unique generated "reviews.csv" "review_id" /\
  csv_unique generated "payments.csv" "payment_id" /\
  csv_refers generated "orders.csv" "user_id" "users.csv" "user_id" /\
  csv_refers generated "orders.csv" "product_id" "products.csv" "product_id" /\
  csv_refers generated "reviews.csv" "order_id" "orders.csv" "order_id" /\
  csv_refers generated "payments.csv" "order_id" "orders.csv" "order_id".
Proof.
  split; [vm_compute; reflexivity|].
  apply (loader_accepts_only_consistent_files generated loaded). vm_compute. reflexivity.
Defined.

(** A comment with a comma and a row without a comment, written and read. *)
Lemma written_rows_are_read_back_witness :
  data_dir generated = Some data /\
  remarks_fields <> [] /\ NoDup remarks_fields /\ Forall plain remarks_fields /\
  exists w' content,
    Generator.write_csv (fun _ => "") "remarks.csv" remarks_fields remarks generated = (Ok tt, w') /\
    data_file "remarks.csv" w' = Some content /\
    Csv.DictReader content = Ok (map (read_back (fun _ => "") remarks_fields) remarks) /\
    load_csv "remarks.csv" w' = mapM process (map (read_back (fun _ => "") remarks_fields) remarks).
Proof.
  assert (Hnd : NoDup remarks_fields).
  { cbn. repeat (apply NoDup_cons_2; [rewrite list_elem_of_In; cbn; intuition discriminate|]).
    apply NoDup_nil_2. }
  assert (Hnames : Forall plain remarks_fields).
  { repeat (constructor; [apply plain_check; reflexivity|]). constructor. }
  split; [reflexivity|]. split; [discriminate|]. split; [exact Hnd|]. split; [exact Hnames|].
  apply (written_rows_are_read_back (fun _ => "") "remarks.csv" remarks_fields remarks generated data);
    [reflexivity | discriminate | exact Hnd | exact Hnames |].
  repeat (constructor;
          [split;
           [intros kv Hkv; cbn in Hkv |- *; intuition (subst; cbn; auto)
           |intros key Hkey; cbn in Hkey; apply writable_check;
            intuition (subst; reflexivity)]|]).
  constructor.
Defined.

(** The default report, written and read. *)
Lemma report_is_read_back_witness :
  write_summary (fun _ => "") (map snd summary) loaded
  = (Ok tt, snd (write_summary (fun _ => "") (map snd summary) loaded)) /\
  exists content,
    output_file "order_summary.csv" (snd (write_summary (fun _ => "") (map snd summary) loaded))
    = Some content /\
    Csv.reader content
    = Ok (headers :: map (map (Csv.cell_text (fun _ => ""))) (map snd summary)) /\
    forall name, name <> "order_summary.csv" ->
      output_file name (snd (write_summary (fun _ => "") (map snd summary) loaded))
      = mkdir (output_dir loaded) !! name.
Proof.
  split; [reflexivity|].
  apply (report_is_read_back (fun _ => "") (map snd summary) loaded); [|reflexivity].
  repeat (constructor;
          [split; [discriminate|];
           repeat (constructor; [apply writable_check; reflexivity|]); constructor|]).
  constructor.
Defined.

End Samples.
